(** * Multi-window statistics of the double-ball analyzer

    A shallow embedding of the statistical core of the repository
    (utils/window_config.py, data/database.py, analysis/hot_cold_analyzer.py,
    analysis/probability_analyzer.py) and the properties its design
    document states about it.

    Conventions of the embedding:
    - Python [int] is [Z];
    - a Python [float] that a function receives and compares with float
      literals (the percentages of the trend classifiers) is a binary64
      float of the kernel, [PrimFloat.float], and the literals are those of
      the source;
    - a [float] that the code obtains as the quotient of two [int]s is a
      rational: the exact quotient where the properties are about the
      quotient itself, and [binary64_nearest] of it, the value of the float
      that the code holds, where a property depends on the rounding (the
      frequencies of [_count_red_balls_with_frequency], the sums of the
      floats of a distribution); points in time are rationals;
    - a [Counter] / [dict] whose iteration order is observed is an
      association list in insertion order; a [dict] that is only looked up is
      a [gmap]; a [set] is a [gset];
    - a call that may raise returns in the [py] monad;
    - [time.time()] is a parameter of the call that reads the clock. *)

From Stdlib Require Import ZArith QArith Qabs Qround Qpower Lqa List Permutation
  Sorted Lia Bool Floats.
From stdpp Require Import gmap strings list fin_maps.

Local Open Scope Z_scope.
Set Warnings "-clear-no-such-hyp".
(* A decimal literal denotes the nearest binary64 float, as in Python. *)
Set Warnings "-inexact-float".

(** ** Python runtime helpers *)

Inductive exn := ZeroDivisionError | KeyError | OverflowError.

Inductive py (A : Type) :=
| Ok (a : A)
| Raise (e : exn).
Arguments Ok {A} a.
Arguments Raise {A} e.

#[global] Instance py_ret : MRet py := fun _ a => Ok a.
#[global] Instance py_bind : MBind py := fun _ _ f m =>
  match m with
  | Ok a => f a
  | Raise e => Raise e
  end.

(** [a / b] on numbers: true division, raising on a zero divisor. *)
Definition py_truediv (a b : Q) : py Q :=
  if Qeq_bool b 0 then Raise ZeroDivisionError else Ok (a / b)%Q.

(** [x < y] on floats. *)
Definition Qltb (x y : Q) : bool := negb (Qle_bool y x).

(** [range(lo, hi)]. *)
Definition py_range (lo hi : Z) : list Z :=
  map (fun i => lo + Z.of_nat i) (seq 0 (Z.to_nat (hi - lo))).

(** [l[i:j]] for constant bounds [0 <= i <= j]. *)
Definition py_slice {A} (i j : nat) (l : list A) : list A :=
  take (j - i) (drop i l).

(** [l[start:]], with Python's treatment of a negative start. *)
Definition py_slice_from {A} (start : Z) (l : list A) : list A :=
  let n := Z.of_nat (length l) in
  let s := if start <? 0 then Z.max (n + start) 0 else Z.min start n in
  drop (Z.to_nat s) l.

(** [l[:stop]], with Python's treatment of a negative stop. *)
Definition py_slice_to {A} (stop : Z) (l : list A) : list A :=
  let n := Z.of_nat (length l) in
  let e := if stop <? 0 then Z.max (n + stop) 0 else Z.min stop n in
  take (Z.to_nat e) l.

(** [sorted(l, key=...)]: a stable sort; [leb x y] compares the keys. *)
Section Sorted.
Context {A : Type} (leb : A -> A -> bool).

Fixpoint py_insert (x : A) (l : list A) : list A :=
  match l with
  | [] => [x]
  | y :: l' => if leb x y then x :: y :: l' else y :: py_insert x l'
  end.

Fixpoint py_sorted (l : list A) : list A :=
  match l with
  | [] => []
  | x :: l' => py_insert x (py_sorted l')
  end.
End Sorted.

(** [all(rel(l[i], l[i+1]) for i in range(len(l) - 1))]. *)
Fixpoint all_adjacent {A} (rel : A -> A -> bool) (l : list A) : bool :=
  match l with
  | a :: (b :: _) as l' => rel a b && all_adjacent rel l'
  | _ => true
  end.

(** The pairs [(l[i], l[i+1])] for [i in range(len(l) - 1)]. *)
Fixpoint adjacent_pairs {A} (l : list A) : list (A * A) :=
  match l with
  | a :: (b :: _) as l' => (a, b) :: adjacent_pairs l'
  | _ => []
  end.

(** A [for] loop whose body may raise. *)
Fixpoint py_for {A S} (l : list A) (body : S -> A -> py S) (s : S) : py S :=
  match l with
  | [] => Ok s
  | x :: l' => s' ← body s x; py_for l' body s'
  end.

(** [sum(l)] on ints. *)
Definition py_sum (l : list Z) : Z := fold_left Z.add l 0.

(** [max(l)] and [min(l)] on a non-empty list of floats (the first extremal
    element is kept, as Python does). *)
Definition py_max (x : float) (l : list float) : float :=
  fold_left (fun m y => if (m <? y)%float then y else m) l x.
Definition py_min (x : float) (l : list float) : float :=
  fold_left (fun m y => if (y <? m)%float then y else m) l x.

(** ** Binary64 floats *)

(** A float that is not a NaN. *)
Definition not_nan (x : float) : Prop := PrimFloat.is_nan x = false.

(** The rank of a float that is not a NaN: the comparisons of IEEE 754
    order two floats as the lexicographic order does their ranks. *)
Definition SFrank (f : spec_float) : option (Z * Z * Z) :=
  match f with
  | S754_nan => None
  | S754_infinity true => Some (-2, 0, 0)
  | S754_finite true m e => Some (-1, - e, - Z.pos m)
  | S754_zero _ => Some (0, 0, 0)
  | S754_finite false m e => Some (1, e, Z.pos m)
  | S754_infinity false => Some (2, 0, 0)
  end.

Definition lex3 (a b : Z * Z * Z) : comparison :=
  match a.1.1 ?= b.1.1 with
  | Eq => match a.1.2 ?= b.1.2 with
          | Eq => a.2 ?= b.2
          | c => c
          end
  | c => c
  end.

(** The value of a finite float. *)
Definition float_value (x : float) : option Q :=
  match Prim2SF x with
  | S754_zero _ => Some 0%Q
  | S754_finite s m e =>
      Some ((if s then -1 else 1) * inject_Z (Z.pos m) * 2 ^ e)%Q
  | _ => None
  end.

(** The exponent [e] with [2^e <= q < 2^(e+1)], for a positive [q]. *)
Definition floor_log2 (q : Q) : Z :=
  let e := Z.log2 (Qnum q) - Z.log2 (Z.pos (Qden q)) in
  if Qle_bool (2 ^ e) q then e else e - 1.

(** The integer nearest to [x], the even one of the two when [x] lies half
    way between them. *)
Definition round_half_even (x : Q) : Z :=
  let f := Qfloor x in
  match (x - inject_Z f ?= 1 # 2)%Q with
  | Lt => f
  | Gt => f + 1
  | Eq => if Z.even f then f else f + 1
  end.

(** The value of the binary64 float nearest to [q], ties to even, subnormal
    numbers included, for [q] below the overflow threshold: the float that
    Python's [a / b] returns for two ints with the exact quotient [q]. *)
Definition binary64_nearest (q : Q) : Q :=
  if Qeq_bool q 0 then 0%Q
  else
    let e := Z.max (floor_log2 (Qabs q)) (-1022) in
    let ulp := (2 ^ (e - 52))%Q in
    (inject_Z (round_half_even (q / ulp)) * ulp)%Q.

(** ** collections.Counter, in insertion order *)

Fixpoint counter_incr (ball : Z) (c : list (Z * Z)) : list (Z * Z) :=
  match c with
  | [] => [(ball, 1)]
  | (k, v) :: c' =>
      if k =? ball then (k, v + 1) :: c' else (k, v) :: counter_incr ball c'
  end.

Fixpoint counter_mem (ball : Z) (c : list (Z * Z)) : bool :=
  match c with
  | [] => false
  | (k, _) :: c' => (k =? ball) || counter_mem ball c'
  end.

(** [c.get(ball, 0)]. *)
Fixpoint counter_get (ball : Z) (c : list (Z * Z)) : Z :=
  match c with
  | [] => 0
  | (k, v) :: c' => if k =? ball then v else counter_get ball c'
  end.

(** [Counter(l)]. *)
Definition Counter (l : list Z) : list (Z * Z) :=
  fold_left (fun c x => counter_incr x c) l [].

(** ** data/models.py *)

(** The fields of [DoubleBallRecord] the analyzers read. [issue] is the
    value of [CAST(issue AS INTEGER)], by which the storage orders draws. *)
Record DoubleBallRecord := {
  issue : Z;
  red1 : Z; red2 : Z; red3 : Z; red4 : Z; red5 : Z; red6 : Z;
  blue : Z
}.

(** [[record.red1, ..., record.red6]]. *)
Definition reds (r : DoubleBallRecord) : list Z :=
  [red1 r; red2 r; red3 r; red4 r; red5 r; red6 r].

(** The CHECK constraints of the storage table on the main numbers. *)
Definition valid_reds (r : DoubleBallRecord) : Prop :=
  Forall (fun b => 1 <= b <= 33) (reds r).

(** ** utils/window_config.py *)

Module WindowConfigManager.

Record state := {
  _WINDOW_CONFIG : gmap string (option Z);
  _TREND_WINDOWS : list (option Z)
}.

(** The class attributes as written in the source. *)
Definition initial : state := {|
  _WINDOW_CONFIG :=
    <["short_term" := Some 30]> (<["medium_term" := Some 50]>
    (<["long_term" := Some 100]> (<["all_history" := None]> ∅)));
  _TREND_WINDOWS := [Some 30; Some 50; Some 100; None]
|}.

Definition get_all_windows (cls : state) : gmap string (option Z) :=
  _WINDOW_CONFIG cls.

(** [cls._WINDOW_CONFIG.get(name)]. *)
Definition get_window_by_name (cls : state) (name : string) : option Z :=
  mjoin (_WINDOW_CONFIG cls !! name).

Definition get_trend_windows (cls : state) : list (option Z) :=
  _TREND_WINDOWS cls.

Definition set_window_config (cls : state) (config : gmap string Z) : state :=
  let set name (wc : gmap string (option Z)) :=
    match config !! name with
    | Some v => <[name := Some v]> wc
    | None => wc
    end in
  let wc := set "long_term" (set "medium_term" (set "short_term"
              (_WINDOW_CONFIG cls))) in
  {| _WINDOW_CONFIG := wc;
     _TREND_WINDOWS := [mjoin (wc !! "short_term");
                        mjoin (wc !! "medium_term");
                        mjoin (wc !! "long_term"); None] |}.

(** The window attributes of [config.analysis]; an absent attribute takes
    the [getattr] default. *)
Record AnalysisConfig := {
  SHORT_TERM_WINDOW : option Z;
  MEDIUM_TERM_WINDOW : option Z;
  LONG_TERM_WINDOW : option Z
}.

Definition update_from_config (cls : state)
    (analysis : option AnalysisConfig) : state :=
  match analysis with
  | Some a =>
      set_window_config cls
        (<["short_term" := default 30 (SHORT_TERM_WINDOW a)]>
        (<["medium_term" := default 50 (MEDIUM_TERM_WINDOW a)]>
        (<["long_term" := default 100 (LONG_TERM_WINDOW a)]> ∅)))
  | None => cls
  end.

End WindowConfigManager.

(** ** data/database.py *)

Module DoubleBallDatabase.

(** The rows of the draw table, in storage order. *)
Record t := { rows : list DoubleBallRecord }.

(** [ORDER BY CAST(issue AS INTEGER) DESC]. *)
Definition issue_desc (a b : DoubleBallRecord) : bool := issue b <=? issue a.

Definition get_all_records (self : t) (limit : option Z)
    : list DoubleBallRecord :=
  let records := py_sorted issue_desc (rows self) in
  match limit with
  | Some n => if 0 <? n then take (Z.to_nat n) records else records
  | None => records
  end.

Definition get_recent_records (self : t) (limit : Z)
    : list DoubleBallRecord :=
  if limit <=? 0 then [] else get_all_records self (Some limit).

(** [get_latest_record()]: [records[0] if records else None]. *)
Definition get_latest_record (self : t) : option DoubleBallRecord :=
  head (get_recent_records self 1).

(** [cursor.execute(query, (limit,))] binds a positive limit as an SQLite
    INTEGER: for an int of 2^63 or more Python's sqlite3 raises OverflowError,
    which [except sqlite3.Error] does not catch, so that [get_all_records] and
    [get_recent_records] pass it on to their caller. [get_all_records] and
    [get_recent_records] above give the list of a call that returns;
    [get_recent_records_or_raise] is the call with its exception. *)
Definition limit_overflows (limit : Z) : bool :=
  (0 <? limit) && (2 ^ 63 <=? limit).

Definition get_recent_records_or_raise (self : t) (limit : Z)
    : py (list DoubleBallRecord) :=
  if limit_overflows limit then Raise OverflowError
  else Ok (get_recent_records self limit).

End DoubleBallDatabase.


(** ** analysis/hot_cold_analyzer.py *)

Module HotColdAnalyzer.

(** The tier labels '热', '温', '冷'. *)
Inductive heat := Hot | Warm | Cold.

#[global] Instance heat_eq_dec : EqDecision heat.
Proof. solve_decision. Defined.

(** The labels of [_determine_heat_trend]: '数据不足', '升温', '降温', '波动'. *)
Inductive heat_trend :=
  HeatInsufficient | HeatingUp | CoolingDown | HeatFluctuating.

(** The labels of [_determine_ball_trend]: '数据不足', '递增', '递减', '稳定',
    '波动', and for the short sequences '上升', '下降'. *)
Inductive ball_trend :=
  TrendInsufficient | Increasing | Decreasing | Stable | Oscillating
  | Rising | Falling.

(** The dictionary [analyze] returns. *)
Record result := {
  hot : list Z;
  warm : list Z;
  cold : list Z;
  ball_status : gmap Z heat;
  total_records : Z;
  red_counts : list (Z * Z);
  window : Z;
  _cache_time : Q
}.

(** The analyzer object: its storage handle, the entries of
    [_cached_results] under the keys [f"window_{window}"] (indexed here by
    [window]), the TTL and the default window. *)
Record t := {
  db : option DoubleBallDatabase.t;
  _cached_results : gmap Z result;
  _cache_ttl : Q;
  short_term_window : Z
}.

(** Lines 122-133, also the body of [_count_red_balls]: count every main
    number of every record, then zero-fill 1..33. *)
Definition count_record (c : list (Z * Z)) (record : DoubleBallRecord)
    : list (Z * Z) :=
  fold_left (fun c ball => counter_incr ball c) (reds record) c.

Definition zero_fill (c : list (Z * Z)) : list (Z * Z) :=
  fold_left (fun c ball => if counter_mem ball c then c else c ++ [(ball, 0)])
            (py_range 1 34) c.

Definition _count_red_balls (records : list DoubleBallRecord) : list (Z * Z) :=
  zero_fill (fold_left count_record records []).

(** The sort key [lambda x: (-x[1], x[0])], compared as Python compares
    tuples. *)
Definition key_leb (x y : Z * Z) : bool :=
  (- snd x <? - snd y) || ((- snd x =? - snd y) && (fst x <=? fst y)).

Definition sorted_items (red_counts : list (Z * Z)) : list (Z * Z) :=
  py_sorted key_leb red_counts.

Definition set_status (s : heat) (balls : list Z) (m : gmap Z heat)
    : gmap Z heat :=
  fold_left (fun m ball => <[ball := s]> m) balls m.

Definition _get_empty_result (window : Z) (now : Q) : result := {|
  hot := []; warm := []; cold := [];
  ball_status := ∅;
  total_records := 0;
  red_counts := [];
  window := window;
  _cache_time := now
|}.

(** Lines 104-110 of [analyze]: the cache test. It yields the entry that
    [analyze] returns at once, if there is one. *)
Definition cache_lookup (self : t) (now_check : Q) (window : Z)
    (force_refresh : bool) : option result :=
  if force_refresh then None
  else match _cached_results self !! window with
       | Some cached_result =>
           if Qltb (now_check - _cache_time cached_result) (_cache_ttl self)
           then Some cached_result else None
       | None => None
       end.

(** [analyze(records, window, force_refresh)]. [now_check] is the clock read
    by the cache test, [now_done] the one stamped on the result. *)
Definition analyze (self : t) (now_check now_done : Q)
    (records : option (list DoubleBallRecord)) (window : option Z)
    (force_refresh : bool) : result * t :=
  let window := default (short_term_window self) window in
  match cache_lookup self now_check window force_refresh with
  | Some cached_result => (cached_result, self)
  | None =>
      let records :=
        match records, db self with
        | None, Some d => Some (DoubleBallDatabase.get_recent_records d window)
        | _, _ => records
        end in
      match records with
      | None | Some [] => (_get_empty_result window now_done, self)
      | Some records =>
          let red_counts := _count_red_balls records in
          let sorted_items := sorted_items red_counts in
          let hot := (py_slice 0 11 sorted_items).*1 in
          let warm := (py_slice 11 22 sorted_items).*1 in
          let cold := (py_slice 22 33 sorted_items).*1 in
          let ball_status :=
            set_status Cold cold (set_status Warm warm (set_status Hot hot ∅)) in
          let result := {|
            hot := hot; warm := warm; cold := cold;
            ball_status := ball_status;
            total_records := Z.of_nat (length records);
            red_counts := red_counts;
            window := window;
            _cache_time := now_done
          |} in
          (result,
           {| db := db self;
              _cached_results := <[window := result]> (_cached_results self);
              _cache_ttl := _cache_ttl self;
              short_term_window := short_term_window self |})
      end
  end.

(** [clear_cache(window)]. *)
Definition clear_cache (self : t) (window : option Z) : t :=
  {| db := db self;
     _cached_results :=
       match window with
       | None => ∅
       | Some w => delete w (_cached_results self)
       end;
     _cache_ttl := _cache_ttl self;
     short_term_window := short_term_window self |}.

(** The per-window entry [analyze_multiple_windows] hands to the consistency
    analysis (its display name is left out). *)
Record window_data := {
  w_window : Z;
  w_hot : list Z;
  w_warm : list Z;
  w_cold : list Z;
  w_total_records : Z
}.

Record varying_entry := {
  ball : Z;
  statuses : list heat;
  trend : heat_trend
}.

(** The dictionary of [_analyze_cross_window_consistency] (its
    'heat_transitions' entry is always the empty dictionary). *)
Record consistency := {
  consistent_hot : list Z;
  consistent_warm : list Z;
  consistent_cold : list Z;
  varying : list varying_entry
}.

Inductive consistency_result :=
| NeedTwoWindows                 (* {'message': ...} *)
| Consistency (c : consistency).

Definition heat_value (s : heat) : Z :=
  match s with Cold => 1 | Warm => 2 | Hot => 3 end.

Definition _determine_heat_trend (statuses : list heat) : heat_trend :=
  if (length statuses <? 2)%nat then HeatInsufficient
  else
    let heat_values := map heat_value statuses in
    if all_adjacent Z.leb heat_values then HeatingUp
    else if all_adjacent Z.geb heat_values then CoolingDown
    else HeatFluctuating.

(** Lines 260-266: the status one window gives to one ball. *)
Definition window_status (wd : window_data) (ball : Z) : heat :=
  let hot_set : gset Z := list_to_set (w_hot wd) in
  let warm_set : gset Z := list_to_set (w_warm wd) in
  if decide (ball ∈ hot_set) then Hot
  else if decide (ball ∈ warm_set) then Warm
  else Cold.

(** Lines 250-266: [ball_statuses], filled window by window. *)
Definition collect_statuses (window_results : list window_data)
    : gmap Z (list heat) :=
  let init : gmap Z (list heat) :=
    fold_left (fun m ball => <[ball := []]> m) (py_range 1 34) ∅ in
  fold_left
    (fun m wd =>
       fold_left
         (fun m ball => alter (fun l => l ++ [window_status wd ball]) ball m)
         (py_range 1 34) m)
    window_results init.

(** Lines 270-284: the verdict on one ball. *)
Definition add_verdict (c : consistency) (ball : Z) (statuses : list heat)
    : consistency :=
  if (length (remove_dups statuses) =? 1)%nat then
    match head statuses with
    | Some Hot =>
        {| consistent_hot := consistent_hot c ++ [ball];
           consistent_warm := consistent_warm c;
           consistent_cold := consistent_cold c;
           varying := varying c |}
    | Some Warm =>
        {| consistent_hot := consistent_hot c;
           consistent_warm := consistent_warm c ++ [ball];
           consistent_cold := consistent_cold c;
           varying := varying c |}
    | _ =>
        {| consistent_hot := consistent_hot c;
           consistent_warm := consistent_warm c;
           consistent_cold := consistent_cold c ++ [ball];
           varying := varying c |}
    end
  else
    {| consistent_hot := consistent_hot c;
       consistent_warm := consistent_warm c;
       consistent_cold := consistent_cold c;
       varying := varying c ++
         [{| ball := ball; statuses := statuses;
             trend := _determine_heat_trend statuses |}] |}.

(** [if l: l.sort()]. *)
Definition sort_if_nonempty (l : list Z) : list Z :=
  match l with [] => [] | _ => py_sorted Z.leb l end.

(** [window_results] are the values of the dictionary, in insertion order;
    [ball_statuses] is iterated in its insertion order 1..33. *)
Definition _analyze_cross_window_consistency
    (window_results : list window_data) : consistency_result :=
  if (length window_results <? 2)%nat then NeedTwoWindows
  else
    let ball_statuses := collect_statuses window_results in
    let c :=
      fold_left
        (fun c ball => add_verdict c ball (default [] (ball_statuses !! ball)))
        (py_range 1 34)
        {| consistent_hot := []; consistent_warm := [];
           consistent_cold := []; varying := [] |} in
    Consistency
      {| consistent_hot := sort_if_nonempty (consistent_hot c);
         consistent_warm := sort_if_nonempty (consistent_warm c);
         consistent_cold := sort_if_nonempty (consistent_cold c);
         varying := varying c |}.

(** [_determine_ball_trend(percentages)]. *)
Definition _determine_ball_trend (percentages : list float) : ball_trend :=
  if (length percentages <? 2)%nat then TrendInsufficient
  else if (4 <=? length percentages)%nat then
    let is_increasing := all_adjacent PrimFloat.leb percentages in
    let is_decreasing :=
      all_adjacent (fun a b => PrimFloat.leb b a) percentages in
    let max_diff :=
      match percentages with
      | [] => 0%float
      | p :: ps => (py_max p ps - py_min p ps)%float
      end in
    if is_increasing && (0.05 <? max_diff)%float then Increasing
    else if is_decreasing && (0.05 <? max_diff)%float then Decreasing
    else if (max_diff <=? 0.03)%float then Stable
    else Oscillating
  else
    let first := hd 0%float percentages in
    let last := List.last percentages 0%float in
    if (first <? last)%float && (0.05 <? last - first)%float then Rising
    else if (last <? first)%float && (0.05 <? first - last)%float then Falling
    else Stable.

(** [_count_red_balls_with_frequency(records)]: the table and, in the same
    order, the frequency of each number, the float [count / total_games]:
    its value is that of the binary64 float nearest to the quotient. *)
Definition _count_red_balls_with_frequency (records : list DoubleBallRecord)
    : py (list (Z * Z) * list (Z * Q)) :=
  let red_counts := _count_red_balls records in
  let total_games := Z.of_nat (length records) in
  red_frequencies ←
    mapM (fun '(ball, count) =>
            if 0 <? total_games then
              p ← py_truediv (inject_Z count) (inject_Z total_games);
              mret (ball, binary64_nearest p)
            else mret (ball, 0%Q))
         red_counts;
  mret (red_counts, red_frequencies).

(** The [categories] argument of [get_ball_status]: a result of [analyze],
    which has the 'ball_status' dictionary, or a dictionary with the three
    lists only. *)
Inductive categories :=
| WithStatus (r : result)
| TiersOnly (hot warm cold : list Z).

(** The answers of [get_ball_status]: a tier label or '无效'. *)
Inductive status_answer :=
| Tier (s : heat)
| Invalid.

(** [get_ball_status(ball, categories)]. *)
Definition get_ball_status (self : t) (now_check now_done : Q) (ball : Z)
    (categories : option categories) : status_answer * t :=
  if negb ((1 <=? ball) && (ball <=? 33)) then (Invalid, self)
  else
    let '(categories, self) :=
      match categories with
      | Some c => (c, self)
      | None =>
          let '(r, self) := analyze self now_check now_done None None false in
          (WithStatus r, self)
      end in
    match categories with
    | WithStatus r => (Tier (default Cold (ball_status r !! ball)), self)
    | TiersOnly hot warm cold =>
        if decide (ball ∈ hot) then (Tier Hot, self)
        else if decide (ball ∈ warm) then (Tier Warm, self)
        else (Tier Cold, self)
    end.

(** The truncation shared by [get_hot_numbers], [get_cold_numbers] and
    [get_warm_numbers]. *)
Definition first_top_n (top_n : option Z) (numbers : list Z) : list Z :=
  match top_n with
  | Some n =>
      if n <? Z.of_nat (length numbers) then py_slice_to n numbers
      else numbers
  | None => numbers
  end.

Definition get_hot_numbers (self : t) (now_check now_done : Q)
    (window : option Z) (top_n : option Z) : list Z * t :=
  let '(categories, self) :=
    analyze self now_check now_done None window false in
  (first_top_n top_n (hot categories), self).

Definition get_cold_numbers (self : t) (now_check now_done : Q)
    (window : option Z) (top_n : option Z) : list Z * t :=
  let '(categories, self) :=
    analyze self now_check now_done None window false in
  (first_top_n top_n (cold categories), self).

Definition get_warm_numbers (self : t) (now_check now_done : Q)
    (window : option Z) (top_n : option Z) : list Z * t :=
  let '(categories, self) :=
    analyze self now_check now_done None window false in
  (first_top_n top_n (warm categories), self).

End HotColdAnalyzer.


(** ** analysis/probability_analyzer.py *)

Module ProbabilityAnalyzer.

(** The dictionary of [_calculate_current_predictions]. *)
Record current_predictions := {
  based_on_comparisons : Z;
  avg_repeat_count : Q;
  red_probabilities : gmap Z Q;
  similar_blue_repeat_probability : Q
}.

(** The dictionary of [_calculate_window_repeat_stats] (without its
    constant debugging entries and its timestamp). *)
Record window_stats := {
  window_name : string;
  period_limit : option Z;
  effective_periods : Z;
  total_pairs : Z;
  repeat_distribution : gmap Z Q;
  blue_repeat_probability : Q;
  predictions : current_predictions
}.

Record t := {
  db : DoubleBallDatabase.t;
  window_config : gmap string (option Z)
}.

(** [_get_window_config()]. [config_importable] tells whether
    [from config import config] succeeds; [wcm] is the state of
    [WindowConfigManager] at the call. *)
Definition _get_window_config (config_importable : bool)
    (wcm : WindowConfigManager.state) : gmap string (option Z) :=
  if config_importable then
    <["short_term" := WindowConfigManager.get_window_by_name wcm "short_term"]>
    (<["medium_term" := WindowConfigManager.get_window_by_name wcm "short_term"]>
    (<["long_term" := WindowConfigManager.get_window_by_name wcm "short_term"]>
    (<["all_history" := None]> ∅)))
  else
    <["short_term" := Some 30]> (<["medium_term" := Some 50]>
    (<["long_term" := Some 100]> (<["all_history" := None]> ∅))).

(** [__init__(db)]. *)
Definition init (db : DoubleBallDatabase.t) (config_importable : bool)
    (wcm : WindowConfigManager.state) : t :=
  {| db := db; window_config := _get_window_config config_importable wcm |}.

(** [len(set(record_reds) & set(next_reds))] and the blue indicator. *)
Definition repeat_reds (record next_record : DoubleBallRecord) : gset Z :=
  list_to_set (reds record) ∩ list_to_set (reds next_record).

Definition repeat_count (record next_record : DoubleBallRecord) : Z :=
  Z.of_nat (size (repeat_reds record next_record)).

Definition blue_repeat (record next_record : DoubleBallRecord) : Z :=
  if blue record =? blue next_record then 1 else 0.

(** The loop state of [_calculate_current_predictions]. *)
Record similar := {
  similar_repeat_counts : list Z;
  similar_blue_repeats : list Z;
  red_repeat_predictions : gmap Z Z;
  total_comparisons : Z
}.

Definition compare_pair (current_reds : list Z) (s : similar)
    (pair : DoubleBallRecord * DoubleBallRecord) : similar :=
  let '(record, next_record) := pair in
  let common_reds : gset Z :=
    list_to_set current_reds ∩ list_to_set (reds record) in
  if (0 <? size common_reds)%nat then
    let repeat_reds := repeat_reds record next_record in
    {| similar_repeat_counts :=
         similar_repeat_counts s ++ [Z.of_nat (size repeat_reds)];
       similar_blue_repeats :=
         similar_blue_repeats s ++ [blue_repeat record next_record];
       red_repeat_predictions :=
         fold_left
           (fun m red =>
              if decide (red ∈ repeat_reds) then alter Z.succ red m else m)
           current_reds (red_repeat_predictions s);
       total_comparisons := total_comparisons s + 1 |}
  else s.

Definition _calculate_current_predictions (current_record : DoubleBallRecord)
    (period_data : list DoubleBallRecord) : py current_predictions :=
  let current_reds := reds current_record in
  let s :=
    fold_left (compare_pair current_reds) (adjacent_pairs period_data)
      {| similar_repeat_counts := []; similar_blue_repeats := [];
         red_repeat_predictions :=
           fold_left (fun m red => <[red := 0]> m) current_reds ∅;
         total_comparisons := 0 |} in
  let n := inject_Z (total_comparisons s) in
  if 0 <? total_comparisons s then
    avg ← match similar_repeat_counts s with
          | [] => Ok 0%Q
          | l => py_truediv (inject_Z (py_sum l)) n
          end;
    probs ← mapM (fun '(red, count) =>
                    p ← py_truediv (inject_Z count) n; mret (red, p))
                 (map_to_list (red_repeat_predictions s));
    blue_prob ← match similar_blue_repeats s with
                | [] => Ok 0%Q
                | l => py_truediv (inject_Z (py_sum l)) n
                end;
    mret {| based_on_comparisons := total_comparisons s;
            avg_repeat_count := avg;
            red_probabilities := list_to_map probs;
            similar_blue_repeat_probability := blue_prob |}
  else
    mret {| based_on_comparisons := total_comparisons s;
            avg_repeat_count := 0;
            red_probabilities :=
              fold_left (fun m red => <[red := 0%Q]> m) current_reds ∅;
            similar_blue_repeat_probability := 0 |}.

(** [self.window_config[window_name]]. *)
Definition config_item (self : t) (window_name : string) : py (option Z) :=
  match window_config self !! window_name with
  | Some period_limit => Ok period_limit
  | None => Raise KeyError
  end.

Definition _calculate_window_repeat_stats (self : t) (window_name : string)
    (current_record : DoubleBallRecord) (period_data : list DoubleBallRecord)
    : py window_stats :=
  let pairs := adjacent_pairs period_data in
  let repeat_counts := map (fun p => repeat_count p.1 p.2) pairs in
  let blue_repeat_counts := map (fun p => blue_repeat p.1 p.2) pairs in
  let total_pairs := Z.of_nat (length period_data) - 1 in
  repeat_prob_distribution ←
    (if 0 <? total_pairs then
       let count_distribution := Counter repeat_counts in
       py_for (py_range 0 7)
         (fun dist count =>
            let freq := counter_get count count_distribution in
            p ← py_truediv (inject_Z freq) (inject_Z total_pairs);
            mret (<[count := p]> dist))
         (∅ : gmap Z Q)
     else Ok ∅);
  blue_repeat_probability ←
    (if 0 <? total_pairs then
       py_truediv (inject_Z (py_sum blue_repeat_counts)) (inject_Z total_pairs)
     else Ok 0%Q);
  current_predictions ← _calculate_current_predictions current_record period_data;
  period_limit ← config_item self window_name;
  mret {| window_name := window_name;
          period_limit := period_limit;
          effective_periods := Z.of_nat (length period_data);
          total_pairs := total_pairs;
          repeat_distribution := repeat_prob_distribution;
          blue_repeat_probability := blue_repeat_probability;
          predictions := current_predictions |}.

(** Lines 109-118 of [_analyze_single_window]: the draws of the window. *)
Definition window_period_data (period_limit : option Z) (window_name : string)
    (all_records : list DoubleBallRecord) (total_records : Z)
    : list DoubleBallRecord :=
  match period_limit with
  | Some limit =>
      if String.eqb window_name "all_history" then all_records
      else
        let effective_period := Z.min limit total_records in
        py_slice_from (- effective_period) all_records
  | None => all_records
  end.

Definition _analyze_single_window (self : t) (window_name : string)
    (current_record : DoubleBallRecord) (all_records : list DoubleBallRecord)
    (total_records : Z) : py (option window_stats) :=
  period_limit ← config_item self window_name;
  let period_data :=
    window_period_data period_limit window_name all_records total_records in
  if (length period_data <? 2)%nat then Ok None
  else
    stats ← _calculate_window_repeat_stats self window_name current_record
              period_data;
    mret (Some stats).

(** The result of [analyze_current_period_probability]: either the
    dictionary of [_get_empty_result], which carries the 'error' entry and an
    empty 'window_analysis', or the one of [_combine_window_results] (whose
    trend texts, derived from 'window_analysis', are left out). *)
Record combined := {
  current_period : Z;
  current_reds : list Z;
  current_blue : Z;
  total_records : Z;
  window_analysis : gmap string window_stats;
  window_config_used : gmap string (option Z)
}.

Inductive analysis_result :=
| EmptyResult (current_record : option DoubleBallRecord)
| Combined (c : combined).

Definition default_window_group : list string :=
  ["short_term"; "medium_term"; "long_term"; "all_history"].

Definition analyze_current_period_probability (self : t)
    (current_record : option DoubleBallRecord)
    (window_group : option (list string)) : py analysis_result :=
  match current_record with
  | None => Ok (EmptyResult None)
  | Some current_record =>
      let all_records := DoubleBallDatabase.get_all_records (db self) None in
      let total_records := Z.of_nat (length all_records) in
      if total_records <? 2 then Ok (EmptyResult (Some current_record))
      else
        let window_group := default default_window_group window_group in
        window_results ←
          py_for window_group
            (fun (window_results : gmap string window_stats) window_name =>
               match window_config self !! window_name with
               | None => Ok window_results
               | Some _ =>
                   window_result ←
                     _analyze_single_window self window_name current_record
                       all_records total_records;
                   match window_result with
                   | Some r => Ok (<[window_name := r]> window_results)
                   | None => Ok window_results
                   end
               end)
            ∅;
        mret (Combined
          {| current_period := issue current_record;
             current_reds := reds current_record;
             current_blue := blue current_record;
             total_records := total_records;
             window_analysis := window_results;
             window_config_used := window_config self |})
  end.

(** The labels of [_determine_trend_type]: '数据不足', '递增', '递减', '稳定',
    '波动', '数据不完整'. *)
Inductive trend_type :=
  TrendInsufficient | TrendIncreasing | TrendDecreasing | TrendStable
  | TrendOscillating | TrendIncomplete.

(** [[probabilities.get(w, 0.0) for w in window_order if w in probabilities]]. *)
Definition ordered_values (probabilities : gmap string float)
    (window_order : list string) : list float :=
  omap (fun w => probabilities !! w) window_order.

(** [_determine_trend_type(probabilities, window_order)]. *)
Definition _determine_trend_type (probabilities : gmap string float)
    (window_order : list string) : trend_type :=
  if (size probabilities <? 2)%nat then TrendInsufficient
  else
    let values := ordered_values probabilities window_order in
    let is_increasing := all_adjacent PrimFloat.leb values in
    let is_decreasing := all_adjacent (fun a b => PrimFloat.leb b a) values in
    let max_diff :=
      match values with
      | [] => 0%float
      | v :: vs => (py_max v vs - py_min v vs)%float
      end in
    if (length values =? 4)%nat then
      if is_increasing && (0.02 <? max_diff)%float then TrendIncreasing
      else if is_decreasing && (0.02 <? max_diff)%float then TrendDecreasing
      else if (max_diff <=? 0.02)%float then TrendStable
      else TrendOscillating
    else TrendIncomplete.

(** [_calculate_similarity(list1, list2)]:
    [len(set1 & set2) / len(set1 | set2) if len(set1 | set2) > 0 else 0]. *)
Definition _calculate_similarity (list1 list2 : list Z) : py Q :=
  let set1 : gset Z := list_to_set list1 in
  let set2 : gset Z := list_to_set list2 in
  if (0 <? size (set1 ∪ set2))%nat then
    py_truediv (inject_Z (Z.of_nat (size (set1 ∩ set2))))
               (inject_Z (Z.of_nat (size (set1 ∪ set2))))
  else Ok 0%Q.

End ProbabilityAnalyzer.


(** ** services/analysis_service.py *)

Module AnalysisService.

(** The service object: its storage handle and its default window. *)
Record t := {
  db : DoubleBallDatabase.t;
  default_window : Z
}.

(** The dictionary of [get_frequency_analysis] (without its time stamp). *)
Record frequency_analysis := {
  window : Z;
  total_records : Z;
  red_frequencies : list (Z * Z);
  blue_frequencies : list (Z * Z);
  sorted_reds : list (Z * Z);
  sorted_blues : list (Z * Z)
}.

(** [for ball in range(lo, hi): if ball not in counts: counts[ball] = 0]. *)
Definition zero_fill (lo hi : Z) (c : list (Z * Z)) : list (Z * Z) :=
  fold_left (fun c ball => if counter_mem ball c then c else c ++ [(ball, 0)])
            (py_range lo hi) c.

(** Lines 66-72: one record counted into both counters. *)
Definition count_record (counts : list (Z * Z) * list (Z * Z))
    (record : DoubleBallRecord) : list (Z * Z) * list (Z * Z) :=
  (fold_left (fun c ball => counter_incr ball c) (reds record) counts.1,
   counter_incr (blue record) counts.2).

(** The dictionary [get_frequency_analysis] returns: the one with the
    'error' entry when the [try] block raises, or the tables. *)
Inductive frequency_result :=
| FrequencyError (e : exn)
| FrequencyOk (r : frequency_analysis).

Definition get_frequency_analysis (self : t) (window : option Z)
    : frequency_result :=
  let window := default (default_window self) window in
  match DoubleBallDatabase.get_recent_records_or_raise (db self) window with
  | Raise e => FrequencyError e
  | Ok records =>
      let counts := fold_left count_record records ([], []) in
      let red_counts := zero_fill 1 34 counts.1 in
      let blue_counts := zero_fill 1 17 counts.2 in
      FrequencyOk
        {| window := window;
           total_records := Z.of_nat (length records);
           red_frequencies := red_counts;
           blue_frequencies := blue_counts;
           sorted_reds := py_sorted HotColdAnalyzer.key_leb red_counts;
           sorted_blues := py_sorted HotColdAnalyzer.key_leb blue_counts |}
  end.

(** One entry of 'sums' in [get_sum_statistics]. *)
Record sum_item := {
  item_issue : Z;
  red_sum : Z;
  item_blue : Z;
  total_sum : Z
}.

(** The labels of 'trend_direction': '稳定', '下降', '上升'. *)
Inductive direction := Steady | Downward | Upward.

Record statistics := {
  average : Q;
  minimum : Z;
  maximum : Z;
  range_counts : gmap string Z;
  recent_trend : list Z;
  trend_direction : direction
}.

Record sum_statistics := {
  sum_window : Z;
  sum_total_records : Z;
  sums : list sum_item;
  statistics_of : statistics
}.

(** The dictionary of [get_sum_statistics]: the one with the 'error' entry
    ('没有数据' when there is no draw, the text of the exception when the
    [try] block raises) or the statistics. *)
Inductive sum_result :=
| SumError (e : option exn)
| SumOk (s : sum_statistics).

(** Lines 115-123: the entry of one record. *)
Definition sum_item_of (record : DoubleBallRecord) : sum_item :=
  let red_sum := red1 record + red2 record + red3 record +
                 red4 record + red5 record + red6 record in
  {| item_issue := issue record;
     red_sum := red_sum;
     item_blue := blue record;
     total_sum := red_sum + blue record |}.

(** [min(l)] and [max(l)] on a non-empty list of ints. *)
Definition py_min_int (x : Z) (l : list Z) : Z := fold_left Z.min l x.
Definition py_max_int (x : Z) (l : list Z) : Z := fold_left Z.max l x.

(** The dictionary 'sum_ranges', in insertion order. *)
Definition sum_ranges (min_sum max_sum : Z) : list (string * (Z * Z)) :=
  [("low", (min_sum, 80)); ("medium_low", (81, 100)); ("medium", (101, 120));
   ("medium_high", (121, 140)); ("high", (141, max_sum))].

(** Lines 138-142: the first range that holds [value] is counted. *)
Definition count_value (sum_ranges : list (string * (Z * Z)))
    (range_counts : gmap string Z) (value : Z) : gmap string Z :=
  match find (fun r => (r.2.1 <=? value) && (value <=? r.2.2)) sum_ranges with
  | Some (range_name, _) => alter Z.succ range_name range_counts
  | None => range_counts
  end.

Definition get_sum_statistics (self : t) (window : option Z) : sum_result :=
  let window := default (default_window self) window in
  match DoubleBallDatabase.get_recent_records_or_raise (db self) window with
  | Raise e => SumError (Some e)
  | Ok records =>
  let sums := map sum_item_of records in
  match sums with
  | [] => SumError None
  | item :: items =>
      let sum_values := red_sum item :: map red_sum items in
      match py_truediv (inject_Z (py_sum sum_values))
                       (inject_Z (Z.of_nat (length sum_values))) with
      | Raise e => SumError (Some e)
      | Ok avg_sum =>
          let min_sum := py_min_int (red_sum item) (map red_sum items) in
          let max_sum := py_max_int (red_sum item) (map red_sum items) in
          let sum_ranges := sum_ranges min_sum max_sum in
          let range_counts :=
            fold_left (count_value sum_ranges) sum_values
              (fold_left (fun m r => <[r.1 := 0]> m) sum_ranges ∅) in
          let recent_trend :=
            map (fun i => default 0 (red_sum <$> sums !! Z.to_nat i))
                (py_range 0 (Z.min 5 (Z.of_nat (length sums)))) in
          let trend_direction :=
            if (2 <=? length recent_trend)%nat then
              if List.last recent_trend 0 <? hd 0 recent_trend then Downward
              else if hd 0 recent_trend <? List.last recent_trend 0 then Upward
              else Steady
            else Steady in
          SumOk {| sum_window := window;
                   sum_total_records := Z.of_nat (length records);
                   sums := sums;
                   statistics_of :=
                     {| average := avg_sum;
                        minimum := min_sum;
                        maximum := max_sum;
                        range_counts := range_counts;
                        recent_trend := recent_trend;
                        trend_direction := trend_direction |} |}
      end
  end
  end.

(** [_determine_ball_trend(percentages)] of the service. *)
Definition _determine_ball_trend (percentages : list float)
    : HotColdAnalyzer.ball_trend :=
  if (length percentages <? 2)%nat then HotColdAnalyzer.TrendInsufficient
  else
    let is_increasing := all_adjacent PrimFloat.leb percentages in
    let is_decreasing :=
      all_adjacent (fun a b => PrimFloat.leb b a) percentages in
    let max_diff :=
      match percentages with
      | [] => 0%float
      | p :: ps => (py_max p ps - py_min p ps)%float
      end in
    if is_increasing && (0.005 <? max_diff)%float
    then HotColdAnalyzer.Increasing
    else if is_decreasing && (0.005 <? max_diff)%float
    then HotColdAnalyzer.Decreasing
    else if (max_diff <=? 0.005)%float then HotColdAnalyzer.Stable
    else HotColdAnalyzer.Oscillating.

End AnalysisService.


(** ** Notions the properties are stated with *)

(** How many times [ball] was drawn as a main number in [records]. *)
Definition occurrences (ball : Z) (records : list DoubleBallRecord) : Z :=
  Z.of_nat (length (filter (λ b, b = ball) (records ≫= reds))).

(** What a result of [analyze] says about the draws, that is everything but
    the window label and the time stamp. *)
Definition classification (r : HotColdAnalyzer.result) :=
  (HotColdAnalyzer.hot r, HotColdAnalyzer.warm r, HotColdAnalyzer.cold r,
   HotColdAnalyzer.ball_status r, HotColdAnalyzer.red_counts r,
   HotColdAnalyzer.total_records r).


(** The numbers that received a verdict, group after group. *)
Definition verdict_balls (c : HotColdAnalyzer.consistency) : list Z :=
  HotColdAnalyzer.consistent_hot c ++ HotColdAnalyzer.consistent_warm c ++
  HotColdAnalyzer.consistent_cold c ++
  (HotColdAnalyzer.ball <$> HotColdAnalyzer.varying c).

(** The list of a tier in a result of [analyze]. *)
Definition tier_of (s : HotColdAnalyzer.heat) (r : HotColdAnalyzer.result)
    : list Z :=
  match s with
  | HotColdAnalyzer.Hot => HotColdAnalyzer.hot r
  | HotColdAnalyzer.Warm => HotColdAnalyzer.warm r
  | HotColdAnalyzer.Cold => HotColdAnalyzer.cold r
  end.

(** The group of the numbers that keep the tier [s] in every window. *)
Definition consistent_group (s : HotColdAnalyzer.heat)
    (c : HotColdAnalyzer.consistency) : list Z :=
  match s with
  | HotColdAnalyzer.Hot => HotColdAnalyzer.consistent_hot c
  | HotColdAnalyzer.Warm => HotColdAnalyzer.consistent_warm c
  | HotColdAnalyzer.Cold => HotColdAnalyzer.consistent_cold c
  end.

(** The pairs of a draw of a window and the next one, in order. *)
Definition draw_pairs (period_data : list DoubleBallRecord)
    : list (DoubleBallRecord * DoubleBallRecord) :=
  zip period_data (drop 1 period_data).

(** The main numbers that two draws have in common, each one once. *)
Definition shared_numbers (a b : DoubleBallRecord) : list Z :=
  filter (λ x, x ∈ reds b) (remove_dups (reds a)).

(** How many adjacent pairs of draws of a window share exactly [k] main
    numbers. *)
Definition pairs_sharing (k : Z) (period_data : list DoubleBallRecord) : Z :=
  Z.of_nat (length (filter (λ p, Z.of_nat (length (shared_numbers p.1 p.2)) = k)
                           (draw_pairs period_data))).

(** How many adjacent pairs of draws of a window have the same bonus
    number. *)
Definition pairs_same_blue (period_data : list DoubleBallRecord) : Z :=
  Z.of_nat (length (filter (λ p, blue p.1 = blue p.2)
                           (draw_pairs period_data))).

(** The adjacent pairs of draws of a window whose earlier draw has a main
    number in common with the current draw. *)
Definition similar_pairs (current_record : DoubleBallRecord)
    (period_data : list DoubleBallRecord)
    : list (DoubleBallRecord * DoubleBallRecord) :=
  filter (λ p, Exists (λ x, x ∈ reds p.1) (reds current_record))
         (draw_pairs period_data).

(** How many draws have main numbers whose sum satisfies [P]. *)
Definition sums_within (P : Z → Prop) `{∀ v, Decision (P v)}
    (records : list DoubleBallRecord) : Z :=
  Z.of_nat (length (filter (λ r, P (py_sum (reds r))) records)).

(** The calls that change the window configuration. *)
Inductive window_operation :=
| SetWindowConfig (config : gmap string Z)
| UpdateFromConfig (analysis : option WindowConfigManager.AnalysisConfig).

(** The configuration after one of these calls. *)
Definition run_window_operation (cls : WindowConfigManager.state)
    (op : window_operation) : WindowConfigManager.state :=
  match op with
  | SetWindowConfig config => WindowConfigManager.set_window_config cls config
  | UpdateFromConfig analysis =>
      WindowConfigManager.update_from_config cls analysis
  end.

(** What every reachable configuration satisfies: the three finite windows
    have a size, the all-history window has none, there is no other window,
    and the trend windows are the configured ones in order. *)
Definition window_config_consistent (cls : WindowConfigManager.state) : Prop :=
  (∀ name, name ∈ ["short_term"; "medium_term"; "long_term"] →
     ∃ v : Z, WindowConfigManager._WINDOW_CONFIG cls !! name = Some (Some v)) ∧
  WindowConfigManager._WINDOW_CONFIG cls !! "all_history" = Some None ∧
  (∀ name, name ∉ ["short_term"; "medium_term"; "long_term"; "all_history"] →
     WindowConfigManager._WINDOW_CONFIG cls !! name = None) ∧
  WindowConfigManager.get_trend_windows cls =
    [WindowConfigManager.get_window_by_name cls "short_term";
     WindowConfigManager.get_window_by_name cls "medium_term";
     WindowConfigManager.get_window_by_name cls "long_term"; None].

(** The sum of the probabilities of the buckets 0..6. *)
Definition distribution_sum (dist : gmap Z Q) : Q :=
  foldr Qplus 0%Q ((λ k, default 0%Q (dist !! k)) <$> py_range 0 7).

(** The floats that the code holds for the buckets 0..6: each is the
    binary64 float nearest to the probability of the bucket. *)
Definition distribution_floats (dist : gmap Z Q) : list Q :=
  (λ k, binary64_nearest (default 0%Q (dist !! k))) <$> py_range 0 7.

(** [sum(l)] on floats: the additions are made from left to right and each
    one is rounded. *)
Definition float_sum (l : list Q) : Q :=
  fold_left (λ acc x, binary64_nearest (acc + x)) l 0%Q.

(** Sample data: three draws, newest first, and an analyzer whose cache is
    empty. *)
Definition draw (i a b c d e f bl : Z) : DoubleBallRecord :=
  {| issue := i; red1 := a; red2 := b; red3 := c; red4 := d; red5 := e;
     red6 := f; blue := bl |}.

Definition sample_draws : list DoubleBallRecord :=
  [draw 3 1 2 3 4 5 6 1; draw 2 4 5 6 7 8 9 1; draw 1 7 8 9 10 11 12 2].

Definition other_draws : list DoubleBallRecord :=
  [draw 6 20 21 22 23 24 25 3; draw 5 20 21 22 26 27 28 4].

Definition cold_analyzer : HotColdAnalyzer.t :=
  {| HotColdAnalyzer.db := None;
     HotColdAnalyzer._cached_results := ∅;
     HotColdAnalyzer._cache_ttl := 300;
     HotColdAnalyzer.short_term_window := 30 |}.


(** An analyzer reading the sample draws from its storage, and the same
    analyzer after the storage has received new draws (the storage object is
    shared and mutable, the analyzer only holds a handle to it). *)
Definition stored_analyzer : HotColdAnalyzer.t :=
  {| HotColdAnalyzer.db := Some {| DoubleBallDatabase.rows := sample_draws |};
     HotColdAnalyzer._cached_results := ∅;
     HotColdAnalyzer._cache_ttl := 300;
     HotColdAnalyzer.short_term_window := 30 |}.

Definition storage_updated (self : HotColdAnalyzer.t)
    (rows : list DoubleBallRecord) : HotColdAnalyzer.t :=
  {| HotColdAnalyzer.db := Some {| DoubleBallDatabase.rows := rows |};
     HotColdAnalyzer._cached_results := HotColdAnalyzer._cached_results self;
     HotColdAnalyzer._cache_ttl := HotColdAnalyzer._cache_ttl self;
     HotColdAnalyzer.short_term_window :=
       HotColdAnalyzer.short_term_window self |}.

(** Two windows for the consistency analysis; the second one has no
    classification. *)
Definition sample_windows : list HotColdAnalyzer.window_data :=
  [ {| HotColdAnalyzer.w_window := 30; HotColdAnalyzer.w_hot := [1; 2];
       HotColdAnalyzer.w_warm := [3]; HotColdAnalyzer.w_cold := [];
       HotColdAnalyzer.w_total_records := 3 |};
    {| HotColdAnalyzer.w_window := 50; HotColdAnalyzer.w_hot := [];
       HotColdAnalyzer.w_warm := []; HotColdAnalyzer.w_cold := [];
       HotColdAnalyzer.w_total_records := 0 |} ].

(** A probability analyzer over the sample draws, configured as the source
    does at start-up, and one whose short window holds a single draw. *)
Definition sample_probability_analyzer : ProbabilityAnalyzer.t :=
  ProbabilityAnalyzer.init {| DoubleBallDatabase.rows := sample_draws |} true
    WindowConfigManager.initial.

Definition one_draw_window_analyzer : ProbabilityAnalyzer.t :=
  {| ProbabilityAnalyzer.db := {| DoubleBallDatabase.rows := sample_draws |};
     ProbabilityAnalyzer.window_config :=
       <["short_term" := Some 1]> (<["all_history" := None]> ∅) |}.


(** The entry the loop over the window group records for a window: the
    statistics of its draws when it is configured and has at least two draws,
    no entry otherwise. *)
Definition window_outcome (self : ProbabilityAnalyzer.t)
    (current_record : DoubleBallRecord) (all_records : list DoubleBallRecord)
    (total_records : Z) (window_name : string)
    : option ProbabilityAnalyzer.window_stats :=
  match ProbabilityAnalyzer.window_config self !! window_name with
  | None => None
  | Some limit =>
      let period_data :=
        ProbabilityAnalyzer.window_period_data limit window_name all_records
          total_records in
      if (length period_data <? 2)%nat then None
      else match ProbabilityAnalyzer._calculate_window_repeat_stats self
                   window_name current_record period_data with
           | Ok stats => Some stats
           | Raise _ => None
           end
  end.


(** Every element of [l] stands in the relation [R] to the next one. *)
Definition consecutive (R : float → float → Prop) (l : list float) : Prop :=
  ∀ i a b, l !! i = Some a → l !! S i = Some b → R a b.

(** The comparisons are those of binary64. *)
Definition nondecreasing (l : list float) : Prop :=
  consecutive (λ a b, (a <=? b)%float = true) l.
Definition nonincreasing (l : list float) : Prop :=
  consecutive (λ a b, (b <=? a)%float = true) l.

(** The trend classification in the words of the design document, for a
    sequence of percentages of any length. *)
Definition spec_ball_trend (percentages : list float)
    : HotColdAnalyzer.ball_trend :=
  let spread :=
    match percentages with
    | [] => 0%float
    | p :: ps => (py_max p ps - py_min p ps)%float
    end in
  if all_adjacent PrimFloat.leb percentages && (0.05 <? spread)%float
  then HotColdAnalyzer.Increasing
  else if all_adjacent (λ a b, PrimFloat.leb b a) percentages
          && (0.05 <? spread)%float
  then HotColdAnalyzer.Decreasing
  else if (spread <=? 0.03)%float then HotColdAnalyzer.Stable
  else HotColdAnalyzer.Oscillating.

(** A history of 31 draws, issues 1 to 31, in storage order. *)
Definition history_31 : DoubleBallDatabase.t :=
  {| DoubleBallDatabase.rows := (λ i, draw i 1 2 3 4 5 6 1) <$> py_range 1 32 |}.

(** The state of [WindowConfigManager] once the module is imported: the
    class attributes, synchronised with the defaults of [config.analysis]. *)
Definition window_config_at_startup : WindowConfigManager.state :=
  WindowConfigManager.update_from_config WindowConfigManager.initial
    (Some {| WindowConfigManager.SHORT_TERM_WINDOW := Some 30;
             WindowConfigManager.MEDIUM_TERM_WINDOW := Some 50;
             WindowConfigManager.LONG_TERM_WINDOW := Some 100 |}).


(** * Properties *)

(** ** Facts about the runtime helpers *)

Section SortedFacts.
Context {A : Type} (leb : A → A → bool).

Lemma py_insert_perm (x : A) (l : list A) : py_insert leb x l ≡ₚ x :: l.
Proof.
  induction l as [|y l IH]; simpl; [done|].
  destruct (leb x y); [done|].
  rewrite IH. apply perm_swap.
Qed.

Lemma py_sorted_perm (l : list A) : py_sorted leb l ≡ₚ l.
Proof.
  induction l as [|x l IH]; simpl; [done|].
  by rewrite py_insert_perm, IH.
Qed.

Lemma py_sorted_length (l : list A) : length (py_sorted leb l) = length l.
Proof. apply Permutation_length, py_sorted_perm. Qed.

Hypothesis leb_total : ∀ x y, leb x y = true ∨ leb y x = true.
Hypothesis leb_trans : ∀ x y z, leb x y = true → leb y z = true → leb x z = true.

Lemma py_insert_sorted (x : A) (l : list A) :
  StronglySorted (λ a b, leb a b = true) l →
  StronglySorted (λ a b, leb a b = true) (py_insert leb x l).
Proof using leb_total leb_trans.
  induction 1 as [|y l Hl IH Hy]; simpl.
  - repeat constructor.
  - destruct (leb x y) eqn:Hxy.
    + constructor; [by constructor|].
      constructor; [done|].
      eapply Forall_impl; [exact Hy|]. intros z Hz. by eapply leb_trans.
    + constructor; [done|].
      rewrite py_insert_perm. constructor; [|done].
      destruct (leb_total x y); congruence.
Qed.

Lemma py_sorted_sorted (l : list A) :
  StronglySorted (λ a b, leb a b = true) (py_sorted leb l).
Proof using leb_total leb_trans.
  induction l; simpl; [constructor|by apply py_insert_sorted].
Qed.
End SortedFacts.

Lemma StronglySorted_lookup_lt {A} (R : A → A → Prop) (l : list A) i j x y :
  StronglySorted R l → l !! i = Some x → l !! j = Some y → (i < j)%nat → R x y.
Proof.
  intros Hs. revert i j. induction Hs as [|a l Hs IH Ha]; intros i j Hi Hj Hlt.
  - by rewrite lookup_nil in Hi.
  - destruct j as [|j]; [lia|]. destruct i as [|i]; simpl in *.
    + injection Hi as ->. rewrite Forall_forall in Ha.
      apply Ha, list_elem_of_lookup. eauto.
    + eapply IH; eauto. lia.
Qed.

(** ** The order of binary64 floats *)

Lemma SFcompare_rank (f1 f2 : spec_float) :
  SFcompare f1 f2 =
  match SFrank f1, SFrank f2 with
  | Some r1, Some r2 => Some (lex3 r1 r2)
  | _, _ => None
  end.
Proof.
  destruct f1 as [s1|s1| |s1 m1 e1], f2 as [s2|s2| |s2 m2 e2];
    try destruct s1; try destruct s2; try reflexivity.
  cbn [SFcompare SFrank]. unfold lex3. cbn [fst snd].
    rewrite !Z.compare_opp.
    change (-1 ?= -1) with Eq. cbv iota.
    rewrite (Z.compare_antisym e1 e2).
    destruct (e1 ?= e2); cbn [CompOpp]; try reflexivity.
    change (Z.pos m2 ?= Z.pos m1) with (Pos.compare m2 m1).
    rewrite (Pos.compare_antisym m1 m2). reflexivity.
Qed.

Lemma lex3_refl (a : Z * Z * Z) : lex3 a a = Eq.
Proof. destruct a as [[x y] z]. unfold lex3; cbn [fst snd]. by rewrite !Z.compare_refl. Qed.

Lemma lex3_antisym (a b : Z * Z * Z) : lex3 b a = CompOpp (lex3 a b).
Proof.
  destruct a as [[x y] z], b as [[x' y'] z']. unfold lex3; cbn [fst snd].
  rewrite (Z.compare_antisym x x'), (Z.compare_antisym y y'),
    (Z.compare_antisym z z').
  destruct (x ?= x'), (y ?= y'), (z ?= z'); reflexivity.
Qed.

Lemma lex3_eq (a b : Z * Z * Z) : lex3 a b = Eq → a = b.
Proof.
  destruct a as [[x y] z], b as [[x' y'] z']. unfold lex3; cbn [fst snd].
  destruct (Z.compare_spec x x'), (Z.compare_spec y y'),
    (Z.compare_spec z z'); intros; try discriminate; congruence.
Qed.

Lemma lex3_Lt (x y z x' y' z' : Z) :
  lex3 (x, y, z) (x', y', z') = Lt ↔
  x < x' ∨ (x = x' ∧ (y < y' ∨ (y = y' ∧ z < z'))).
Proof.
  unfold lex3; cbn [fst snd].
  destruct (Z.compare_spec x x'), (Z.compare_spec y y'),
    (Z.compare_spec z z'); split; intros; try done; lia.
Qed.

Lemma lex3_not_Gt (x y z x' y' z' : Z) :
  lex3 (x, y, z) (x', y', z') ≠ Gt ↔
  x < x' ∨ (x = x' ∧ (y < y' ∨ (y = y' ∧ z <= z'))).
Proof.
  unfold lex3; cbn [fst snd].
  destruct (Z.compare_spec x x'), (Z.compare_spec y y'),
    (Z.compare_spec z z'); split; intros; try done; lia.
Qed.

Lemma lex3_le_trans (a b c : Z * Z * Z) :
  lex3 a b ≠ Gt → lex3 b c ≠ Gt → lex3 a c ≠ Gt.
Proof.
  destruct a as [[x y] z], b as [[x' y'] z'], c as [[x'' y''] z''].
  rewrite !lex3_not_Gt. lia.
Qed.

Lemma lex3_lt_le_trans (a b c : Z * Z * Z) :
  lex3 a b = Lt → lex3 b c ≠ Gt → lex3 a c = Lt.
Proof.
  destruct a as [[x y] z], b as [[x' y'] z'], c as [[x'' y''] z''].
  rewrite !lex3_not_Gt, !lex3_Lt. lia.
Qed.

Lemma lex3_le_lt_trans (a b c : Z * Z * Z) :
  lex3 a b ≠ Gt → lex3 b c = Lt → lex3 a c = Lt.
Proof.
  destruct a as [[x y] z], b as [[x' y'] z'], c as [[x'' y''] z''].
  rewrite !lex3_not_Gt, !lex3_Lt. lia.
Qed.

Lemma not_nan_rank (x : float) :
  not_nan x ↔ is_Some (SFrank (Prim2SF x)).
Proof.
  unfold not_nan, PrimFloat.is_nan. rewrite FloatAxioms.eqb_spec.
  unfold SFeqb. rewrite SFcompare_rank.
  destruct (SFrank (Prim2SF x)) as [r|].
  - rewrite lex3_refl. split; [by eexists|done].
  - split; [done|]. by intros [? ?].
Qed.

Lemma float_ltb_rank (x y : float) :
  (x <? y)%float = true ↔
  ∃ r1 r2, SFrank (Prim2SF x) = Some r1 ∧ SFrank (Prim2SF y) = Some r2 ∧
           lex3 r1 r2 = Lt.
Proof.
  rewrite FloatAxioms.ltb_spec. unfold SFltb. rewrite SFcompare_rank.
  destruct (SFrank (Prim2SF x)) as [r1|], (SFrank (Prim2SF y)) as [r2|];
    try (split; [done|by intros (? & ? & ? & ? & ?)]).
  split.
  - intros H. exists r1, r2. split_and!; try done. by destruct (lex3 r1 r2).
  - intros (? & ? & [= <-] & [= <-] & ->). done.
Qed.

Lemma float_leb_rank (x y : float) :
  (x <=? y)%float = true ↔
  ∃ r1 r2, SFrank (Prim2SF x) = Some r1 ∧ SFrank (Prim2SF y) = Some r2 ∧
           lex3 r1 r2 ≠ Gt.
Proof.
  rewrite FloatAxioms.leb_spec. unfold SFleb. rewrite SFcompare_rank.
  destruct (SFrank (Prim2SF x)) as [r1|], (SFrank (Prim2SF y)) as [r2|];
    try (split; [done|by intros (? & ? & ? & ? & ?)]).
  split.
  - intros H. exists r1, r2. split_and!; try done. by destruct (lex3 r1 r2).
  - intros (? & ? & [= <-] & [= <-] & H). by destruct (lex3 r1 r2).
Qed.

Lemma float_leb_not_nan (x y : float) :
  (x <=? y)%float = true → not_nan x ∧ not_nan y.
Proof.
  intros (r1 & r2 & H1 & H2 & _)%float_leb_rank.
  rewrite !not_nan_rank, H1, H2. by split; eexists.
Qed.

Lemma float_leb_refl (x : float) : not_nan x → (x <=? x)%float = true.
Proof.
  intros [r Hr]%not_nan_rank. apply float_leb_rank. exists r, r.
  split_and!; try done. by rewrite lex3_refl.
Qed.

Lemma float_leb_trans (x y z : float) :
  (x <=? y)%float = true → (y <=? z)%float = true → (x <=? z)%float = true.
Proof.
  intros (r1 & r2 & H1 & H2 & H12)%float_leb_rank (r2' & r3 & H2' & H3 & H23)%float_leb_rank.
  assert (r2' = r2) as -> by congruence.
  apply float_leb_rank. exists r1, r3. split_and!; try done.
  by apply (lex3_le_trans r1 r2 r3).
Qed.

Lemma float_ltb_leb (x y : float) :
  (x <? y)%float = true → (x <=? y)%float = true.
Proof.
  intros (r1 & r2 & H1 & H2 & H12)%float_ltb_rank.
  apply float_leb_rank. exists r1, r2. split_and!; try done. by rewrite H12.
Qed.

Lemma float_ltb_false_leb (x y : float) :
  not_nan x → not_nan y → (x <? y)%float = false → (y <=? x)%float = true.
Proof.
  intros [r1 H1]%not_nan_rank [r2 H2]%not_nan_rank Hlt.
  apply float_leb_rank. exists r2, r1. split_and!; try done.
  rewrite lex3_antisym. intros Hgt.
  assert ((x <? y)%float = true) as Hlt'; [|congruence].
  apply float_ltb_rank. exists r1, r2. split_and!; try done.
  by destruct (lex3 r1 r2).
Qed.

Lemma float_ltb_leb_trans (x y z : float) :
  (x <? y)%float = true → (y <=? z)%float = true → (x <? z)%float = true.
Proof.
  intros (r1 & r2 & H1 & H2 & H12)%float_ltb_rank (r2' & r3 & H2' & H3 & H23)%float_leb_rank.
  assert (r2' = r2) as -> by congruence.
  apply float_ltb_rank. exists r1, r3. split_and!; try done.
  by apply (lex3_lt_le_trans r1 r2 r3).
Qed.

Lemma float_leb_ltb_trans (x y z : float) :
  (x <=? y)%float = true → (y <? z)%float = true → (x <? z)%float = true.
Proof.
  intros (r1 & r2 & H1 & H2 & H12)%float_leb_rank (r2' & r3 & H2' & H3 & H23)%float_ltb_rank.
  assert (r2' = r2) as -> by congruence.
  apply float_ltb_rank. exists r1, r3. split_and!; try done.
  by apply (lex3_le_lt_trans r1 r2 r3).
Qed.

Lemma float_ltb_irrefl (x : float) : (x <? x)%float = false.
Proof.
  destruct (x <? x)%float eqn:H; [|done].
  apply float_ltb_rank in H as (r1 & r2 & H1 & H2 & H12).
  assert (r2 = r1) as -> by congruence. by rewrite lex3_refl in H12.
Qed.

(** Two floats that compare as equal: their difference is a zero or, for
    two infinities, a NaN; no positive float lies below it. *)
Lemma sub_equal_not_above (x y c : float) :
  (x <=? y)%float = true → (y <=? x)%float = true →
  (zero <=? c)%float = true →
  (c <? x - y)%float = false.
Proof.
  intros (r1 & r2 & H1 & H2 & H12)%float_leb_rank (r2' & r1' & H2' & H1' & H21)%float_leb_rank
    Hc.
  assert (r2' = r2) as -> by congruence.
  assert (r1' = r1) as -> by congruence.
  assert (r1 = r2) as ->.
  { apply lex3_eq. rewrite lex3_antisym in H21.
    destruct (lex3 r1 r2); try done. }
  assert (Prim2SF (x - y) = S754_nan ∨ ∃ s, Prim2SF (x - y) = S754_zero s)
    as Hsub.
  { rewrite FloatAxioms.sub_spec. unfold SF64sub.
    destruct (Prim2SF x) as [s1|s1| |s1 m1 e1],
             (Prim2SF y) as [s2|s2| |s2 m2 e2];
      try destruct s1; try destruct s2; try discriminate;
      cbn [SFrank] in H1, H2; try congruence;
      try (by left); try (right; by eexists).
    - assert (e1 = e2 ∧ m1 = m2) as [-> ->].
      { rewrite <- H2 in H1. injection H1 as He Hm. split; lia. }
      right. cbn [SFsub]. rewrite Z.min_id. unfold shl_align.
      rewrite Z.sub_diag. cbn [fst cond_Zopp]. rewrite ?Z.sub_diag.
      by eexists.
    - assert (e1 = e2 ∧ m1 = m2) as [-> ->].
      { rewrite <- H2 in H1. injection H1 as He Hm. split; lia. }
      right. cbn [SFsub]. rewrite Z.min_id. unfold shl_align.
      rewrite Z.sub_diag. cbn [fst cond_Zopp]. rewrite ?Z.sub_diag.
      by eexists. }
  destruct (c <? x - y)%float eqn:Hlt; [|done].
  apply float_ltb_rank in Hlt as (rc & rd & Hrc & Hrd & Hlt).
  apply float_leb_rank in Hc as (r0 & rc' & H0 & Hrc' & Hle).
  assert (rc' = rc) as -> by congruence.
  assert (r0 = (0, 0, 0)) as -> by (vm_compute in H0; congruence).
  destruct Hsub as [Hnan|[s Hzero]].
  - rewrite Hnan in Hrd. done.
  - rewrite Hzero in Hrd. cbn in Hrd. injection Hrd as <-.
    destruct rc as [[a b] c']. apply lex3_Lt in Hlt. apply lex3_not_Gt in Hle.
    lia.
Qed.

(** ** Rounding to binary64 *)

Lemma Qpower2_pos (e : Z) : (0 < 2 ^ e)%Q.
Proof. by apply Qpower_0_lt. Qed.

Lemma floor_log2_le (q : Q) : (0 < q)%Q → (2 ^ floor_log2 q <= q)%Q.
Proof.
  intros Hq. unfold floor_log2.
  set (a := Z.log2 (Qnum q)). set (b := Z.log2 (Z.pos (Qden q))).
  destruct (Qle_bool (2 ^ (a - b)) q) eqn:Hle; [by apply Qle_bool_iff|].
  assert (0 < Qnum q) as Hn.
  { destruct q as [n d]. unfold Qlt in Hq. simpl in *. lia. }
  assert (0 <= a) as Ha by apply Z.log2_nonneg.
  assert (0 <= b) as Hb by apply Z.log2_nonneg.
  destruct (Z.log2_spec (Qnum q) Hn) as [Hn1 _]. fold a in Hn1.
  destruct (Z.log2_spec (Z.pos (Qden q)) ltac:(lia)) as [_ Hd2]. fold b in Hd2.
  replace (a - b - 1) with (a - (b + 1)) by lia.
  rewrite Qpower_minus by done.
  rewrite <- (Zpower_Qpower 2 a), <- (Zpower_Qpower 2 (b + 1)) by lia.
  assert (0 < 2 ^ (b + 1)) as HB by (apply Z.pow_pos_nonneg; lia).
  apply Qle_shift_div_r.
  { change 0%Q with (inject_Z 0). rewrite <- Zlt_Qlt. done. }
  replace (Z.succ b) with (b + 1) in Hd2 by lia.
  destruct q as [n d]. unfold Qle, Qmult, inject_Z. simpl in *. nia.
Qed.

Lemma round_half_even_error (x : Q) :
  (Qabs (inject_Z (round_half_even x) - x) <= 1 # 2)%Q.
Proof.
  unfold round_half_even.
  pose proof (Qfloor_le x) as Hlo. pose proof (Qlt_floor x) as Hhi.
  rewrite inject_Z_plus in Hhi. change (inject_Z 1) with 1%Q in Hhi.
  set (f := Qfloor x) in *. apply Qabs_Qle_condition.
  destruct (Qcompare_spec (x - inject_Z f) (1 # 2)) as [Heq|Hlt|Hgt].
  - destruct (Z.even f).
    + split; lra.
    + rewrite inject_Z_plus. change (inject_Z 1) with 1%Q. split; lra.
  - split; lra.
  - rewrite inject_Z_plus. change (inject_Z 1) with 1%Q. split; lra.
Qed.

Lemma binary64_nearest_error (q : Q) :
  ¬ (q == 0)%Q →
  (Qabs (binary64_nearest q - q) <=
   2 ^ (Z.max (floor_log2 (Qabs q)) (-1022) - 52) * (1 # 2))%Q.
Proof.
  intros Hq. unfold binary64_nearest.
  destruct (Qeq_bool q 0) eqn:Hz; [by apply Qeq_bool_iff in Hz|].
  set (u := (2 ^ (Z.max (floor_log2 (Qabs q)) (-1022) - 52))%Q).
  assert (0 < u)%Q as Hu by apply Qpower2_pos.
  assert (inject_Z (round_half_even (q / u)) * u - q ==
          (inject_Z (round_half_even (q / u)) - q / u) * u)%Q as ->.
  { field. lra. }
  rewrite Qabs_Qmult, (Qabs_pos u) by lra.
  rewrite (Qmult_comm u). apply Qmult_le_compat_r; [|lra].
  apply round_half_even_error.
Qed.

(** A rational of magnitude at most [2^k] and the float nearest to it differ
    by at most [2^(k-53)]. *)
Lemma binary64_nearest_within (q : Q) (k : Z) :
  -1022 <= k → (Qabs q <= 2 ^ k)%Q →
  (Qabs (binary64_nearest q - q) <= 2 ^ (k - 53))%Q.
Proof.
  intros Hk Hle.
  destruct (Qeq_dec q 0) as [Hz|Hnz].
  { unfold binary64_nearest.
    rewrite (proj2 (Qeq_bool_iff q 0) Hz).
    assert (0 - q == 0)%Q as -> by lra.
    apply Qlt_le_weak, Qpower2_pos. }
  eapply Qle_trans; [by apply binary64_nearest_error|].
  assert (0 < Qabs q)%Q as Hpos.
  { pose proof (Qabs_nonneg q) as Hn. apply Qle_lteq in Hn as [?|Heq]; [done|].
    exfalso. apply Hnz. symmetry in Heq. revert Heq.
    apply Qabs_case; intros; lra. }
  pose proof (floor_log2_le (Qabs q) Hpos) as Hfl.
  assert (floor_log2 (Qabs q) <= k) as Hflk.
  { apply (Qpower_le_compat_l_inv 2); [|reflexivity]. lra. }
  replace (k - 53) with ((k - 52) + (-1)) by lia.
  rewrite (Qpower_plus 2 (k - 52) (-1)) by done.
  change (2 ^ (-1))%Q with (1 # 2)%Q.
  apply Qmult_le_compat_r; [|done].
  apply Qpower_le_compat_l; [lia|done].
Qed.

Lemma Qsum_within (eps : Q) (l1 l2 : list Q) :
  Forall2 (λ a b, (Qabs (a - b) <= eps)%Q) l1 l2 →
  (Qabs (foldr Qplus 0 l1 - foldr Qplus 0 l2) <=
   inject_Z (Z.of_nat (length l1)) * eps)%Q.
Proof.
  induction 1 as [|a b l1 l2 Hab Hl IH]; cbn [foldr length].
  - unfold Qle. simpl. lia.
  - rewrite Nat2Z.inj_succ, <- Z.add_1_r, inject_Z_plus.
    change (inject_Z 1) with 1%Q.
    apply Qabs_Qle_condition in Hab, IH. apply Qabs_Qle_condition.
    split; lra.
Qed.

Lemma floor_log2_lt (q : Q) : (0 < q)%Q → (q < 2 ^ (floor_log2 q + 1))%Q.
Proof.
  intros Hq. unfold floor_log2.
  set (a := Z.log2 (Qnum q)). set (b := Z.log2 (Z.pos (Qden q))).
  destruct (Qle_bool (2 ^ (a - b)) q) eqn:Hle.
  - assert (0 < Qnum q) as Hn.
    { destruct q as [n d]. unfold Qlt in Hq. simpl in *. lia. }
    assert (0 <= a) as Ha by apply Z.log2_nonneg.
    assert (0 <= b) as Hb by apply Z.log2_nonneg.
    destruct (Z.log2_spec (Qnum q) Hn) as [_ Hn2]. fold a in Hn2.
    destruct (Z.log2_spec (Z.pos (Qden q)) ltac:(lia)) as [Hd1 _]. fold b in Hd1.
    replace (a - b + 1) with ((a + 1) - b) by lia.
    rewrite Qpower_minus by done.
    rewrite <- (Zpower_Qpower 2 (a + 1)), <- (Zpower_Qpower 2 b) by lia.
    assert (0 < 2 ^ b) as HB by (apply Z.pow_pos_nonneg; lia).
    apply Qlt_shift_div_l.
    { change 0%Q with (inject_Z 0). rewrite <- Zlt_Qlt. done. }
    replace (Z.succ a) with (a + 1) in Hn2 by lia.
    destruct q as [n d]. unfold Qlt, Qmult, inject_Z. simpl in *. nia.
  - replace (a - b - 1 + 1) with (a - b) by lia.
    apply Qnot_le_lt. rewrite <- Qle_bool_iff. congruence.
Qed.

(** On concrete quotients [binary64_nearest] is the float that the kernel's
    binary64 division returns. *)
Example binary64_nearest_is_the_float :
  forallb
    (λ ab : Z * Z,
       match float_value (PrimFloat.of_uint63 (Uint63.of_Z ab.1) /
                          PrimFloat.of_uint63 (Uint63.of_Z ab.2))%float with
       | Some v => Qeq_bool v (binary64_nearest (ab.1 # Z.to_pos ab.2))
       | None => false
       end)
    [(1, 3); (2, 3); (53, 100); (15, 30); (3, 100); (5, 100); (5, 1000);
     (2, 100); (1, 10); (7, 10); (65, 100); (18, 30); (13, 25); (101, 200);
     (1, 1); (6, 1); (1, 1000000007); (999999999, 1000000000);
     (4503599627370497, 4503599627370496);
     (9007199254740991, 9007199254740992)] = true.
Proof. vm_compute. reflexivity. Qed.

(** ** The order of the ranking *)

Lemma key_leb_total x y :
  HotColdAnalyzer.key_leb x y = true ∨ HotColdAnalyzer.key_leb y x = true.
Proof. unfold HotColdAnalyzer.key_leb. destruct x, y; simpl. lia. Qed.

Lemma key_leb_trans x y z :
  HotColdAnalyzer.key_leb x y = true → HotColdAnalyzer.key_leb y z = true →
  HotColdAnalyzer.key_leb x z = true.
Proof. unfold HotColdAnalyzer.key_leb. destruct x, y, z; simpl. lia. Qed.

Lemma key_leb_spec b1 c1 b2 c2 :
  HotColdAnalyzer.key_leb (b1, c1) (b2, c2) = true ↔
  c2 < c1 ∨ (c1 = c2 ∧ b1 <= b2).
Proof. unfold HotColdAnalyzer.key_leb; simpl. lia. Qed.

(** ** The ranking of the heat classifier *)



(** ** Counters *)

Lemma counter_mem_keys (ball : Z) (c : list (Z * Z)) :
  counter_mem ball c = true ↔ ball ∈ c.*1.
Proof.
  induction c as [|[k v] c IH]; simpl.
  - split; [done|]. by intros ?%elem_of_nil.
  - rewrite elem_of_cons, orb_true_iff, IH, Z.eqb_eq. intuition congruence.
Qed.

Lemma counter_incr_keys (ball k : Z) (c : list (Z * Z)) :
  k ∈ (counter_incr ball c).*1 ↔ k = ball ∨ k ∈ c.*1.
Proof.
  induction c as [|[k' v] c IH]; simpl.
  - rewrite list_elem_of_singleton. set_solver.
  - destruct (Z.eqb_spec k' ball) as [->|Hne]; simpl.
    + set_solver.
    + rewrite !elem_of_cons, IH. naive_solver.
Qed.

Lemma counter_incr_NoDup (ball : Z) (c : list (Z * Z)) :
  NoDup c.*1 → NoDup (counter_incr ball c).*1.
Proof.
  induction c as [|[k v] c IH]; simpl; intros Hnd.
  - apply NoDup_singleton.
  - apply NoDup_cons in Hnd as [Hk Hnd].
    destruct (Z.eqb_spec k ball) as [->|Hne]; simpl.
    + by apply NoDup_cons.
    + apply NoDup_cons. split; [|by apply IH].
      rewrite counter_incr_keys. naive_solver.
Qed.

Lemma counter_get_incr (ball k : Z) (c : list (Z * Z)) :
  counter_get k (counter_incr ball c) =
  counter_get k c + (if decide (ball = k) then 1 else 0).
Proof.
  induction c as [|[k' v] c IH]; simpl.
  - destruct (Z.eqb_spec ball k); case_decide; lia.
  - destruct (Z.eqb_spec k' ball) as [->|Hne]; simpl.
    + destruct (Z.eqb_spec ball k); case_decide; lia.
    + destruct (Z.eqb_spec k' k); [|done]. case_decide; lia.
Qed.

Lemma counter_get_absent (k : Z) (c : list (Z * Z)) :
  k ∉ c.*1 → counter_get k c = 0.
Proof.
  induction c as [|[k' v] c IH]; simpl; [done|].
  rewrite not_elem_of_cons. intros [Hne Hk].
  destruct (Z.eqb_spec k' k); [congruence|auto].
Qed.

Lemma counter_get_app_zero (k ball : Z) (c : list (Z * Z)) :
  counter_get k (c ++ [(ball, 0)]) = counter_get k c.
Proof.
  induction c as [|[k' v] c IH]; simpl.
  - by destruct (ball =? k).
  - by destruct (k' =? k).
Qed.

(** Counting a list of balls into a counter. *)
Lemma count_balls_keys (balls : list Z) (c : list (Z * Z)) (k : Z) :
  k ∈ (fold_left (λ c ball, counter_incr ball c) balls c).*1 ↔
  k ∈ balls ∨ k ∈ c.*1.
Proof.
  revert c. induction balls as [|b balls IH]; intros c; simpl.
  - set_solver.
  - rewrite IH, counter_incr_keys, elem_of_cons. naive_solver.
Qed.

Lemma count_balls_NoDup (balls : list Z) (c : list (Z * Z)) :
  NoDup c.*1 → NoDup (fold_left (λ c ball, counter_incr ball c) balls c).*1.
Proof.
  revert c. induction balls as [|b balls IH]; intros c Hnd; simpl; [done|].
  by apply IH, counter_incr_NoDup.
Qed.

Lemma count_balls_get (balls : list Z) (c : list (Z * Z)) (k : Z) :
  counter_get k (fold_left (λ c ball, counter_incr ball c) balls c) =
  counter_get k c + Z.of_nat (length (filter (λ b, b = k) balls)).
Proof.
  revert c. induction balls as [|b balls IH]; intros c; simpl.
  - lia.
  - rewrite IH, counter_get_incr, filter_cons.
    repeat case_decide; simpl; lia.
Qed.

Lemma count_records_flat (records : list DoubleBallRecord) (c : list (Z * Z)) :
  fold_left HotColdAnalyzer.count_record records c =
  fold_left (λ c ball, counter_incr ball c) (records ≫= reds) c.
Proof.
  revert c. induction records as [|r records IH]; intros c; [done|].
  cbn [fold_left]. rewrite IH. unfold HotColdAnalyzer.count_record.
  rewrite bind_cons, fold_left_app. done.
Qed.

Lemma elem_of_py_range (lo hi k : Z) : k ∈ py_range lo hi ↔ lo <= k < hi.
Proof.
  unfold py_range. rewrite list_elem_of_fmap. split.
  - intros (i & -> & Hi%elem_of_seq). lia.
  - intros Hk. exists (Z.to_nat (k - lo)). split; [lia|].
    apply elem_of_seq. lia.
Qed.

Lemma NoDup_py_range (lo hi : Z) : NoDup (py_range lo hi).
Proof.
  unfold py_range. apply NoDup_fmap_2; [|apply NoDup_seq].
  intros i j. lia.
Qed.

Lemma length_py_range (lo hi : Z) : length (py_range lo hi) = Z.to_nat (hi - lo).
Proof. unfold py_range. by rewrite length_map, length_seq. Qed.

Section ZeroFill.
Let fill (balls : list Z) (c : list (Z * Z)) : list (Z * Z) :=
  fold_left (λ c ball, if counter_mem ball c then c else c ++ [(ball, 0)])
            balls c.

Lemma fill_keys (balls : list Z) (c : list (Z * Z)) (k : Z) :
  k ∈ (fill balls c).*1 ↔ k ∈ c.*1 ∨ k ∈ balls.
Proof.
  revert c. induction balls as [|b balls IH]; intros c; simpl.
  - set_solver.
  - rewrite IH, elem_of_cons. destruct (counter_mem b c) eqn:Hb.
    + apply counter_mem_keys in Hb. naive_solver.
    + rewrite fmap_app, elem_of_app; simpl. rewrite list_elem_of_singleton.
      naive_solver.
Qed.

Lemma fill_NoDup (balls : list Z) (c : list (Z * Z)) :
  NoDup c.*1 → NoDup (fill balls c).*1.
Proof.
  revert c. induction balls as [|b balls IH]; intros c Hnd; simpl; [done|].
  apply IH. destruct (counter_mem b c) eqn:Hb; [done|].
  rewrite fmap_app. apply NoDup_app. split_and!; [done| |apply NoDup_singleton].
  intros k Hk ->%list_elem_of_singleton.
  apply counter_mem_keys in Hk. simpl in Hk. congruence.
Qed.

Lemma fill_get (balls : list Z) (c : list (Z * Z)) (k : Z) :
  counter_get k (fill balls c) = counter_get k c.
Proof.
  revert c. induction balls as [|b balls IH]; intros c; simpl; [done|].
  rewrite IH. destruct (counter_mem b c); [done|apply counter_get_app_zero].
Qed.
End ZeroFill.

Lemma count_red_balls_NoDup (records : list DoubleBallRecord) :
  NoDup (HotColdAnalyzer._count_red_balls records).*1.
Proof.
  unfold HotColdAnalyzer._count_red_balls, HotColdAnalyzer.zero_fill.
  apply fill_NoDup. rewrite count_records_flat.
  apply count_balls_NoDup. constructor.
Qed.

Lemma count_red_balls_keys (records : list DoubleBallRecord) (k : Z) :
  k ∈ (HotColdAnalyzer._count_red_balls records).*1 ↔
  1 <= k <= 33 ∨ k ∈ records ≫= reds.
Proof.
  unfold HotColdAnalyzer._count_red_balls, HotColdAnalyzer.zero_fill.
  rewrite fill_keys, count_records_flat, count_balls_keys, elem_of_py_range.
  simpl. rewrite elem_of_nil. intuition lia.
Qed.

Lemma count_red_balls_get (records : list DoubleBallRecord) (k : Z) :
  counter_get k (HotColdAnalyzer._count_red_balls records) =
  occurrences k records.
Proof.
  unfold HotColdAnalyzer._count_red_balls, HotColdAnalyzer.zero_fill.
  rewrite fill_get, count_records_flat, count_balls_get. done.
Qed.

(** ** The single-window heat classification *)

Import HotColdAnalyzer.

(** What [analyze] returns when the cache test finds nothing and the draws
    are given and not empty. *)
Lemma analyze_computed (self : t) (now_check now_done : Q)
    (records : list DoubleBallRecord) (window : option Z) (force_refresh : bool) :
  records ≠ [] →
  cache_lookup self now_check (default (short_term_window self) window)
    force_refresh = None →
  let res := (analyze self now_check now_done (Some records) window
                force_refresh).1 in
  red_counts res = _count_red_balls records ∧
  hot res = (py_slice 0 11 (sorted_items (red_counts res))).*1 ∧
  warm res = (py_slice 11 22 (sorted_items (red_counts res))).*1 ∧
  cold res = (py_slice 22 33 (sorted_items (red_counts res))).*1 ∧
  total_records res = Z.of_nat (length records).
Proof.
  intros Hne Hcache. unfold analyze. rewrite Hcache.
  destruct records as [|r records]; [done|].
  destruct (db self); cbv beta iota zeta;
    cbn [fst hot warm cold red_counts total_records]; auto.
Qed.

Lemma analyze_empty_input (self : t) (now_check now_done : Q)
    (window : option Z) (force_refresh : bool) :
  cache_lookup self now_check (default (short_term_window self) window)
    force_refresh = None →
  (analyze self now_check now_done (Some []) window force_refresh).1 =
  _get_empty_result (default (short_term_window self) window) now_done.
Proof.
  intros Hcache. unfold analyze. rewrite Hcache.
  destruct (db self); reflexivity.
Qed.

(** C5 (as amended). A call of [analyze] that finds a usable entry in the
    cache returns that entry, whatever draws it is given. Whenever [analyze]
    computes (the cache test finds nothing): for a non-empty sequence of draws
    its frequency table has exactly one entry for every main number 1..33,
    holding the number of occurrences of that number (zero when it was not
    drawn), and the sample size is the number of draws; for the empty
    sequence it returns the empty result, whose table has no entry at all,
    with sample size 0 and empty tiers. *)
Theorem frequency_table_entries (self : t) (now_check now_done : Q)
    (records : list DoubleBallRecord) (window : option Z) (force_refresh : bool) :
  let res := (analyze self now_check now_done (Some records) window
                force_refresh).1 in
  match cache_lookup self now_check (default (short_term_window self) window)
          force_refresh with
  | Some cached_result => res = cached_result
  | None =>
      match records with
      | [] =>
          red_counts res = [] ∧ total_records res = 0 ∧
          hot res = [] ∧ warm res = [] ∧ cold res = []
      | _ =>
          total_records res = Z.of_nat (length records) ∧
          NoDup (red_counts res).*1 ∧
          ∀ ball, 1 <= ball <= 33 →
            ball ∈ (red_counts res).*1 ∧
            counter_get ball (red_counts res) = occurrences ball records
      end
  end.
Proof.
  intros res.
  destruct (cache_lookup self now_check
              (default (short_term_window self) window) force_refresh)
    as [cached_result|] eqn:Hcache.
  { subst res. unfold analyze. by rewrite Hcache. }
  destruct records as [|r records].
  - subst res. by rewrite analyze_empty_input.
  - destruct (analyze_computed self now_check now_done (r :: records) window
                force_refresh) as (Hc & _ & _ & _ & Ht); [done|done|].
    fold res in Hc, Ht. rewrite Hc. split_and!; [done|apply count_red_balls_NoDup|].
    intros ball Hball. split; [|apply count_red_balls_get].
    apply count_red_balls_keys. by left.
Qed.

Lemma frequency_table_entries_witness :
  let res := (analyze cold_analyzer 0 0 (Some sample_draws) None false).1 in
  total_records res = 3 ∧
  NoDup (red_counts res).*1 ∧
  ∀ ball, 1 <= ball <= 33 →
    ball ∈ (red_counts res).*1 ∧
    counter_get ball (red_counts res) = occurrences ball sample_draws.
Proof.
  exact (frequency_table_entries cold_analyzer 0 0 sample_draws None false).
Defined.

(** C5, as stated, fails on the empty input: the table [analyze] returns for
    it has no entry for the number 1. *)
Lemma empty_input_table_has_no_entries :
  ¬ (∀ ball, 1 <= ball <= 33 →
       counter_mem ball
         (red_counts (analyze cold_analyzer 0 0 (Some []) None false).1) = true).
Proof. intros H. specialize (H 1 ltac:(lia)). discriminate H. Qed.

(** On a call served from the cache the empty input gets the stored
    table, not the empty one. *)
Example cached_table_answers_empty_input :
  let warm_analyzer :=
    (analyze cold_analyzer 0 0 (Some sample_draws) None false).2 in
  length (red_counts (analyze warm_analyzer 1 1 (Some []) None false).1)
  = 33%nat.
Proof. vm_compute. reflexivity. Qed.

Lemma tier_slices_cover {A} (s : list A) :
  length s = 33%nat →
  py_slice 0 11 s ++ py_slice 11 22 s ++ py_slice 22 33 s = s.
Proof.
  intros Hlen. unfold py_slice. cbn [Nat.sub drop].
  rewrite app_assoc, take_take_drop.
  change (11 + 11)%nat with 22%nat. rewrite take_take_drop.
  apply take_ge. lia.
Qed.


Lemma valid_reds_flat (records : list DoubleBallRecord) (k : Z) :
  Forall valid_reds records → k ∈ records ≫= reds → 1 <= k <= 33.
Proof.
  intros Hvalid (r & Hk & Hr)%list_elem_of_bind.
  rewrite Forall_forall in Hvalid. specialize (Hvalid r Hr).
  unfold valid_reds in Hvalid. rewrite Forall_forall in Hvalid. auto.
Qed.

(** The zero-filled table of valid draws has the keys 1..33 and no other. *)
Lemma count_red_balls_keys_valid (records : list DoubleBallRecord) :
  Forall valid_reds records →
  (_count_red_balls records).*1 ≡ₚ py_range 1 34.
Proof.
  intros Hvalid. apply NoDup_Permutation.
  - apply count_red_balls_NoDup.
  - apply NoDup_py_range.
  - intros k. rewrite count_red_balls_keys, elem_of_py_range. split.
    + intros [?|Hk]; [lia|]. apply (valid_reds_flat records k) in Hk; [lia|done].
    + intros ?. left. lia.
Qed.

(** ** The cache of the single-window analysis *)

Lemma cache_lookup_Some (self : t) (now_check : Q) (w : Z)
    (force_refresh : bool) (cached_result : result) :
  cache_lookup self now_check w force_refresh = Some cached_result ↔
  force_refresh = false ∧ _cached_results self !! w = Some cached_result ∧
  (now_check - _cache_time cached_result < _cache_ttl self)%Q.
Proof.
  unfold cache_lookup, Qltb. destruct force_refresh; [naive_solver|].
  destruct (_cached_results self !! w) as [c|]; [|naive_solver].
  destruct (Qle_bool (_cache_ttl self) (now_check - _cache_time c)) eqn:Hle;
    simpl.
  - apply Qle_bool_iff in Hle. split; [done|].
    intros (_ & [= ->] & Hlt). by apply Qlt_not_le in Hlt.
  - split.
    + intros [= ->]. split_and!; [done..|].
      apply Qnot_le_lt. rewrite <- Qle_bool_iff. congruence.
    + by intros (_ & [= ->] & _).
Qed.

Lemma cache_lookup_cleared (self : t) (now_check : Q) (w : Z)
    (force_refresh : bool) :
  cache_lookup (clear_cache self None) now_check w force_refresh = None.
Proof. unfold cache_lookup. by destruct force_refresh. Qed.

(** C9 (as amended). A call to [analyze] for which the cache test finds
    nothing (always so with [force_refresh] or an empty cache) returns the
    classification an analyzer with an empty cache computes from the draws
    and the window of the call; a call that reads its draws from the storage
    and finds an entry for the window younger than the TTL returns that entry
    as it was stored. *)
Theorem analyze_cache_semantics (self : t) (now_check now_done : Q)
    (records : option (list DoubleBallRecord)) (window : option Z)
    (force_refresh : bool) :
  let res := (analyze self now_check now_done records window force_refresh).1 in
  match cache_lookup self now_check (default (short_term_window self) window)
          force_refresh with
  | Some cached_result => records = None → res = cached_result
  | None =>
      classification res =
      classification (analyze (clear_cache self None) now_check now_done
                        records window force_refresh).1
  end.
Proof.
  intros res. subst res. unfold analyze.
  change (short_term_window (clear_cache self None))
    with (short_term_window self).
  rewrite cache_lookup_cleared.
  change (db (clear_cache self None)) with (db self).
  destruct (cache_lookup self _ _ _) as [c|]; [done|].
  destruct records as [[|r records]|], (db self) as [d|];
    try reflexivity.
  cbv beta iota zeta.
  destruct (DoubleBallDatabase.get_recent_records _ _); reflexivity.
Qed.

Lemma analyze_cache_semantics_witness :
  let warm_analyzer :=
    (analyze stored_analyzer 0 0 None (Some 30) false).2 in
  (analyze warm_analyzer 1 1 None (Some 30) false).1 =
  (analyze stored_analyzer 0 0 None (Some 30) false).1.
Proof.
  exact (analyze_cache_semantics
           (analyze stored_analyzer 0 0 None (Some 30) false).2 1 1 None
           (Some 30) false eq_refl).
Defined.

(** C9, as stated, fails. Once the storage has received new draws, a call
    within the TTL still returns the entry computed from the old draws, not
    the classification of the draws it would read now; and with the entry of
    an earlier call on other draws still in the cache, the hot numbers returned
    differ from those computed from the draws passed to the call. *)
Lemma warm_cache_changes_result :
  (let warm_analyzer :=
     storage_updated (analyze stored_analyzer 0 0 None (Some 30) false).2
       (sample_draws ++ other_draws) in
   hot (analyze warm_analyzer 1 1 None (Some 30) false).1 ≠
   hot (analyze (clear_cache warm_analyzer None) 1 1 None (Some 30) false).1) ∧
  (let warm_analyzer :=
     (analyze cold_analyzer 0 0 (Some sample_draws) (Some 30) false).2 in
   hot (analyze warm_analyzer 1 1 (Some other_draws) (Some 30) false).1 ≠
   hot (analyze cold_analyzer 1 1 (Some other_draws) (Some 30) false).1).
Proof. split; vm_compute; discriminate. Qed.

(** ** Cross-window consistency *)

(** Filling a dictionary key by key. *)
Lemma fill_lookup {V} (h : Z → V) (l : list Z) (m : gmap Z V) (k : Z) :
  fold_left (λ m c, <[c := h c]> m) l m !! k =
  if decide (k ∈ l) then Some (h k) else m !! k.
Proof.
  revert m. induction l as [|b l IH]; intros m; cbn [fold_left].
  - rewrite decide_False; [done|apply not_elem_of_nil].
  - rewrite IH. destruct (decide (k ∈ l)) as [Hin|Hni].
    + rewrite decide_True; [done|by right].
    + destruct (decide (k = b)) as [->|Hne].
      * rewrite lookup_insert_eq, decide_True; [done|by left].
      * rewrite lookup_insert_ne, decide_False; [done| |done].
        rewrite elem_of_cons. naive_solver.
Qed.

Lemma window_statuses_lookup (wd : window_data) (balls : list Z)
    (m : gmap Z (list heat)) (k : Z) :
  NoDup balls →
  fold_left (λ m ball, alter (λ l, l ++ [window_status wd ball]) ball m)
    balls m !! k =
  if decide (k ∈ balls) then (λ l, l ++ [window_status wd k]) <$> m !! k
  else m !! k.
Proof.
  intros Hnd. revert m.
  induction Hnd as [|b balls Hb Hnd IH]; intros m; cbn [fold_left].
  - rewrite decide_False; [done|apply not_elem_of_nil].
  - rewrite IH. destruct (decide (k = b)) as [->|Hne].
    + rewrite decide_False by done. rewrite lookup_alter_eq.
      rewrite decide_True; [done|by left].
    + rewrite lookup_alter_ne by done.
      destruct (decide (k ∈ balls)) as [Hin|Hni].
      * rewrite decide_True; [done|by right].
      * rewrite decide_False; [done|]. rewrite elem_of_cons. naive_solver.
Qed.

Lemma collect_windows_lookup (window_results : list window_data)
    (m : gmap Z (list heat)) (l : list heat) (k : Z) :
  k ∈ py_range 1 34 →
  m !! k = Some l →
  fold_left
    (λ m wd,
       fold_left
         (λ m ball, alter (λ l, l ++ [window_status wd ball]) ball m)
         (py_range 1 34) m)
    window_results m !! k =
  Some (l ++ ((λ wd, window_status wd k) <$> window_results)).
Proof.
  intros Hin. revert m l.
  induction window_results as [|wd wrs IH]; intros m l Hm.
  - cbn [fold_left fmap list_fmap]. by rewrite app_nil_r.
  - rewrite fmap_cons. cbn [fold_left].
    rewrite (IH _ (l ++ [window_status wd k])).
    + by rewrite <- app_assoc.
    + rewrite window_statuses_lookup by apply NoDup_py_range.
      rewrite decide_True by done. by rewrite Hm.
Qed.

Lemma collect_statuses_lookup (window_results : list window_data) (k : Z) :
  1 <= k <= 33 →
  collect_statuses window_results !! k =
  Some ((λ wd, window_status wd k) <$> window_results).
Proof.
  intros Hk. unfold collect_statuses.
  assert (k ∈ py_range 1 34) as Hin by (apply elem_of_py_range; lia).
  rewrite (collect_windows_lookup window_results _ [] k); [done|done|].
  rewrite (fill_lookup (λ _, [])). by rewrite decide_True.
Qed.

(** [len(set(statuses)) == 1] says that the statuses are all the first one. *)
Lemma uniform_statuses (l : list heat) :
  length (remove_dups l) = 1%nat ↔ ∃ s, head l = Some s ∧ Forall (eq s) l.
Proof.
  split.
  - intros Hlen. destruct l as [|a l].
    + discriminate Hlen.
    + exists a. split; [done|].
      destruct (remove_dups (a :: l)) as [|x [|??]] eqn:Hd; try discriminate.
      assert (∀ y, y ∈ a :: l → y = x) as Hall.
      { intros y Hy. apply elem_of_remove_dups in Hy. rewrite Hd in Hy.
        by apply list_elem_of_singleton in Hy. }
      apply Forall_forall. intros y Hy.
      rewrite (Hall y Hy). apply Hall. by left.
  - intros (s & Hhead & Hall). destruct l as [|a l]; [done|].
    injection Hhead as ->. rewrite Forall_forall in Hall.
    pose proof (NoDup_remove_dups (s :: l)) as Hnd.
    assert (∀ y, y ∈ remove_dups (s :: l) → y = s) as Hd.
    { intros y Hy. symmetry. apply Hall. by apply elem_of_remove_dups. }
    assert (s ∈ remove_dups (s :: l)) as Hs.
    { apply elem_of_remove_dups. by left. }
    destruct (remove_dups (s :: l)) as [|x [|y d]]; [|done|].
    + by apply elem_of_nil in Hs.
    + exfalso. apply NoDup_cons in Hnd as [Hx _]. apply Hx.
      rewrite (Hd x), (Hd y); [by left|by right; left|by left].
Qed.

Lemma add_verdict_balls (c : consistency) (b : Z) (st : list heat) :
  verdict_balls (add_verdict c b st) ≡ₚ b :: verdict_balls c.
Proof.
  unfold add_verdict, verdict_balls.
  destruct (_ =? _)%nat; [destruct (head st) as [[]|]|]; simpl;
    rewrite ?fmap_app; simpl; rewrite ?app_assoc;
    repeat first [ rewrite <- Permutation_cons_append
                 | rewrite <- Permutation_middle ];
    by rewrite ?app_assoc.
Qed.

Lemma add_verdict_group (s : heat) (c : consistency) (b : Z) (st : list heat)
    (k : Z) :
  k ∈ consistent_group s (add_verdict c b st) ↔
  k ∈ consistent_group s c ∨ (k = b ∧ head st = Some s ∧ Forall (eq s) st).
Proof.
  unfold add_verdict.
  destruct (_ =? _)%nat eqn:Hlen.
  - apply Nat.eqb_eq, uniform_statuses in Hlen as (s' & Hhead & Hall).
    rewrite Hhead.
    assert (Forall (eq s) st → s = s') as Huniq.
    { destruct st as [|a st]; [done|]. injection Hhead as ->.
      by intros [-> _]%Forall_cons. }
    destruct s, s'; simpl; rewrite ?elem_of_app, ?list_elem_of_singleton;
      naive_solver.
  - apply Nat.eqb_neq in Hlen. rewrite uniform_statuses in Hlen.
    destruct s; simpl; naive_solver.
Qed.

Section Verdicts.
Context (stf : Z → list heat).

Lemma verdicts_balls (balls : list Z) (c : consistency) :
  verdict_balls (fold_left (λ c b, add_verdict c b (stf b)) balls c) ≡ₚ
  verdict_balls c ++ balls.
Proof.
  revert c. induction balls as [|b balls IH]; intros c; cbn [fold_left].
  - by rewrite app_nil_r.
  - rewrite IH, add_verdict_balls. by rewrite <- Permutation_middle.
Qed.

Lemma verdicts_group (s : heat) (balls : list Z) (c : consistency) (k : Z) :
  k ∈ consistent_group s (fold_left (λ c b, add_verdict c b (stf b)) balls c) ↔
  k ∈ consistent_group s c ∨
  (k ∈ balls ∧ head (stf k) = Some s ∧ Forall (eq s) (stf k)).
Proof.
  revert c. induction balls as [|b balls IH]; intros c; cbn [fold_left].
  - rewrite elem_of_nil. naive_solver.
  - rewrite IH, add_verdict_group, elem_of_cons. naive_solver.
Qed.
End Verdicts.

Lemma sort_if_nonempty_perm (l : list Z) : sort_if_nonempty l ≡ₚ l.
Proof. destruct l; [done|]. apply py_sorted_perm. Qed.

(** C10. Over at least two windows the consistency analysis gives every
    number of 1..33 exactly one verdict: the three consistent groups and the
    varying list together hold each number once. A number is in the group of
    a tier exactly when every window gives it that tier, where a window gives
    Cold to whatever is in neither its hot nor its warm list. *)
Theorem cross_window_verdicts_partition (window_results : list window_data) :
  (2 <= length window_results)%nat →
  ∃ c, _analyze_cross_window_consistency window_results = Consistency c ∧
       verdict_balls c ≡ₚ py_range 1 34 ∧
       (∀ s b, b ∈ consistent_group s c ↔
               1 <= b <= 33 ∧
               ∀ wd, wd ∈ window_results → window_status wd b = s) ∧
       (∀ wd b, window_status wd b = Cold ↔ (b ∉ w_hot wd) ∧ (b ∉ w_warm wd)).
Proof.
  intros Hlen. unfold _analyze_cross_window_consistency.
  destruct (_ <? _)%nat eqn:Hlt; [apply Nat.ltb_lt in Hlt; lia|].
  eexists. split; [reflexivity|].
  set (stf := λ b, default [] (collect_statuses window_results !! b)).
  set (c0 := {| consistent_hot := []; consistent_warm := [];
                consistent_cold := []; varying := [] |}).
  set (c := fold_left (λ c b, add_verdict c b (stf b)) (py_range 1 34) c0).
  split_and!.
  - unfold verdict_balls; cbn [consistent_hot consistent_warm consistent_cold
                                 varying].
    rewrite !sort_if_nonempty_perm.
    apply (verdicts_balls stf (py_range 1 34) c0).
  - intros s b.
    transitivity (b ∈ consistent_group s c).
    { destruct s; cbn [consistent_group consistent_hot consistent_warm
                         consistent_cold]; by rewrite sort_if_nonempty_perm. }
    unfold c. rewrite verdicts_group, elem_of_py_range.
    assert (b ∈ consistent_group s c0 ↔ False) as ->.
    { destruct s; simpl; rewrite elem_of_nil; done. }
    split.
    + intros [[]|(Hb & Hhead & Hall)]. split; [lia|].
      unfold stf in Hall. rewrite collect_statuses_lookup in Hall by lia.
      simpl in Hall. rewrite Forall_fmap, Forall_forall in Hall.
      intros wd Hwd. symmetry. by apply Hall.
    + intros [Hb Hall]. right. split; [lia|].
      unfold stf. rewrite collect_statuses_lookup by lia. simpl. split.
      * destruct window_results as [|wd wrs]; [simpl in Hlen; lia|].
        simpl. f_equal. apply Hall. by left.
      * rewrite Forall_fmap, Forall_forall. intros wd Hwd.
        symmetry. by apply Hall.
  - intros wd b. unfold window_status.
    rewrite <- !(elem_of_list_to_set (C := gset Z)).
    repeat case_decide; naive_solver.
Qed.

Lemma cross_window_verdicts_partition_witness :
  ∃ c, _analyze_cross_window_consistency sample_windows = Consistency c ∧
       verdict_balls c ≡ₚ py_range 1 34 ∧
       (∀ s b, b ∈ consistent_group s c ↔
               1 <= b <= 33 ∧
               ∀ wd, wd ∈ sample_windows → window_status wd b = s) ∧
       (∀ wd b, window_status wd b = Cold ↔ (b ∉ w_hot wd) ∧ (b ∉ w_warm wd)).
Proof.
  apply (cross_window_verdicts_partition sample_windows). simpl. lia.
Defined.

(** ** Repeat statistics of a window *)

Import ProbabilityAnalyzer.

Lemma py_truediv_ok (a : Q) (n : Z) :
  0 < n → py_truediv a (inject_Z n) = Ok (a / inject_Z n)%Q.
Proof.
  intros Hn. unfold py_truediv.
  destruct (Qeq_bool (inject_Z n) 0) eqn:Heq; [|done].
  apply Qeq_bool_iff in Heq. unfold Qeq in Heq. simpl in Heq. lia.
Qed.

Lemma mapM_py_ok {A B} (f : A → py B) (l : list A) :
  (∀ x, ∃ y, f x = Ok y) → ∃ k, mapM f l = Ok k.
Proof.
  intros Hf. induction l as [|x l [k IH]]; simpl.
  - by eexists.
  - destruct (Hf x) as [y ->]. rewrite IH. by eexists.
Qed.

Lemma current_predictions_ok (current_record : DoubleBallRecord)
    (period_data : list DoubleBallRecord) :
  ∃ p, _calculate_current_predictions current_record period_data = Ok p.
Proof.
  unfold _calculate_current_predictions. cbv zeta.
  set (s := fold_left _ _ _). clearbody s.
  destruct (0 <? total_comparisons s) eqn:Hpos; [|by eexists].
  apply Z.ltb_lt in Hpos.
  destruct (mapM_py_ok
              (λ '(red, count),
                 p ← py_truediv (inject_Z count)
                       (inject_Z (total_comparisons s)); mret (red, p))
              (map_to_list (red_repeat_predictions s))) as [probs Hprobs].
  { intros [red count]. rewrite py_truediv_ok by done. by eexists. }
  destruct (similar_repeat_counts s), (similar_blue_repeats s);
    rewrite ?py_truediv_ok by done; cbn [mbind py_bind]; rewrite Hprobs;
    by eexists.
Qed.

(** The loop that fills the distribution never divides by zero when there
    is at least one pair. *)
Lemma distribution_loop_ok (freq : Z → Z) (n : Z) (l : list Z) (m : gmap Z Q) :
  0 < n →
  py_for l
    (λ dist count,
       p ← py_truediv (inject_Z (freq count)) (inject_Z n);
       mret (<[count := p]> dist)) m =
  Ok (fold_left (λ m c, <[c := (inject_Z (freq c) / inject_Z n)%Q]> m) l m).
Proof.
  intros Hn. revert m. induction l as [|c l IH]; intros m; simpl; [done|].
  rewrite py_truediv_ok by done. apply IH.
Qed.

Lemma size_list_to_set_le (l : list Z) :
  (size (list_to_set l : gset Z) <= length l)%nat.
Proof.
  induction l as [|x l IH].
  - by rewrite list_to_set_nil, size_empty.
  - rewrite list_to_set_cons, size_union_alt, size_singleton. simpl.
    pose proof (subseteq_size (list_to_set l ∖ {[x]}) (list_to_set l : gset Z)
                  ltac:(set_solver)).
    lia.
Qed.

Lemma repeat_count_range (record next_record : DoubleBallRecord) :
  0 <= repeat_count record next_record <= 6.
Proof.
  unfold repeat_count, repeat_reds.
  pose proof (subseteq_size
                (list_to_set (reds record) ∩ list_to_set (reds next_record))
                (list_to_set (reds record) : gset Z) ltac:(set_solver)).
  pose proof (size_list_to_set_le (reds record)). simpl in *. lia.
Qed.

Lemma repeat_counts_range (pairs : list (DoubleBallRecord * DoubleBallRecord)) :
  Forall (λ x, 0 <= x <= 6) (map (λ p, repeat_count p.1 p.2) pairs).
Proof.
  induction pairs as [|[a b] pairs IH]; cbn [map]; constructor; [|done].
  exact (repeat_count_range a b).
Qed.

Lemma length_adjacent_pairs {A} (l : list A) :
  length (adjacent_pairs l) = (length l - 1)%nat.
Proof.
  induction l as [|a [|b l] IH]; [done..|].
  change (adjacent_pairs (a :: b :: l)) with ((a, b) :: adjacent_pairs (b :: l)).
  simpl in *. lia.
Qed.

Lemma Counter_get (l : list Z) (k : Z) :
  counter_get k (Counter l) = Z.of_nat (length (filter (λ b, b = k) l)).
Proof. unfold Counter. by rewrite count_balls_get. Qed.

Lemma filter_fmap_length {A} (f : A → Z) (k : Z) (l : list A) :
  length (filter (λ b, b = k) (f <$> l)) = length (filter (λ p, f p = k) l).
Proof.
  induction l as [|x l IH]; [done|].
  rewrite fmap_cons, !filter_cons. repeat case_decide; simpl; congruence.
Qed.

(** Every repeat count falls in one of the seven buckets. *)
Lemma buckets_cover (l : list Z) :
  Forall (λ x, 0 <= x <= 6) l →
  foldr Z.add 0
    ((λ k, Z.of_nat (length (filter (λ b, b = k) l))) <$> py_range 0 7) =
  Z.of_nat (length l).
Proof.
  change (py_range 0 7) with [0; 1; 2; 3; 4; 5; 6].
  cbn [fmap list_fmap foldr].
  induction 1 as [|x l Hx Hl IH]; [done|].
  rewrite !filter_cons.
  repeat case_decide; cbn [length]; lia.
Qed.

Lemma Qsum_div (c : Z → Z) (d : Q) (l : list Z) :
  ¬ (d == 0)%Q →
  (foldr Qplus 0 ((λ k, inject_Z (c k) / d) <$> l) ==
   inject_Z (foldr Z.add 0%Z (c <$> l)) / d)%Q.
Proof.
  intros Hd. induction l as [|k l IH]; cbn [fmap list_fmap foldr].
  - change (inject_Z 0) with 0%Q. by field.
  - rewrite IH, inject_Z_plus. by field.
Qed.

(** Whatever the number of draws, the statistics of a configured window
    are computed without raising: both divisions by the number of pairs are
    guarded, and with no pair the distribution is left empty. *)
Lemma repeat_stats_never_raise (self : t) (window_name : string)
    (current_record : DoubleBallRecord) (period_data : list DoubleBallRecord) :
  is_Some (window_config self !! window_name) →
  ∃ stats,
    _calculate_window_repeat_stats self window_name current_record period_data
      = Ok stats ∧
    ((length period_data < 2)%nat → repeat_distribution stats = ∅).
Proof.
  intros [period_limit Hcfg]. unfold _calculate_window_repeat_stats.
  set (n := Z.of_nat (length period_data) - 1).
  destruct (current_predictions_ok current_record period_data) as [p Hp].
  unfold config_item. rewrite Hcfg.
  destruct (0 <? n) eqn:Hn.
  - apply Z.ltb_lt in Hn.
    rewrite distribution_loop_ok, py_truediv_ok by done.
    rewrite Hp. cbn [mbind py_bind mret py_ret].
    eexists. split; [reflexivity|]. unfold n in Hn. lia.
  - cbn [mbind py_bind mret py_ret]. rewrite Hp.
    eexists. split; [reflexivity|done].
Qed.

(** ** The pairs of adjacent draws *)

Lemma adjacent_pairs_zip {A} (l : list A) :
  adjacent_pairs l = zip l (drop 1 l).
Proof.
  induction l as [|a [|b l] IH]; [done|done|].
  change (adjacent_pairs (a :: b :: l)) with ((a, b) :: adjacent_pairs (b :: l)).
  rewrite IH. reflexivity.
Qed.

Lemma repeat_reds_elem (a b : DoubleBallRecord) (x : Z) :
  x ∈ repeat_reds a b ↔ x ∈ reds a ∧ x ∈ reds b.
Proof.
  unfold repeat_reds. rewrite elem_of_intersection, !elem_of_list_to_set. done.
Qed.

Lemma repeat_count_shared (a b : DoubleBallRecord) :
  repeat_count a b = Z.of_nat (length (shared_numbers a b)).
Proof.
  unfold repeat_count, shared_numbers. f_equal.
  rewrite <- (size_list_to_set (C := gset Z)
                (filter (λ x, x ∈ reds b) (remove_dups (reds a)))).
  - f_equal. apply leibniz_equiv. intros x.
    rewrite repeat_reds_elem, elem_of_list_to_set, list_elem_of_filter,
      elem_of_remove_dups. tauto.
  - apply NoDup_filter, NoDup_remove_dups.
Qed.

Lemma pairs_sharing_model (k : Z) (period_data : list DoubleBallRecord) :
  pairs_sharing k period_data =
  Z.of_nat (length (filter (λ p, repeat_count p.1 p.2 = k)
                           (adjacent_pairs period_data))).
Proof.
  unfold pairs_sharing, draw_pairs. rewrite <- adjacent_pairs_zip.
  f_equal. f_equal. apply list_filter_iff. intros [a b]. cbn [fst snd].
  by rewrite repeat_count_shared.
Qed.

Lemma pairs_same_blue_model (period_data : list DoubleBallRecord) :
  pairs_same_blue period_data =
  Z.of_nat (length (filter (λ p, blue p.1 = blue p.2)
                           (adjacent_pairs period_data))).
Proof. unfold pairs_same_blue, draw_pairs. by rewrite <- adjacent_pairs_zip. Qed.

Lemma similar_pairs_model (current_record : DoubleBallRecord)
    (period_data : list DoubleBallRecord) :
  similar_pairs current_record period_data =
  filter (λ p, Exists (λ x, x ∈ reds p.1) (reds current_record))
         (adjacent_pairs period_data).
Proof. unfold similar_pairs, draw_pairs. by rewrite <- adjacent_pairs_zip. Qed.

Lemma rounded_sum_within (k : Z) (ps : list Q) :
  -1022 <= k →
  Forall (λ p, (Qabs p <= 2 ^ k)%Q) ps →
  (Qabs (foldr Qplus 0 (binary64_nearest <$> ps) - foldr Qplus 0 ps) <=
   inject_Z (Z.of_nat (length ps)) * 2 ^ (k - 53))%Q.
Proof.
  intros Hk Hps.
  rewrite <- (length_fmap binary64_nearest ps).
  apply Qsum_within. induction Hps as [|p ps Hp Hps IH]; constructor; [|done].
  by apply binary64_nearest_within.
Qed.

Lemma float_sum_acc (k : Z) (c : Q) (l : list Q) (acc a e : Q) :
  -1022 <= k →
  Forall (λ x, (Qabs x <= c)%Q) l →
  (Qabs acc + inject_Z (Z.of_nat (length l)) * (c + 2 ^ (k - 53)) <= 2 ^ k)%Q →
  (Qabs (acc - a) <= e)%Q →
  (Qabs (fold_left (λ acc x, binary64_nearest (acc + x)) l acc -
         (a + foldr Qplus 0 l)) <=
   e + inject_Z (Z.of_nat (length l)) * 2 ^ (k - 53))%Q.
Proof.
  intros Hk Hl. revert acc a e.
  pose proof (Qpower2_pos (k - 53)) as Hd.
  set (d := (2 ^ (k - 53))%Q) in *.
  induction Hl as [|x l Hx Hl IH]; intros acc a e Hroom Hacc.
  - cbn [fold_left foldr length]. change (inject_Z (Z.of_nat 0)) with 0%Q.
    apply Qabs_Qle_condition in Hacc. apply Qabs_Qle_condition. lra.
  - cbn [fold_left foldr length] in *.
    rewrite Nat2Z.inj_succ, <- Z.add_1_r, inject_Z_plus in Hroom |- *.
    change (inject_Z 1) with 1%Q in *.
    set (N := inject_Z (Z.of_nat (length l))) in *.
    assert (0 <= N)%Q as HN.
    { unfold N. change 0%Q with (inject_Z 0). rewrite <- Zle_Qle. lia. }
    assert (0 <= c)%Q as Hc.
    { eapply Qle_trans; [apply Qabs_nonneg|exact Hx]. }
    assert (0 <= N * (c + d))%Q as HNc.
    { apply Qmult_le_0_compat; lra. }
    assert (Qabs (acc + x) <= 2 ^ k)%Q as Hsum.
    { eapply Qle_trans; [apply Qabs_triangle|]. lra. }
    pose proof (binary64_nearest_within (acc + x) k Hk Hsum) as Hrn.
    fold d in Hrn.
    assert (Qabs (binary64_nearest (acc + x)) <= Qabs acc + c + d)%Q as Hnew.
    { apply Qabs_Qle_condition in Hrn.
      pose proof (Qabs_triangle acc x) as Htri.
      apply Qabs_Qle_condition in Htri.
      apply Qabs_Qle_condition. lra. }
    specialize (IH (binary64_nearest (acc + x)) (a + x)%Q (e + d)%Q).
    assert (Qabs (binary64_nearest (acc + x) - (a + x)) <= e + d)%Q as Hacc'.
    { apply Qabs_Qle_condition in Hrn, Hacc. apply Qabs_Qle_condition. lra. }
    assert ((N + 1) * (c + d) == N * (c + d) + (c + d))%Q as Hmul by ring.
    rewrite Hmul in Hroom.
    specialize (IH ltac:(lra) Hacc').
    apply Qabs_Qle_condition in IH. apply Qabs_Qle_condition.
    assert ((N + 1) * d == N * d + d)%Q as -> by ring.
    lra.
Qed.

Lemma pairs_sharing_range (k : Z) (period_data : list DoubleBallRecord) :
  0 <= pairs_sharing k period_data <= Z.of_nat (length period_data) - 1 ∨
  period_data = [].
Proof.
  destruct period_data as [|r l]; [by right|left].
  rewrite pairs_sharing_model.
  pose proof (length_filter (λ p, repeat_count p.1 p.2 = k)
                (adjacent_pairs (r :: l))) as Hle.
  rewrite length_adjacent_pairs in Hle. cbn [length] in *. lia.
Qed.

Lemma probabilities_sum_in_floats (ps : list Q) (s : Q) :
  (length ps <= 40)%nat →
  Forall (λ p, (0 <= p <= 6)%Q) ps →
  (foldr Qplus 0 ps == s)%Q →
  (Qabs (foldr Qplus 0 (binary64_nearest <$> ps) - s) <= 1 # 1000000000)%Q ∧
  (Qabs (float_sum (binary64_nearest <$> ps) - s) <= 1 # 1000000000)%Q.
Proof.
  intros Hlen Hps Hs.
  assert (Forall (λ p, (Qabs p <= 2 ^ 3)%Q) ps) as Hps3.
  { eapply Forall_impl; [exact Hps|]. intros p [H0 H1]. cbv beta.
    rewrite Qabs_pos by done. change (2 ^ 3)%Q with 8%Q. lra. }
  pose proof (rounded_sum_within 3 ps ltac:(lia) Hps3) as Hexact.
  assert (Forall (λ x, (Qabs x <= 7)%Q) (binary64_nearest <$> ps)) as Hfs.
  { apply Forall_fmap. eapply Forall_impl; [exact Hps|]. intros p [H0 H1].
    cbv beta. unfold compose.
    assert (Qabs p <= 2 ^ 3)%Q as Hp.
    { rewrite Qabs_pos by done. change (2 ^ 3)%Q with 8%Q. lra. }
    pose proof (binary64_nearest_within p 3 ltac:(lia) Hp) as Hrn.
    assert (2 ^ (3 - 53) <= 1)%Q as Hsmall by (by apply Qle_bool_imp_le).
    set (d := (2 ^ (3 - 53))%Q) in *.
    apply Qabs_Qle_condition in Hrn. apply Qabs_Qle_condition. lra. }
  set (N := inject_Z (Z.of_nat (length ps))) in *.
  assert (0 <= N <= 40)%Q as HN.
  { unfold N. change 0%Q with (inject_Z 0). change 40%Q with (inject_Z 40).
    rewrite <- !Zle_Qle. lia. }
  assert (Qabs 0 + inject_Z (Z.of_nat (length (binary64_nearest <$> ps))) *
                   (7 + 2 ^ (9 - 53)) <= 2 ^ 9)%Q as Hroom.
  { rewrite length_fmap. fold N. change (Qabs 0) with 0%Q.
    assert (0 <= 2 ^ (9 - 53) <= 1)%Q as Hsmall
      by (by split; apply Qle_bool_imp_le).
    change (2 ^ 9)%Q with 512%Q.
    set (d := (2 ^ (9 - 53))%Q) in *.
    assert (N * (7 + d) <= 40 * 8)%Q; [|lra].
    apply Qmult_le_compat_nonneg; split; lra. }
  pose proof (float_sum_acc 9 7 (binary64_nearest <$> ps) 0 0 0 ltac:(lia)
                Hfs Hroom ltac:(done)) as Hfloat.
  fold (float_sum (binary64_nearest <$> ps)) in Hfloat.
  rewrite length_fmap in Hfloat. fold N in Hfloat.
  assert (N * 2 ^ (3 - 53) <= 40 * 2 ^ (3 - 53))%Q as H1.
  { apply Qmult_le_compat_r; [lra|]. apply Qlt_le_weak, Qpower2_pos. }
  assert (N * 2 ^ (9 - 53) <= 40 * 2 ^ (9 - 53))%Q as H2.
  { apply Qmult_le_compat_r; [lra|]. apply Qlt_le_weak, Qpower2_pos. }
  assert (40 * 2 ^ (3 - 53) + 40 * 2 ^ (9 - 53) <= 1 # 1000000000)%Q as H3
    by (by apply Qle_bool_imp_le).
  assert (0 <= 40 * 2 ^ (9 - 53))%Q as H4 by (by apply Qle_bool_imp_le).
  set (d3 := (2 ^ (3 - 53))%Q) in *. set (d9 := (2 ^ (9 - 53))%Q) in *.
  apply Qabs_Qle_condition in Hexact, Hfloat.
  split; apply Qabs_Qle_condition; lra.
Qed.

Lemma distribution_floats_rounded (dist : gmap Z Q) :
  distribution_floats dist =
  binary64_nearest <$> ((λ k, default 0%Q (dist !! k)) <$> py_range 0 7).
Proof. unfold distribution_floats. by rewrite <- list_fmap_compose. Qed.

(** C6. On a window of at least two draws the repeat statistics are
    computed (nothing is raised); the number of pairs is the window size
    minus one; the distribution has exactly the buckets 0..6, each holding the
    number of adjacent pairs that share exactly that many main numbers divided
    by the number of pairs; the seven probabilities sum to 1 as rationals; and
    the seven floats that the code holds for them sum to 1 within 1e-9,
    whether they are added exactly or from left to right with every addition
    rounded. *)
Theorem repeat_distribution_normalized (self : t) (window_name : string)
    (current_record : DoubleBallRecord) (period_data : list DoubleBallRecord) :
  (2 <= length period_data)%nat →
  is_Some (window_config self !! window_name) →
  ∃ stats,
    _calculate_window_repeat_stats self window_name current_record period_data
      = Ok stats ∧
    total_pairs stats = Z.of_nat (length period_data) - 1 ∧
    (∀ k, repeat_distribution stats !! k =
          if decide (0 <= k <= 6)
          then Some (inject_Z (pairs_sharing k period_data) /
                     inject_Z (total_pairs stats))%Q
          else None) ∧
    (distribution_sum (repeat_distribution stats) == 1)%Q ∧
    (Qabs (foldr Qplus 0 (distribution_floats (repeat_distribution stats)) - 1)
     <= 1 # 1000000000)%Q ∧
    (Qabs (float_sum (distribution_floats (repeat_distribution stats)) - 1)
     <= 1 # 1000000000)%Q.
Proof.
  intros Hlen [period_limit Hcfg].
  unfold _calculate_window_repeat_stats.
  set (n := Z.of_nat (length period_data) - 1).
  set (rc := map (λ p, repeat_count p.1 p.2) (adjacent_pairs period_data)).
  assert (0 < n) as Hn by (unfold n; lia).
  assert ((0 <? n) = true) as -> by (by apply Z.ltb_lt).
  rewrite distribution_loop_ok, py_truediv_ok by done.
  destruct (current_predictions_ok current_record period_data) as [p ->].
  unfold config_item. rewrite Hcfg. cbn [mbind py_bind mret py_ret].
  eexists. split; [reflexivity|].
  cbn [total_pairs repeat_distribution].
  set (dist := fold_left _ _ _).
  assert (∀ k, pairs_sharing k period_data =
               Z.of_nat (length (filter (λ b, b = k) rc))) as Hshare.
  { intros k. rewrite pairs_sharing_model. unfold rc.
    by rewrite (filter_fmap_length (λ p, repeat_count p.1 p.2)). }
  assert (∀ k, dist !! k =
               if decide (0 <= k <= 6)
               then Some (inject_Z (pairs_sharing k period_data) / inject_Z n)%Q
               else None) as Hdist.
  { intros k. unfold dist.
    rewrite (fill_lookup (λ c, (inject_Z (counter_get c (Counter rc)) /
                                inject_Z n)%Q)).
    destruct (decide (0 <= k <= 6)) as [Hk|Hk].
    - rewrite decide_True by (apply elem_of_py_range; lia).
      by rewrite Counter_get, Hshare.
    - rewrite decide_False by (rewrite elem_of_py_range; lia). done. }
  assert (¬ (inject_Z n == 0)%Q) as Hn0.
  { unfold Qeq; simpl. lia. }
  assert (distribution_sum dist == 1)%Q as Hsum.
  { unfold distribution_sum.
    assert (Forall (λ x, 0 <= x <= 6) rc) as Hrange.
    { unfold rc. apply repeat_counts_range. }
    assert ((λ k, default 0%Q (dist !! k)) <$> py_range 0 7 =
            (λ k, (inject_Z (Z.of_nat (length (filter (λ b, b = k) rc))) /
                   inject_Z n)%Q) <$> py_range 0 7) as ->.
    { apply list_fmap_ext. intros i k Hk.
      apply list_elem_of_lookup_2, elem_of_py_range in Hk.
      rewrite Hdist, decide_True by lia. simpl. by rewrite Hshare. }
    rewrite (Qsum_div (λ k, Z.of_nat (length (filter (λ b, b = k) rc))))
      by done.
    rewrite buckets_cover by done.
    assert (Z.of_nat (length rc) = n) as ->.
    { unfold rc, n. rewrite length_map, length_adjacent_pairs. lia. }
    by field. }
  assert (Forall (λ p, (0 <= p <= 6)%Q)
            ((λ k, default 0%Q (dist !! k)) <$> py_range 0 7)) as Hps.
  { apply Forall_fmap, Forall_forall. intros k Hk%elem_of_py_range.
    cbv beta. unfold compose. rewrite Hdist, decide_True by lia. simpl.
    destruct (pairs_sharing_range k period_data) as [Hr| ->];
      [|simpl in Hlen; lia].
    fold n in Hr.
    assert (0 < inject_Z n)%Q as Hnq.
    { change 0%Q with (inject_Z 0). rewrite <- Zlt_Qlt. lia. }
    split.
    - apply Qle_shift_div_l; [done|]. rewrite Qmult_0_l.
      change 0%Q with (inject_Z 0). rewrite <- Zle_Qle. lia.
    - apply Qle_shift_div_r; [done|].
      change 6%Q with (inject_Z 6). rewrite <- inject_Z_mult, <- Zle_Qle. lia. }
  rewrite distribution_floats_rounded.
  destruct (probabilities_sum_in_floats
              ((λ k, default 0%Q (dist !! k)) <$> py_range 0 7) 1) as [Ha Hb];
    [rewrite length_fmap; vm_compute; lia|done|done|].
  by split_and!.
Qed.

Lemma repeat_distribution_normalized_witness :
  ∃ stats,
    _calculate_window_repeat_stats sample_probability_analyzer "short_term"
      (draw 3 1 2 3 4 5 6 1) sample_draws = Ok stats ∧
    total_pairs stats = Z.of_nat (length sample_draws) - 1 ∧
    (∀ k, repeat_distribution stats !! k =
          if decide (0 <= k <= 6)
          then Some (inject_Z (pairs_sharing k sample_draws) /
                     inject_Z (total_pairs stats))%Q
          else None) ∧
    (distribution_sum (repeat_distribution stats) == 1)%Q ∧
    (Qabs (foldr Qplus 0 (distribution_floats (repeat_distribution stats)) - 1)
     <= 1 # 1000000000)%Q ∧
    (Qabs (float_sum (distribution_floats (repeat_distribution stats)) - 1)
     <= 1 # 1000000000)%Q.
Proof.
  apply (repeat_distribution_normalized sample_probability_analyzer
           "short_term" (draw 3 1 2 3 4 5 6 1) sample_draws).
  - simpl. lia.
  - exists (Some 30). reflexivity.
Defined.

(** The scenario of the design document: three draws whose two adjacent
    pairs share three numbers each put all the mass on bucket 3. *)
Example three_draws_bucket_3 :
  (λ stats, (repeat_distribution stats !! 3, repeat_distribution stats !! 0,
             total_pairs stats)) <$>
    (match _calculate_window_repeat_stats sample_probability_analyzer
             "short_term" (draw 3 1 2 3 4 5 6 1) sample_draws with
     | Ok stats => Some stats
     | Raise _ => None
     end) = Some (Some (2 # 2)%Q, Some (0 # 2)%Q, 2).
Proof. vm_compute. reflexivity. Qed.

(** ** Windows with too few draws *)

Section Windows.
Context (self : t) (current_record : DoubleBallRecord)
        (all_records : list DoubleBallRecord) (total_records : Z).

Lemma single_window_short (window_name : string) (limit : option Z) :
  window_config self !! window_name = Some limit →
  (length (window_period_data limit window_name all_records total_records)
   < 2)%nat →
  _analyze_single_window self window_name current_record all_records
    total_records = Ok None.
Proof.
  intros Hcfg Hshort. unfold _analyze_single_window, config_item.
  rewrite Hcfg. cbn [mbind py_bind].
  by apply Nat.ltb_lt in Hshort as ->.
Qed.

Lemma single_window_long (window_name : string) (limit : option Z) :
  window_config self !! window_name = Some limit →
  let period_data :=
    window_period_data limit window_name all_records total_records in
  (2 <= length period_data)%nat →
  ∃ stats,
    _calculate_window_repeat_stats self window_name current_record period_data
      = Ok stats ∧
    _analyze_single_window self window_name current_record all_records
      total_records = Ok (Some stats).
Proof.
  intros Hcfg period_data Hlong.
  destruct (repeat_stats_never_raise self window_name current_record
              period_data) as (stats & Hstats & _); [by eexists|].
  exists stats. split; [done|].
  unfold _analyze_single_window, config_item.
  rewrite Hcfg. cbn [mbind py_bind]. fold period_data.
  apply Nat.ltb_ge in Hlong as ->. by rewrite Hstats.
Qed.

Lemma window_loop (window_group : list string)
    (window_results : gmap string window_stats) :
  py_for window_group
    (λ (window_results : gmap string window_stats) window_name,
       match window_config self !! window_name with
       | None => Ok window_results
       | Some _ =>
           window_result ←
             _analyze_single_window self window_name current_record
               all_records total_records;
           match window_result with
           | Some r => Ok (<[window_name := r]> window_results)
           | None => Ok window_results
           end
       end)
    window_results =
  Ok (fold_left
        (λ m w,
           match window_outcome self current_record all_records total_records w
           with
           | Some stats => <[w := stats]> m
           | None => m
           end)
        window_group window_results).
Proof.
  revert window_results.
  induction window_group as [|w ws IH]; intros m; [done|].
  cbn [py_for fold_left]. unfold window_outcome at 2.
  destruct (window_config self !! w) as [limit|] eqn:Hcfg; [|apply IH].
  set (pd := window_period_data limit w all_records total_records).
  destruct (length pd <? 2)%nat eqn:Hlen.
  - apply Nat.ltb_lt in Hlen.
    rewrite (single_window_short w limit) by done. apply IH.
  - apply Nat.ltb_ge in Hlen.
    destruct (single_window_long w limit Hcfg Hlen) as (stats & Hstats & ->).
    fold pd in Hstats. rewrite Hstats. apply IH.
Qed.

Lemma window_results_lookup (window_group : list string)
    (m : gmap string window_stats) (name : string) :
  fold_left
    (λ m w,
       match window_outcome self current_record all_records total_records w with
       | Some stats => <[w := stats]> m
       | None => m
       end)
    window_group m !! name =
  if decide (name ∈ window_group) then
    match window_outcome self current_record all_records total_records name with
    | Some stats => Some stats
    | None => m !! name
    end
  else m !! name.
Proof.
  revert m. induction window_group as [|w ws IH]; intros m; cbn [fold_left].
  - rewrite decide_False; [done|apply not_elem_of_nil].
  - rewrite IH. destruct (decide (name = w)) as [->|Hne].
    + rewrite (decide_True (P := w ∈ w :: ws)) by (by left).
      destruct (window_outcome _ _ _ _ w) as [stats|] eqn:Hout.
      * rewrite lookup_insert_eq. by case_decide.
      * by case_decide.
    + assert (name ∈ w :: ws ↔ name ∈ ws) as Hiff.
      { rewrite elem_of_cons. naive_solver. }
      assert ((match window_outcome self current_record all_records
                       total_records w with
               | Some stats => <[w := stats]> m
               | None => m
               end) !! name = m !! name) as ->.
      { destruct (window_outcome _ _ _ _ w); [|done].
        by rewrite lookup_insert_ne. }
      destruct (decide (name ∈ ws)).
      * by rewrite decide_True by (by apply Hiff).
      * by rewrite decide_False by (by rewrite Hiff).
Qed.
End Windows.

(** C7. The repeat analysis never raises. When the history has fewer than
    two draws it returns the explicit empty result (with its 'error' entry).
    Otherwise every configured window of the group is looked at in turn: a
    window with fewer than two draws makes [_analyze_single_window] return
    [None] before any division and gets no entry in the result, while every
    window with at least two draws gets its statistics, whatever happened to
    the windows before it. *)
Theorem insufficient_window_is_skipped (self : t)
    (current_record : DoubleBallRecord) (window_group : option (list string)) :
  let all_records := DoubleBallDatabase.get_all_records (db self) None in
  let total := Z.of_nat (length all_records) in
  ∃ res,
    analyze_current_period_probability self (Some current_record) window_group
      = Ok res ∧
    match res with
    | EmptyResult cr => total < 2 ∧ cr = Some current_record
    | Combined c =>
        2 <= total ∧
        ∀ name limit,
          name ∈ default default_window_group window_group →
          window_config self !! name = Some limit →
          let period_data :=
            window_period_data limit name all_records total in
          if decide (length period_data < 2)%nat then
            _analyze_single_window self name current_record all_records total
              = Ok None ∧
            window_analysis c !! name = None
          else
            ∃ stats,
              _calculate_window_repeat_stats self name current_record
                period_data = Ok stats ∧
              window_analysis c !! name = Some stats
    end.
Proof.
  intros all_records total. unfold analyze_current_period_probability.
  fold all_records. fold total.
  destruct (total <? 2) eqn:Htotal.
  { eexists. split; [reflexivity|]. split; [by apply Z.ltb_lt|done]. }
  apply Z.ltb_ge in Htotal.
  rewrite window_loop. cbn [mbind py_bind mret py_ret].
  eexists. split; [reflexivity|]. cbv beta iota. split; [done|].
  intros name limit Hname Hcfg. cbv zeta. cbn [window_analysis].
  set (period_data := window_period_data limit name all_records total).
  rewrite window_results_lookup, lookup_empty.
  rewrite (decide_True (P := name ∈ default default_window_group window_group))
    by exact Hname.
  unfold window_outcome. rewrite Hcfg. fold period_data.
  destruct (decide (length period_data < 2)%nat) as [Hshort|Hlong].
  - split; [by apply (single_window_short _ _ _ _ _ limit)|].
    by apply Nat.ltb_lt in Hshort as ->.
  - apply Nat.nlt_ge in Hlong.
    destruct (single_window_long self current_record all_records total name
                limit Hcfg Hlong) as (stats & Hstats & _).
    exists stats. split; [done|]. fold period_data in Hstats.
    rewrite Hstats. by apply Nat.ltb_ge in Hlong as ->.
Qed.

Lemma insufficient_window_is_skipped_witness :
  ∃ res,
    analyze_current_period_probability one_draw_window_analyzer
      (Some (draw 3 1 2 3 4 5 6 1)) None = Ok res.
Proof.
  destruct (insufficient_window_is_skipped one_draw_window_analyzer
              (draw 3 1 2 3 4 5 6 1) None) as (res & Hres & _).
  by exists res.
Defined.

(** With a short window of one draw over three draws of history, the short
    window is skipped and the all-history window is still analysed. *)
Example one_draw_window_skipped :
  match analyze_current_period_probability one_draw_window_analyzer
          (Some (draw 3 1 2 3 4 5 6 1)) None with
  | Ok (Combined c) =>
      (window_analysis c !! "short_term" = None) ∧
      (total_pairs <$> window_analysis c !! "all_history") = Some 2
  | _ => False
  end.
Proof. vm_compute. done. Qed.

(** ** The windows of the repeat-probability analyzer *)

Lemma window_policy_defaults :
  WindowConfigManager.get_window_by_name window_config_at_startup "short_term"
    = Some 30 ∧
  WindowConfigManager.get_window_by_name window_config_at_startup "medium_term"
    = Some 50 ∧
  WindowConfigManager.get_window_by_name window_config_at_startup "long_term"
    = Some 100 ∧
  WindowConfigManager.get_window_by_name window_config_at_startup "all_history"
    = None.
Proof. vm_compute. done. Qed.

Lemma probability_windows_follow_short_term (wcm : WindowConfigManager.state)
    (name : string) :
  name ∈ ["short_term"; "medium_term"; "long_term"] →
  _get_window_config true wcm !! name =
  Some (WindowConfigManager.get_window_by_name wcm "short_term").
Proof.
  unfold _get_window_config.
  rewrite !elem_of_cons, elem_of_nil. intros [->|[->|[->|[]]]].
  - by rewrite lookup_insert_eq.
  - rewrite lookup_insert_ne by done. by rewrite lookup_insert_eq.
  - rewrite !lookup_insert_ne by done. by rewrite lookup_insert_eq.
Qed.

(** C2 (the code departs from it). With no external configuration the
    window policy resolves the three names to 30, 50 and 100, but the window
    configuration the repeat-probability analyzer builds from it maps
    short_term, medium_term and long_term all to 30. *)
Theorem probability_windows_all_30 :
  let cfg := window_config (init history_31 true window_config_at_startup) in
  cfg !! "short_term" = Some (Some 30) ∧
  cfg !! "medium_term" = Some (Some 30) ∧
  cfg !! "long_term" = Some (Some 30) ∧
  cfg !! "all_history" = Some None.
Proof. vm_compute. done. Qed.

Lemma window_period_data_oldest (limit : Z) (window_name : string)
    (all_records : list DoubleBallRecord) :
  window_name ≠ "all_history" →
  0 < limit →
  window_period_data (Some limit) window_name all_records
    (Z.of_nat (length all_records)) =
  drop (length all_records - Z.to_nat limit) all_records.
Proof.
  intros Hname Hlimit. unfold window_period_data.
  apply String.eqb_neq in Hname as ->.
  unfold py_slice_from. f_equal.
  destruct (Z.ltb_spec (- Z.min limit (Z.of_nat (length all_records))) 0); lia.
Qed.

(** C1 (the code departs from it). On a history of 31 draws, which the
    storage returns newest first (issues 31 down to 1), the window of 30 draws
    that [_analyze_single_window] slices holds the issues 30 down to 1: it
    leaves out the newest draw and keeps the oldest, whereas the 30 most
    recent draws are the issues 31 down to 2. *)
Theorem window_slice_takes_oldest_draws :
  let all_records := DoubleBallDatabase.get_all_records history_31 None in
  issue <$> all_records = reverse (py_range 1 32) ∧
  issue <$> window_period_data (Some 30) "short_term" all_records 31
    = reverse (py_range 1 31) ∧
  issue <$> DoubleBallDatabase.get_recent_records history_31 30
    = reverse (py_range 2 32).
Proof. vm_compute. done. Qed.

(** ** The trend of a number across windows *)

Lemma Qltb_lt (x y : Q) : Qltb x y = true ↔ (x < y)%Q.
Proof.
  unfold Qltb. rewrite negb_true_iff. split.
  - intros Hle. apply Qnot_le_lt. rewrite <- Qle_bool_iff. congruence.
  - intros Hlt. destruct (Qle_bool y x) eqn:Hle; [|done].
    apply Qle_bool_iff in Hle. by apply Qlt_not_le in Hlt.
Qed.

Lemma Qltb_ge (x y : Q) : Qltb x y = false ↔ (y <= x)%Q.
Proof.
  unfold Qltb. rewrite negb_false_iff. apply Qle_bool_iff.
Qed.

Lemma all_adjacent_spec (rel : float → float → bool) (l : list float) :
  all_adjacent rel l = true ↔ consecutive (λ a b, rel a b = true) l.
Proof.
  unfold consecutive. induction l as [|x [|y l] IH].
  - split; [|done]. intros _ i a b Hi. by rewrite lookup_nil in Hi.
  - split; [|done]. intros _ [|i] a b Hi Hj; by rewrite ?lookup_nil in *.
  - change (all_adjacent rel (x :: y :: l))
      with (rel x y && all_adjacent rel (y :: l)).
    rewrite andb_true_iff, IH. split.
    + intros [Hxy Hrest] [|i] a b Hi Hj.
      * injection Hi as <-. injection Hj as <-. done.
      * by apply (Hrest i).
    + intros Hall. split.
      * by apply (Hall 0%nat).
      * intros i a b Hi Hj. by apply (Hall (S i)).
Qed.

Lemma py_max_spec (p : float) (ps : list float) :
  Forall not_nan (p :: ps) →
  py_max p ps ∈ p :: ps ∧
  ∀ x, x ∈ p :: ps → (x <=? py_max p ps)%float = true.
Proof.
  unfold py_max. revert p. induction ps as [|y ps IH]; intros p Hnan; simpl.
  - split; [by left|]. intros x ->%list_elem_of_singleton.
    apply float_leb_refl. by inversion Hnan.
  - inversion Hnan as [|? ? Hp Hrest]; subst.
    inversion Hrest as [|? ? Hy Hps]; subst.
    destruct (p <? y)%float eqn:Hlt.
    + destruct (IH y Hrest) as [Hin Hub].
      split; [by right|].
      intros x [->|Hx]%elem_of_cons; [|by apply Hub].
      apply float_leb_trans with y; [by apply float_ltb_leb|].
      apply Hub. by left.
    + destruct (IH p ltac:(by constructor)) as [Hin Hub].
      assert ((y <=? p)%float = true) as Hyp by (by apply float_ltb_false_leb).
      split.
      * apply elem_of_cons in Hin as [->|Hin]; [by left|by right; right].
      * intros x [->|[->|Hx]%elem_of_cons]%elem_of_cons.
        -- apply Hub. by left.
        -- apply float_leb_trans with p; [done|]. apply Hub. by left.
        -- apply Hub. by right.
Qed.

Lemma py_min_spec (p : float) (ps : list float) :
  Forall not_nan (p :: ps) →
  py_min p ps ∈ p :: ps ∧
  ∀ x, x ∈ p :: ps → (py_min p ps <=? x)%float = true.
Proof.
  unfold py_min. revert p. induction ps as [|y ps IH]; intros p Hnan; simpl.
  - split; [by left|]. intros x ->%list_elem_of_singleton.
    apply float_leb_refl. by inversion Hnan.
  - inversion Hnan as [|? ? Hp Hrest]; subst.
    inversion Hrest as [|? ? Hy Hps]; subst.
    destruct (y <? p)%float eqn:Hlt.
    + destruct (IH y Hrest) as [Hin Hlb].
      split; [by right|].
      intros x [->|Hx]%elem_of_cons; [|by apply Hlb].
      apply float_leb_trans with y; [|by apply float_ltb_leb].
      apply Hlb. by left.
    + destruct (IH p ltac:(by constructor)) as [Hin Hlb].
      assert ((p <=? y)%float = true) as Hpy by (by apply float_ltb_false_leb).
      split.
      * apply elem_of_cons in Hin as [->|Hin]; [by left|by right; right].
      * intros x [->|[->|Hx]%elem_of_cons]%elem_of_cons.
        -- apply Hlb. by left.
        -- apply float_leb_trans with p; [|done]. apply Hlb. by left.
        -- apply Hlb. by right.
Qed.

Lemma consecutive_le_monotone (l : list float) (i j : nat) (a b : float) :
  Forall not_nan l → nondecreasing l → (i <= j)%nat →
  l !! i = Some a → l !! j = Some b → (a <=? b)%float = true.
Proof.
  intros Hnan Hcons Hij. revert b.
  induction Hij as [|j Hij IH]; intros b Hi Hj.
  - rewrite Hi in Hj. injection Hj as ->. apply float_leb_refl.
    rewrite Forall_forall in Hnan. apply Hnan, list_elem_of_lookup. eauto.
  - destruct (l !! j) as [c|] eqn:Hc.
    + apply float_leb_trans with c; [by apply IH|]. by apply (Hcons j).
    + apply lookup_ge_None in Hc. apply lookup_lt_Some in Hj. lia.
Qed.

Lemma consecutive_ge_monotone (l : list float) (i j : nat) (a b : float) :
  Forall not_nan l → nonincreasing l → (i <= j)%nat →
  l !! i = Some a → l !! j = Some b → (b <=? a)%float = true.
Proof.
  intros Hnan Hcons Hij. revert b.
  induction Hij as [|j Hij IH]; intros b Hi Hj.
  - rewrite Hi in Hj. injection Hj as ->. apply float_leb_refl.
    rewrite Forall_forall in Hnan. apply Hnan, list_elem_of_lookup. eauto.
  - destruct (l !! j) as [c|] eqn:Hc.
    + apply float_leb_trans with c; [by apply (Hcons j)|by apply IH].
    + apply lookup_ge_None in Hc. apply lookup_lt_Some in Hj. lia.
Qed.

(** In a sequence that neither rises nor falls anywhere, no entry is below
    another one. *)
Lemma constant_no_spread (l : list float) (hi lo : float) :
  Forall not_nan l → nondecreasing l → nonincreasing l →
  hi ∈ l → lo ∈ l → (hi <=? lo)%float = true.
Proof.
  intros Hnan Hle Hge [i Hi]%list_elem_of_lookup [j Hj]%list_elem_of_lookup.
  destruct (Nat.le_gt_cases i j).
  - by apply (consecutive_le_monotone l i j).
  - apply (consecutive_ge_monotone l j i); [done|done|lia|done..].
Qed.

(** What the three classifiers of a trend share: the largest and the
    smallest value, the two tests of monotony, and the spread of a constant
    sequence, which exceeds no threshold. *)
Lemma spread_facts (p : float) (ps : list float) (c : float) :
  Forall not_nan (p :: ps) →
  (0 <=? c)%float = true →
  py_max p ps ∈ p :: ps ∧ py_min p ps ∈ p :: ps ∧
  (∀ x, x ∈ p :: ps →
        (py_min p ps <=? x)%float = true ∧ (x <=? py_max p ps)%float = true) ∧
  (all_adjacent PrimFloat.leb (p :: ps) = true ↔ nondecreasing (p :: ps)) ∧
  (all_adjacent (λ a b, PrimFloat.leb b a) (p :: ps) = true ↔
   nonincreasing (p :: ps)) ∧
  (nondecreasing (p :: ps) → nonincreasing (p :: ps) →
   (c <? py_max p ps - py_min p ps)%float = false).
Proof.
  intros Hnan Hc.
  destruct (py_max_spec p ps Hnan) as [Hhi Hub].
  destruct (py_min_spec p ps Hnan) as [Hlo Hlb].
  split_and!; try done.
  - intros x Hx. split; [by apply Hlb|by apply Hub].
  - apply all_adjacent_spec.
  - apply (all_adjacent_spec (λ a b, PrimFloat.leb b a)).
  - intros Hle Hge. apply sub_equal_not_above; [|by apply Hub|done].
    by apply (constant_no_spread (p :: ps)).
Qed.

(** A spread that is at most [lo] is not above [hi] when [lo <= hi]. *)
Lemma threshold_gap (d lo hi : float) :
  (lo <=? hi)%float = true →
  (d <=? lo)%float = true → (hi <? d)%float = false.
Proof.
  intros Hlohi Hd. destruct (hi <? d)%float eqn:Hlt; [|done].
  pose proof (float_ltb_leb_trans _ _ _ Hlt Hd) as H1.
  pose proof (float_ltb_leb_trans _ _ _ H1 Hlohi) as H2.
  by rewrite float_ltb_irrefl in H2.
Qed.

(** C8 (as amended). For a sequence of at least four percentages (floats
    that are not NaN), with [hi] its largest and [lo] its smallest entry, the
    classifier answers Increasing exactly when the sequence is non-decreasing
    and [hi - lo] exceeds 0.05, Decreasing exactly when it is non-increasing
    and [hi - lo] exceeds 0.05, Stable exactly when [hi - lo] is at most 0.03,
    and Oscillating in every other case. The difference and the comparisons
    are those of binary64, and 0.05 and 0.03 are the floats that the literals
    denote. *)
Theorem ball_trend_four_windows (percentages : list float) :
  (4 <= length percentages)%nat →
  Forall not_nan percentages →
  ∃ hi lo,
    hi ∈ percentages ∧ lo ∈ percentages ∧
    (∀ x, x ∈ percentages →
          (lo <=? x)%float = true ∧ (x <=? hi)%float = true) ∧
    let trend := HotColdAnalyzer._determine_ball_trend percentages in
    (trend = HotColdAnalyzer.Increasing ↔
       nondecreasing percentages ∧ (0.05 <? hi - lo)%float = true) ∧
    (trend = HotColdAnalyzer.Decreasing ↔
       nonincreasing percentages ∧ (0.05 <? hi - lo)%float = true) ∧
    (trend = HotColdAnalyzer.Stable ↔ (hi - lo <=? 0.03)%float = true) ∧
    (trend = HotColdAnalyzer.Oscillating ↔
       (hi - lo <=? 0.03)%float = false ∧
       ¬ ((nondecreasing percentages ∨ nonincreasing percentages) ∧
          (0.05 <? hi - lo)%float = true)).
Proof.
  intros Hlen Hnan. destruct percentages as [|p ps]; [simpl in Hlen; lia|].
  destruct (spread_facts p ps 0.05 Hnan eq_refl)
    as (Hhi & Hlo & Hbounds & Hinc & Hdec & Hconst).
  exists (py_max p ps), (py_min p ps).
  split_and!; [done|done|done|].
  unfold HotColdAnalyzer._determine_ball_trend.
  assert ((length (p :: ps) <? 2)%nat = false) as -> by (apply Nat.ltb_ge; lia).
  assert ((4 <=? length (p :: ps))%nat = true) as -> by (by apply Nat.leb_le).
  set (d := (py_max p ps - py_min p ps)%float) in *.
  pose proof (threshold_gap d 0.03 0.05 eq_refl) as Hgap.
  destruct (all_adjacent PrimFloat.leb (p :: ps)),
           (all_adjacent (λ a b, PrimFloat.leb b a) (p :: ps)),
           (0.05 <? d)%float, (d <=? 0.03)%float; simpl;
    split_and!; split; try discriminate; intuition (discriminate || auto).
Qed.

Lemma ball_trend_four_windows_witness :
  ∃ hi lo,
    hi ∈ [0.1; 0.12; 0.15; 0.2]%float ∧ lo ∈ [0.1; 0.12; 0.15; 0.2]%float ∧
    (∀ x, x ∈ [0.1; 0.12; 0.15; 0.2]%float →
          (lo <=? x)%float = true ∧ (x <=? hi)%float = true) ∧
    let trend :=
      HotColdAnalyzer._determine_ball_trend [0.1; 0.12; 0.15; 0.2]%float in
    (trend = HotColdAnalyzer.Increasing ↔
       nondecreasing [0.1; 0.12; 0.15; 0.2]%float ∧
       (0.05 <? hi - lo)%float = true) ∧
    (trend = HotColdAnalyzer.Decreasing ↔
       nonincreasing [0.1; 0.12; 0.15; 0.2]%float ∧
       (0.05 <? hi - lo)%float = true) ∧
    (trend = HotColdAnalyzer.Stable ↔ (hi - lo <=? 0.03)%float = true) ∧
    (trend = HotColdAnalyzer.Oscillating ↔
       (hi - lo <=? 0.03)%float = false ∧
       ¬ ((nondecreasing [0.1; 0.12; 0.15; 0.2]%float ∨
           nonincreasing [0.1; 0.12; 0.15; 0.2]%float) ∧
          (0.05 <? hi - lo)%float = true)).
Proof.
  apply (ball_trend_four_windows [0.1; 0.12; 0.15; 0.2]%float).
  - simpl. lia.
  - repeat constructor.
Defined.

(** C8, as stated, fails on sequences of fewer than four percentages: the
    sequence 10%, 30%, 10% is neither non-decreasing nor non-increasing and
    its spread of 20% is above both thresholds, so the stated rule answers
    Oscillating, but the classifier answers Stable. *)
Lemma three_windows_stable_despite_spread :
  HotColdAnalyzer._determine_ball_trend [0.1; 0.3; 0.1]%float
    = HotColdAnalyzer.Stable ∧
  spec_ball_trend [0.1; 0.3; 0.1]%float = HotColdAnalyzer.Oscillating.
Proof. split; vm_compute; reflexivity. Qed.

(** At the thresholds the comparisons are those of binary64: the floats
    0.53 and 0.5 differ by more than the float 0.03, and 0.65 and 0.6 by more
    than the float 0.05. *)
Example ball_trend_at_the_thresholds :
  HotColdAnalyzer._determine_ball_trend [0.5; 0.5; 0.5; 0.53]%float
    = HotColdAnalyzer.Oscillating ∧
  HotColdAnalyzer._determine_ball_trend [0.6; 0.6; 0.6; 0.65]%float
    = HotColdAnalyzer.Increasing ∧
  HotColdAnalyzer._determine_ball_trend [0.5; 0.5; 0.5; 0.525]%float
    = HotColdAnalyzer.Stable.
Proof. split_and!; vm_compute; reflexivity. Qed.

(** What the classifier does with two or three percentages: it compares
    the first with the last and never answers Oscillating. *)
Lemma ball_trend_few_windows (percentages : list float) :
  (2 <= length percentages < 4)%nat →
  let first := hd 0%float percentages in
  let last := List.last percentages 0%float in
  let trend := HotColdAnalyzer._determine_ball_trend percentages in
  (trend = HotColdAnalyzer.Rising ↔
     (first <? last)%float = true ∧ (0.05 <? last - first)%float = true) ∧
  (trend = HotColdAnalyzer.Falling ↔
     (last <? first)%float = true ∧ (0.05 <? first - last)%float = true) ∧
  (trend = HotColdAnalyzer.Stable ↔
     ¬ ((first <? last)%float = true ∧ (0.05 <? last - first)%float = true) ∧
     ¬ ((last <? first)%float = true ∧ (0.05 <? first - last)%float = true)).
Proof.
  intros Hlen first last. unfold HotColdAnalyzer._determine_ball_trend.
  assert ((length percentages <? 2)%nat = false) as ->
    by (apply Nat.ltb_ge; lia).
  assert ((4 <=? length percentages)%nat = false) as ->
    by (apply Nat.leb_gt; lia).
  fold first. fold last.
  destruct (first <? last)%float eqn:H1, (last <? first)%float eqn:H2;
    try (pose proof (float_ltb_leb_trans _ _ _ H1 (float_ltb_leb _ _ H2)) as H;
         by rewrite float_ltb_irrefl in H);
    destruct (0.05 <? last - first)%float, (0.05 <? first - last)%float;
    cbn [andb]; split_and!; split; try discriminate;
    intuition (discriminate || auto).
Qed.

(** ** The storage queries *)

Lemma issue_desc_total (a b : DoubleBallRecord) :
  DoubleBallDatabase.issue_desc a b = true ∨
  DoubleBallDatabase.issue_desc b a = true.
Proof. unfold DoubleBallDatabase.issue_desc. lia. Qed.

Lemma issue_desc_trans (a b c : DoubleBallRecord) :
  DoubleBallDatabase.issue_desc a b = true →
  DoubleBallDatabase.issue_desc b c = true →
  DoubleBallDatabase.issue_desc a c = true.
Proof. unfold DoubleBallDatabase.issue_desc. lia. Qed.

Lemma StronglySorted_weaken {A} (R S : A → A → Prop) (l : list A) :
  (∀ a b, R a b → S a b) → StronglySorted R l → StronglySorted S l.
Proof.
  intros HRS. induction 1 as [|a l Hl IH Ha]; constructor; [done|].
  eapply Forall_impl; [exact Ha|]. intros b. apply HRS.
Qed.

Lemma all_records_sorted (self : DoubleBallDatabase.t) :
  StronglySorted (λ a b, issue b <= issue a)
    (DoubleBallDatabase.get_all_records self None).
Proof.
  unfold DoubleBallDatabase.get_all_records.
  eapply StronglySorted_weaken;
    [|apply (py_sorted_sorted DoubleBallDatabase.issue_desc);
      [apply issue_desc_total|apply issue_desc_trans]].
  intros a b Hab. unfold DoubleBallDatabase.issue_desc in Hab.
  simpl in Hab. lia.
Qed.

(** X1. [get_all_records()] returns every stored draw exactly once, ordered
    newest first: the issues never increase along the result. *)
Theorem all_records_newest_first (self : DoubleBallDatabase.t) :
  DoubleBallDatabase.get_all_records self None ≡ₚ DoubleBallDatabase.rows self ∧
  ∀ i j a b,
    DoubleBallDatabase.get_all_records self None !! i = Some a →
    DoubleBallDatabase.get_all_records self None !! j = Some b →
    (i < j)%nat → issue b <= issue a.
Proof.
  split.
  - apply py_sorted_perm.
  - intros i j a b Hi Hj Hij.
    by apply (StronglySorted_lookup_lt (λ a b, issue b <= issue a)
                _ i j a b (all_records_sorted self)).
Qed.

Lemma recent_records_take (self : DoubleBallDatabase.t) (limit : Z) :
  DoubleBallDatabase.get_recent_records self limit =
  take (Z.to_nat limit) (DoubleBallDatabase.get_all_records self None).
Proof.
  unfold DoubleBallDatabase.get_recent_records,
    DoubleBallDatabase.get_all_records.
  destruct (Z.leb_spec limit 0) as [Hle|Hgt].
  - by replace (Z.to_nat limit) with 0%nat by lia.
  - by apply Z.ltb_lt in Hgt as ->.
Qed.

Lemma recent_records_length (self : DoubleBallDatabase.t) (limit : Z) :
  length (DoubleBallDatabase.get_recent_records self limit) =
  Z.to_nat (Z.min (Z.max limit 0)
                  (Z.of_nat (length (DoubleBallDatabase.rows self)))).
Proof.
  rewrite recent_records_take, length_take.
  assert (DoubleBallDatabase.get_all_records self None ≡ₚ
          DoubleBallDatabase.rows self) as Hperm by apply py_sorted_perm.
  rewrite (Permutation_length Hperm). lia.
Qed.

Lemma limit_overflows_spec (limit : Z) :
  DoubleBallDatabase.limit_overflows limit = true ↔ 2 ^ 63 <= limit.
Proof. unfold DoubleBallDatabase.limit_overflows. lia. Qed.

Lemma recent_records_outcome (self : DoubleBallDatabase.t) (limit : Z) :
  (2 ^ 63 <= limit ∧
   DoubleBallDatabase.get_recent_records_or_raise self limit
     = Raise OverflowError) ∨
  (limit < 2 ^ 63 ∧
   DoubleBallDatabase.get_recent_records_or_raise self limit
     = Ok (DoubleBallDatabase.get_recent_records self limit)).
Proof.
  unfold DoubleBallDatabase.get_recent_records_or_raise.
  destruct (DoubleBallDatabase.limit_overflows limit) eqn:Hover.
  - left. by apply limit_overflows_spec in Hover.
  - right. split; [|done].
    destruct (Z.lt_ge_cases limit (2 ^ 63)) as [|Hge]; [done|].
    apply limit_overflows_spec in Hge. congruence.
Qed.

(** X2. [get_recent_records(limit)] raises OverflowError exactly for a limit
    of 2^63 or more, which cannot be bound as an SQLite integer, and raises
    nothing else. For a smaller limit it returns nothing when the limit is
    not positive; otherwise it returns the first [limit] draws of the
    newest-first history (all of them when there are fewer), and no draw it
    leaves out is newer than a draw it returns. *)
Theorem recent_records_are_newest (self : DoubleBallDatabase.t) (limit : Z) :
  match DoubleBallDatabase.get_recent_records_or_raise self limit with
  | Raise e => e = OverflowError ∧ 2 ^ 63 <= limit
  | Ok recent =>
      limit < 2 ^ 63 ∧
      recent =
        take (Z.to_nat limit) (DoubleBallDatabase.get_all_records self None) ∧
      length recent =
        Z.to_nat (Z.min (Z.max limit 0)
                        (Z.of_nat (length (DoubleBallDatabase.rows self)))) ∧
      ∀ i j a b,
        recent !! i = Some a →
        DoubleBallDatabase.get_all_records self None !! j = Some b →
        (length recent <= j)%nat → issue b <= issue a
  end.
Proof.
  destruct (recent_records_outcome self limit) as [[Hge ->]|[Hlt ->]];
    [done|].
  split_and!;
    [done|apply recent_records_take|apply recent_records_length|].
  intros i j a b Hi Hj Hlen.
  assert (i < j)%nat as Hij.
  { apply lookup_lt_Some in Hi. lia. }
  rewrite recent_records_take in Hi.
  apply lookup_take_Some in Hi as [Hi _].
  by apply (StronglySorted_lookup_lt (λ a b, issue b <= issue a)
              _ i j a b (all_records_sorted self)).
Qed.

(** X3. [get_latest_record()] is [None] exactly on an empty store;
    otherwise it is a stored draw whose issue no stored draw exceeds. *)
Theorem latest_record_has_largest_issue (self : DoubleBallDatabase.t) :
  match DoubleBallDatabase.get_latest_record self with
  | None => DoubleBallDatabase.rows self = []
  | Some latest =>
      latest ∈ DoubleBallDatabase.rows self ∧
      ∀ r, r ∈ DoubleBallDatabase.rows self → issue r <= issue latest
  end.
Proof.
  unfold DoubleBallDatabase.get_latest_record. rewrite recent_records_take.
  pose proof (all_records_sorted self) as Hsorted.
  pose proof (py_sorted_perm DoubleBallDatabase.issue_desc
                (DoubleBallDatabase.rows self)) as Hperm.
  fold (DoubleBallDatabase.get_all_records self None) in Hperm.
  destruct (DoubleBallDatabase.get_all_records self None) as [|a l] eqn:Hall.
  - simpl. by apply Permutation_nil in Hperm.
  - simpl. split.
    + rewrite <- Hperm. by left.
    + intros r Hr. rewrite <- Hperm in Hr.
      apply elem_of_cons in Hr as [->|Hr]; [lia|].
      apply StronglySorted_inv in Hsorted as [_ Ha].
      rewrite Forall_forall in Ha. by apply Ha.
Qed.

(** ** The window policy *)

(** X4. [set_window_config(config)] sets each of short_term, medium_term
    and long_term that [config] mentions and keeps the others; it never
    touches any other name (all_history in particular), whatever [config]
    holds; and it leaves the trend windows equal to the three windows followed
    by the all-history marker. *)
Theorem set_window_config_lookup (cls : WindowConfigManager.state)
    (config : gmap string Z) :
  let cls' := WindowConfigManager.set_window_config cls config in
  (∀ name, name ∈ ["short_term"; "medium_term"; "long_term"] →
     WindowConfigManager.get_window_by_name cls' name =
     match config !! name with
     | Some v => Some v
     | None => WindowConfigManager.get_window_by_name cls name
     end) ∧
  (∀ name, name ∉ ["short_term"; "medium_term"; "long_term"] →
     WindowConfigManager._WINDOW_CONFIG cls' !! name =
     WindowConfigManager._WINDOW_CONFIG cls !! name) ∧
  WindowConfigManager.get_trend_windows cls' =
    [WindowConfigManager.get_window_by_name cls' "short_term";
     WindowConfigManager.get_window_by_name cls' "medium_term";
     WindowConfigManager.get_window_by_name cls' "long_term"; None].
Proof.
  intros cls'. subst cls'.
  unfold WindowConfigManager.set_window_config,
    WindowConfigManager.get_window_by_name,
    WindowConfigManager.get_trend_windows.
  cbn [WindowConfigManager._WINDOW_CONFIG WindowConfigManager._TREND_WINDOWS].
  split_and!; [| |done].
  - intros name. rewrite !elem_of_cons, elem_of_nil.
    intros [->|[->|[->|[]]]];
      destruct (config !! "short_term"), (config !! "medium_term"),
               (config !! "long_term"); by simplify_map_eq.
  - intros name. rewrite !not_elem_of_cons. intros (? & ? & ? & _).
    destruct (config !! "short_term"), (config !! "medium_term"),
             (config !! "long_term"); by simplify_map_eq.
Qed.

(** ** More on the windows of the repeat-probability analyzer *)

(** X5. The draws [_analyze_single_window] analyses are the whole history
    when the window is the all-history one, when its configured size is
    [None], when the size is at least the number of draws, and also when the
    size is 0 (the slice [all_records[-0:]] is the whole list). *)
Theorem window_is_whole_history (limit : option Z) (window_name : string)
    (all_records : list DoubleBallRecord) :
  window_name = "all_history" ∨ limit = None ∨
  (∃ l, limit = Some l ∧ (l = 0 ∨ Z.of_nat (length all_records) <= l)) →
  window_period_data limit window_name all_records
    (Z.of_nat (length all_records)) = all_records.
Proof.
  unfold window_period_data. intros [->|[->|(l & -> & Hl)]].
  - by destruct limit.
  - done.
  - destruct (String.eqb window_name "all_history"); [done|].
    unfold py_slice_from.
    set (n := Z.of_nat (length all_records)) in *.
    replace (Z.to_nat _) with 0%nat; [done|].
    destruct (Z.ltb_spec (- Z.min l n) 0); lia.
Qed.

Lemma window_is_whole_history_witness :
  window_period_data (Some 0) "short_term" sample_draws
    (Z.of_nat (length sample_draws)) = sample_draws.
Proof.
  apply (window_is_whole_history (Some 0) "short_term" sample_draws).
  right. right. exists 0. split; [reflexivity|]. left. reflexivity.
Defined.

(** ** Conservation of the frequency tables *)

Lemma py_sum_acc (l : list Z) (a : Z) : fold_left Z.add l a = a + py_sum l.
Proof.
  unfold py_sum. revert a.
  induction l as [|x l IH]; intros a; cbn [fold_left]; [lia|].
  rewrite (IH (a + x)), (IH (0 + x)). lia.
Qed.

Lemma py_sum_cons (x : Z) (l : list Z) : py_sum (x :: l) = x + py_sum l.
Proof. unfold py_sum at 1. simpl. apply py_sum_acc. Qed.

Lemma py_sum_app (l1 l2 : list Z) : py_sum (l1 ++ l2) = py_sum l1 + py_sum l2.
Proof.
  induction l1 as [|x l1 IH]; [done|].
  rewrite <- app_comm_cons, !py_sum_cons, IH. lia.
Qed.

Lemma counter_incr_sum (ball : Z) (c : list (Z * Z)) :
  py_sum (counter_incr ball c).*2 = py_sum c.*2 + 1.
Proof.
  induction c as [|[k v] c IH]; [done|].
  cbn [counter_incr]. destruct (k =? ball); cbn [fmap list_fmap snd];
    rewrite !py_sum_cons; [lia|]. fold (fmap (M := list) (@snd Z Z)).
  rewrite IH. lia.
Qed.

Lemma count_balls_sum (balls : list Z) (c : list (Z * Z)) :
  py_sum (fold_left (λ c ball, counter_incr ball c) balls c).*2 =
  py_sum c.*2 + Z.of_nat (length balls).
Proof.
  revert c. induction balls as [|b balls IH]; intros c; cbn [fold_left length].
  - lia.
  - rewrite IH, counter_incr_sum. lia.
Qed.

Lemma fill_sum (balls : list Z) (c : list (Z * Z)) :
  py_sum (fold_left
            (λ c ball, if counter_mem ball c then c else c ++ [(ball, 0)])
            balls c).*2 = py_sum c.*2.
Proof.
  revert c. induction balls as [|b balls IH]; intros c; cbn [fold_left]; [done|].
  rewrite IH. destruct (counter_mem b c); [done|].
  rewrite fmap_app, py_sum_app. cbn. lia.
Qed.

Lemma length_all_reds (records : list DoubleBallRecord) :
  length (records ≫= reds) = (6 * length records)%nat.
Proof.
  induction records as [|r records IH]; [done|].
  rewrite bind_cons, length_app, IH. simpl. lia.
Qed.

(** X6. The table of [_count_red_balls] conserves the draws: whatever the
    records are, its counts add up to six times the number of records. *)
Theorem red_counts_conserve_draws (records : list DoubleBallRecord) :
  py_sum (_count_red_balls records).*2 = 6 * Z.of_nat (length records).
Proof.
  unfold _count_red_balls, zero_fill.
  rewrite fill_sum, count_records_flat, count_balls_sum, length_all_reds.
  cbn. lia.
Qed.

Lemma service_counts (records : list DoubleBallRecord)
    (counts : list (Z * Z) * list (Z * Z)) :
  fold_left AnalysisService.count_record records counts =
  (fold_left (λ c ball, counter_incr ball c) (records ≫= reds) counts.1,
   fold_left (λ c ball, counter_incr ball c) (blue <$> records) counts.2).
Proof.
  revert counts. induction records as [|r records IH]; intros [c1 c2]; [done|].
  cbn [fold_left]. rewrite IH. unfold AnalysisService.count_record.
  by rewrite bind_cons, fold_left_app.
Qed.

(** X7. [get_frequency_analysis] answers with the text of an OverflowError
    exactly when the window is 2^63 or more, and with no other error. For a
    smaller window it counts the recent draws of the window, as many as the
    window asks for and the store has, into two complete tables, also when
    there is no draw at all: the red table has one entry for each of 1..33
    and its counts add up to six times the number of draws, the blue table
    has one entry for each of 1..16 and its counts add up to the number of
    draws, and the two rankings list exactly the entries of the tables. *)
Theorem frequency_analysis_tables (self : AnalysisService.t)
    (window : option Z) :
  let w := default (AnalysisService.default_window self) window in
  match AnalysisService.get_frequency_analysis self window with
  | AnalysisService.FrequencyError e => e = OverflowError ∧ 2 ^ 63 <= w
  | AnalysisService.FrequencyOk r =>
      let n := AnalysisService.total_records r in
      w < 2 ^ 63 ∧
      AnalysisService.window r = w ∧
      n = Z.min (Z.max w 0)
            (Z.of_nat (length (DoubleBallDatabase.rows
                                 (AnalysisService.db self)))) ∧
      py_sum (AnalysisService.red_frequencies r).*2 = 6 * n ∧
      py_sum (AnalysisService.blue_frequencies r).*2 = n ∧
      NoDup (AnalysisService.red_frequencies r).*1 ∧
      NoDup (AnalysisService.blue_frequencies r).*1 ∧
      (∀ b, 1 <= b <= 33 → b ∈ (AnalysisService.red_frequencies r).*1) ∧
      (∀ b, 1 <= b <= 16 → b ∈ (AnalysisService.blue_frequencies r).*1) ∧
      AnalysisService.sorted_reds r ≡ₚ AnalysisService.red_frequencies r ∧
      AnalysisService.sorted_blues r ≡ₚ AnalysisService.blue_frequencies r
  end.
Proof.
  intros w. unfold AnalysisService.get_frequency_analysis. fold w.
  destruct (recent_records_outcome (AnalysisService.db self) w)
    as [[Hge ->]|[Hlt ->]]; [done|].
  cbn [AnalysisService.total_records AnalysisService.red_frequencies
       AnalysisService.blue_frequencies AnalysisService.sorted_reds
       AnalysisService.sorted_blues AnalysisService.window].
  pose proof (recent_records_length (AnalysisService.db self) w) as Hlen.
  set (records := DoubleBallDatabase.get_recent_records _ _) in *.
  rewrite service_counts. cbn [fst snd]. unfold AnalysisService.zero_fill.
  split_and!.
  - done.
  - done.
  - rewrite Hlen. lia.
  - rewrite fill_sum, count_balls_sum, length_all_reds. cbn. lia.
  - rewrite fill_sum, count_balls_sum, length_fmap. cbn. lia.
  - apply fill_NoDup, count_balls_NoDup. constructor.
  - apply fill_NoDup, count_balls_NoDup. constructor.
  - intros b Hb. apply fill_keys. right. apply elem_of_py_range. lia.
  - intros b Hb. apply fill_keys. right. apply elem_of_py_range. lia.
  - apply py_sorted_perm.
  - apply py_sorted_perm.
Qed.

(** ** More on the single-window classification *)

Lemma elem_of_py_slice {A} (i j : nat) (l : list A) (x : A) :
  x ∈ py_slice i j l → ∃ n, (i <= n < j)%nat ∧ l !! n = Some x.
Proof.
  unfold py_slice. intros [n Hn]%list_elem_of_lookup.
  apply lookup_take_Some in Hn as [Hn Hlt]. rewrite lookup_drop in Hn.
  exists (i + n)%nat. split; [lia|done].
Qed.

Lemma tier_index (i j : nat) (s : list (Z * Z)) (x : Z) :
  x ∈ (py_slice i j s).*1 →
  ∃ n c, (i <= n < j)%nat ∧ s !! n = Some (x, c).
Proof.
  intros ([y c] & -> & Hin)%list_elem_of_fmap.
  apply elem_of_py_slice in Hin as (n & Hn & Hlook). by exists n, c.
Qed.

Lemma counter_get_elem (c : list (Z * Z)) (k v : Z) :
  NoDup c.*1 → (k, v) ∈ c → counter_get k c = v.
Proof.
  induction c as [|[k' v'] c IH]; intros Hnd Hin.
  - by apply elem_of_nil in Hin.
  - cbn [fmap list_fmap fst] in Hnd. apply NoDup_cons in Hnd as [Hk' Hnd].
    cbn [counter_get]. apply elem_of_cons in Hin as [[= -> ->]|Hin].
    + by rewrite Z.eqb_refl.
    + destruct (Z.eqb_spec k' k) as [->|Hne]; [|by apply IH].
      exfalso. apply Hk'. apply list_elem_of_fmap. by exists (k, v).
Qed.

Lemma py_sorted_elem {A} (leb : A → A → bool) (l : list A) (x : A) :
  x ∈ py_sorted leb l → x ∈ l.
Proof. by rewrite py_sorted_perm. Qed.

Lemma ranking_entry_in (red_counts : list (Z * Z)) (n : nat) (e : Z * Z) :
  sorted_items red_counts !! n = Some e → e ∈ red_counts.
Proof.
  intros Hn. apply (py_sorted_elem key_leb).
  apply list_elem_of_lookup. exists n. exact Hn.
Qed.

Lemma ranking_entry_count (records : list DoubleBallRecord) (n : nat)
    (x c : Z) :
  sorted_items (_count_red_balls records) !! n = Some (x, c) →
  c = occurrences x records.
Proof.
  intros Hn.
  rewrite <- (count_red_balls_get records x).
  symmetry. apply counter_get_elem.
  - apply count_red_balls_NoDup.
  - exact (ranking_entry_in _ n (x, c) Hn).
Qed.

Lemma ranking_counts_descend (records : list DoubleBallRecord) (i j : nat)
    (a ca b cb : Z) :
  sorted_items (_count_red_balls records) !! i = Some (a, ca) →
  sorted_items (_count_red_balls records) !! j = Some (b, cb) →
  (i < j)%nat → occurrences b records <= occurrences a records.
Proof.
  intros Hi Hj Hij.
  rewrite <- (ranking_entry_count records i a ca Hi).
  rewrite <- (ranking_entry_count records j b cb Hj).
  assert (key_leb (a, ca) (b, cb) = true) as Hle.
  { eapply (StronglySorted_lookup_lt (λ a b, key_leb a b = true) _ i j);
      [|exact Hi|exact Hj|done].
    apply py_sorted_sorted; [apply key_leb_total|apply key_leb_trans]. }
  apply key_leb_spec in Hle. lia.
Qed.

(** X8. In a classification that [analyze] computes, no warm number was
    drawn more often than a hot one, and no cold number more often than a warm
    or a hot one. *)
Theorem tiers_ordered_by_occurrences (self : HotColdAnalyzer.t)
    (now_check now_done : Q) (records : list DoubleBallRecord)
    (window : option Z) (force_refresh : bool) :
  records ≠ [] →
  cache_lookup self now_check (default (short_term_window self) window)
    force_refresh = None →
  let res := (analyze self now_check now_done (Some records) window
                force_refresh).1 in
  ∀ a b,
    (a ∈ hot res ∧ b ∈ warm res) ∨ (a ∈ warm res ∧ b ∈ cold res) ∨
    (a ∈ hot res ∧ b ∈ cold res) →
    occurrences b records <= occurrences a records.
Proof.
  intros Hne Hcache res.
  destruct (analyze_computed self now_check now_done records window
              force_refresh Hne Hcache) as (Hc & Hh & Hw & Hcd & _).
  fold res in Hc, Hh, Hw, Hcd. rewrite Hh, Hw, Hcd, Hc.
  intros a b [[Ha Hb]|[[Ha Hb]|[Ha Hb]]];
    apply tier_index in Ha as (i & ca & Hi & Hia);
    apply tier_index in Hb as (j & cb & Hj & Hjb);
    apply (ranking_counts_descend records i j a ca b cb Hia Hjb); lia.
Qed.

Lemma tiers_ordered_by_occurrences_witness :
  let res := (analyze cold_analyzer 0 0 (Some sample_draws) None false).1 in
  (4 ∈ hot res ∧ 12 ∈ warm res) ∧
  occurrences 12 sample_draws <= occurrences 4 sample_draws.
Proof.
  assert (4 ∈ hot (analyze cold_analyzer 0 0 (Some sample_draws) None
                     false).1 ∧
          12 ∈ warm (analyze cold_analyzer 0 0 (Some sample_draws) None
                       false).1) as Htiers.
  { split; [apply (bool_decide_unpack (4 ∈ _))
           |apply (bool_decide_unpack (12 ∈ _))]; vm_compute; exact I. }
  split; [exact Htiers|].
  apply (tiers_ordered_by_occurrences cold_analyzer 0 0 sample_draws None
           false).
  - discriminate.
  - reflexivity.
  - left. exact Htiers.
Defined.

Lemma set_status_lookup (s : heat) (balls : list Z) (m : gmap Z heat) (b : Z) :
  set_status s balls m !! b = if decide (b ∈ balls) then Some s else m !! b.
Proof. unfold set_status. apply (fill_lookup (λ _, s)). Qed.

Lemma tier_slices_prefix {A} (s : list A) :
  py_slice 0 11 s ++ py_slice 11 22 s ++ py_slice 22 33 s = take 33 s.
Proof.
  unfold py_slice. cbn [Nat.sub drop].
  rewrite app_assoc, take_take_drop.
  change (11 + 11)%nat with 22%nat. by rewrite take_take_drop.
Qed.

Lemma ranking_keys_NoDup (records : list DoubleBallRecord) :
  NoDup (sorted_items (_count_red_balls records)).*1.
Proof.
  unfold sorted_items.
  rewrite (py_sorted_perm key_leb (_count_red_balls records)).
  apply count_red_balls_NoDup.
Qed.





(** The numbers of the draws have to lie in 1..33: a draw with other
    numbers pushes numbers of 1..33 out of the three tiers. *)
Example out_of_range_numbers_displace_the_tiers :
  let res := (analyze cold_analyzer 0 0 (Some [draw 1 34 35 36 37 38 39 1])
                None false).1 in
  34 ∈ hot res ∧ ¬ (33 ∈ hot res ++ warm res ++ cold res).
Proof.
  cbv zeta. split.
  - apply (bool_decide_unpack (34 ∈ _)). vm_compute. exact I.
  - apply (bool_decide_unpack (¬ (33 ∈ _))). vm_compute. exact I.
Qed.

(** The reverse-lookup dictionary built from three lists without a common
    number gives a number the tier of the list that holds it. *)
Lemma status_of_disjoint_tiers (h w c : list Z) (b : Z) (s : heat) :
  NoDup (h ++ w ++ c) →
  set_status Cold c (set_status Warm w (set_status Hot h ∅)) !! b = Some s ↔
  b ∈ match s with Hot => h | Warm => w | Cold => c end.
Proof.
  intros Hnd. rewrite !set_status_lookup, lookup_empty.
  apply NoDup_app in Hnd as (_ & Hhot & Hnd).
  apply NoDup_app in Hnd as (_ & Hwarm & _).
  pose proof (Hhot b) as Hhot. pose proof (Hwarm b) as Hwarm.
  rewrite elem_of_app in Hhot.
  destruct s; repeat case_decide; naive_solver.
Qed.

Section Computed.
Context (self : HotColdAnalyzer.t) (now_check now_done : Q)
        (records : list DoubleBallRecord) (window : option Z)
        (force_refresh : bool).
Hypothesis Hne : records ≠ [].
Hypothesis Hcache :
  cache_lookup self now_check (default (short_term_window self) window)
    force_refresh = None.

Let res :=
  (analyze self now_check now_done (Some records) window force_refresh).1.

Lemma computed_ball_status :
  ball_status res =
  set_status Cold (cold res)
    (set_status Warm (warm res) (set_status Hot (hot res) ∅)).
Proof.
  subst res. unfold analyze. rewrite Hcache.
  destruct records as [|r records']; [done|].
  destruct (HotColdAnalyzer.db self); cbv beta iota zeta;
    cbn [fst ball_status hot warm cold]; reflexivity.
Qed.

Lemma computed_tiers_NoDup : NoDup (hot res ++ warm res ++ cold res).
Proof.
  destruct (analyze_computed self now_check now_done records window
              force_refresh Hne Hcache) as (Hc & Hh & Hw & Hcd & _).
  fold res in Hc, Hh, Hw, Hcd.
  rewrite Hh, Hw, Hcd, Hc, <- !fmap_app, tier_slices_prefix, fmap_take.
  eapply sublist_NoDup; [apply ranking_keys_NoDup|apply sublist_take].
Qed.

Lemma computed_status_lookup (b : Z) (s : heat) :
  ball_status res !! b = Some s ↔ b ∈ tier_of s res.
Proof.
  rewrite computed_ball_status. unfold tier_of.
  apply status_of_disjoint_tiers, computed_tiers_NoDup.
Qed.
End Computed.

(** X9. In a classification that [analyze] computes, whatever the draws,
    no number is in two tiers or twice in one, and the reverse-lookup
    dictionary agrees with the lists: it gives a number a tier exactly when
    the number is in the list of that tier. *)
Theorem ball_status_matches_tiers (self : HotColdAnalyzer.t)
    (now_check now_done : Q) (records : list DoubleBallRecord)
    (window : option Z) (force_refresh : bool) :
  records ≠ [] →
  cache_lookup self now_check (default (short_term_window self) window)
    force_refresh = None →
  let res := (analyze self now_check now_done (Some records) window
                force_refresh).1 in
  NoDup (hot res ++ warm res ++ cold res) ∧
  ∀ b s, ball_status res !! b = Some s ↔ b ∈ tier_of s res.
Proof.
  intros Hne Hcache res. split.
  - by apply computed_tiers_NoDup.
  - intros b s. by apply computed_status_lookup.
Qed.

Lemma ball_status_matches_tiers_witness :
  let res := (analyze cold_analyzer 0 0 (Some sample_draws) None false).1 in
  NoDup (hot res ++ warm res ++ cold res) ∧
  ∀ b s, ball_status res !! b = Some s ↔ b ∈ tier_of s res.
Proof.
  apply (ball_status_matches_tiers cold_analyzer 0 0 sample_draws None false).
  - discriminate.
  - reflexivity.
Defined.

(** X10. Given the classification that [analyze] computed from valid
    draws, [get_ball_status] answers for every number of 1..33 the tier whose
    list holds it, and does not touch the analyzer. *)
Theorem get_ball_status_answers_tier (self other : HotColdAnalyzer.t)
    (now_check now_done t1 t2 : Q) (records : list DoubleBallRecord)
    (window : option Z) (force_refresh : bool) (ball : Z) :
  records ≠ [] →
  Forall valid_reds records →
  cache_lookup self now_check (default (short_term_window self) window)
    force_refresh = None →
  1 <= ball <= 33 →
  let res := (analyze self now_check now_done (Some records) window
                force_refresh).1 in
  ∃ s, get_ball_status other t1 t2 ball (Some (WithStatus res))
         = (Tier s, other) ∧
       ball ∈ tier_of s res ∧
       ∀ s', ball ∈ tier_of s' res → s' = s.
Proof.
  intros Hne Hvalid Hcache Hball res.
  pose proof (computed_tiers_NoDup self now_check now_done records window
                force_refresh Hne Hcache) as Hnd.
  pose proof (computed_status_lookup self now_check now_done records window
                force_refresh Hne Hcache) as Hbs.
  destruct (analyze_computed self now_check now_done records window
              force_refresh Hne Hcache) as (Hc & Hh & Hw & Hcd & _).
  fold res in Hnd, Hbs, Hc, Hh, Hw, Hcd.
  assert (ball ∈ hot res ++ warm res ++ cold res) as Hin.
  { rewrite Hh, Hw, Hcd, Hc, <- !fmap_app.
    assert ((sorted_items (_count_red_balls records)).*1 ≡ₚ py_range 1 34)
      as Hperm.
    { unfold sorted_items. rewrite py_sorted_perm.
      by apply count_red_balls_keys_valid. }
    rewrite tier_slices_cover.
    - rewrite Hperm. apply elem_of_py_range. lia.
    - rewrite <- (length_fmap fst), Hperm, length_py_range. done. }
  assert (∃ s, ball ∈ tier_of s res) as [s Hs].
  { rewrite !elem_of_app in Hin. destruct Hin as [?|[?|?]];
      [by exists Hot|by exists Warm|by exists Cold]. }
  exists s. unfold get_ball_status.
  assert (negb ((1 <=? ball) && (ball <=? 33)) = false) as ->.
  { apply negb_false_iff, andb_true_iff. lia. }
  pose proof (proj2 (Hbs ball s) Hs) as Hlook.
  rewrite Hlook. split_and!; [done|done|].
  intros s' Hs'. apply Hbs in Hs'. congruence.
Qed.

Lemma get_ball_status_answers_tier_witness :
  let res := (analyze cold_analyzer 0 0 (Some sample_draws) None false).1 in
  ∃ s, get_ball_status cold_analyzer 1 1 7 (Some (WithStatus res))
         = (Tier s, cold_analyzer) ∧
       7 ∈ tier_of s res ∧
       ∀ s', 7 ∈ tier_of s' res → s' = s.
Proof.
  apply (get_ball_status_answers_tier cold_analyzer cold_analyzer 0 0 1 1
           sample_draws None false 7).
  - discriminate.
  - unfold sample_draws, valid_reds, reds, draw; simpl.
    repeat (apply Forall_cons; split); try apply Forall_nil; simpl; lia.
  - reflexivity.
  - lia.
Defined.

(** What [analyze] returns when it has no draw to look at. *)
Lemma analyze_without_data (self : HotColdAnalyzer.t) (now_check now_done : Q)
    (records : option (list DoubleBallRecord)) (window : option Z)
    (force_refresh : bool) :
  let w := default (short_term_window self) window in
  cache_lookup self now_check w force_refresh = None →
  match records with
  | Some rs => rs = []
  | None =>
      match HotColdAnalyzer.db self with
      | None => True
      | Some d => DoubleBallDatabase.get_recent_records d w = []
      end
  end →
  analyze self now_check now_done records window force_refresh =
  (_get_empty_result w now_done, self).
Proof.
  intros w Hcache Hdata. unfold analyze. fold w. rewrite Hcache.
  destruct records as [rs|].
  - subst rs. by destruct (HotColdAnalyzer.db self).
  - destruct (HotColdAnalyzer.db self) as [d|]; [|done]. by rewrite Hdata.
Qed.

(** X11. A call of [analyze] that has no draw to look at returns the empty
    result and leaves the analyzer as it was: an empty result is never put
    into the cache. *)
Theorem empty_result_is_not_cached (self : HotColdAnalyzer.t)
    (now_check now_done : Q) (records : option (list DoubleBallRecord))
    (window : option Z) (force_refresh : bool) :
  let w := default (short_term_window self) window in
  cache_lookup self now_check w force_refresh = None →
  match records with
  | Some rs => rs = []
  | None =>
      match HotColdAnalyzer.db self with
      | None => True
      | Some d => DoubleBallDatabase.get_recent_records d w = []
      end
  end →
  let '(res, self') :=
    analyze self now_check now_done records window force_refresh in
  self' = self ∧
  hot res = [] ∧ warm res = [] ∧ cold res = [] ∧ ball_status res = ∅ ∧
  red_counts res = [] ∧ HotColdAnalyzer.total_records res = 0 ∧
  HotColdAnalyzer.window res = w.
Proof.
  intros w Hcache Hdata.
  rewrite (analyze_without_data self now_check now_done records window
             force_refresh Hcache Hdata).
  by split_and!.
Qed.

Lemma empty_result_is_not_cached_witness :
  let '(res, self') := analyze cold_analyzer 0 0 None None false in
  self' = cold_analyzer ∧
  hot res = [] ∧ warm res = [] ∧ cold res = [] ∧ ball_status res = ∅ ∧
  red_counts res = [] ∧ HotColdAnalyzer.total_records res = 0 ∧
  HotColdAnalyzer.window res = 30.
Proof.
  apply (empty_result_is_not_cached cold_analyzer 0 0 None None false).
  - reflexivity.
  - exact I.
Defined.

(** X12. Without data and without a cached entry, [get_ball_status] called
    without categories answers Cold for every number of 1..33 and Invalid for
    any other number, and leaves the analyzer as it was. *)
Theorem get_ball_status_without_data (self : HotColdAnalyzer.t)
    (now_check now_done : Q) (ball : Z) :
  cache_lookup self now_check (short_term_window self) false = None →
  match HotColdAnalyzer.db self with
  | None => True
  | Some d =>
      DoubleBallDatabase.get_recent_records d (short_term_window self) = []
  end →
  get_ball_status self now_check now_done ball None =
  (if decide (1 <= ball <= 33) then Tier Cold else Invalid, self).
Proof.
  intros Hcache Hdata. unfold get_ball_status.
  destruct (decide (1 <= ball <= 33)) as [Hball|Hball].
  - assert (negb ((1 <=? ball) && (ball <=? 33)) = false) as ->.
    { apply negb_false_iff, andb_true_iff. lia. }
    by rewrite (analyze_without_data self now_check now_done None None false
                  Hcache Hdata).
  - assert (negb ((1 <=? ball) && (ball <=? 33)) = true) as ->; [|done].
    apply negb_true_iff, andb_false_iff. lia.
Qed.

Lemma get_ball_status_without_data_witness :
  get_ball_status cold_analyzer 0 0 5 None = (Tier Cold, cold_analyzer) ∧
  get_ball_status cold_analyzer 0 0 34 None = (Invalid, cold_analyzer).
Proof.
  split.
  - apply (get_ball_status_without_data cold_analyzer 0 0 5);
      [reflexivity|exact I].
  - apply (get_ball_status_without_data cold_analyzer 0 0 34);
      [reflexivity|exact I].
Defined.

(** X13. [get_hot_numbers(window, top_n)] returns a prefix of the hot list
    that [analyze] gives for the window: the whole list without [top_n] or
    with a [top_n] of at least its length, its first [top_n] numbers for a
    smaller [top_n] that is not negative, and the list without its last
    [-top_n] numbers for a negative [top_n]. *)
Theorem get_hot_numbers_prefix (self : HotColdAnalyzer.t)
    (now_check now_done : Q) (window : option Z) (top_n : option Z) :
  let hot_all := hot (analyze self now_check now_done None window false).1 in
  (get_hot_numbers self now_check now_done window top_n).1 =
  match top_n with
  | None => hot_all
  | Some n =>
      if 0 <=? n then take (Z.to_nat n) hot_all
      else take (length hot_all - Z.to_nat (- n)) hot_all
  end.
Proof.
  intros hot_all. subst hot_all. unfold get_hot_numbers.
  destruct (analyze self now_check now_done None window false) as [res self'].
  cbn [fst]. unfold first_top_n, py_slice_to.
  destruct top_n as [n|]; [|done].
  set (len := length (hot res)).
  destruct (Z.ltb_spec n (Z.of_nat len)) as [Hlt|Hge],
           (Z.leb_spec 0 n) as [Hpos|Hneg].
  - destruct (Z.ltb_spec n 0); [lia|]. f_equal. lia.
  - destruct (Z.ltb_spec n 0); [|lia]. f_equal. lia.
  - symmetry. apply take_ge. fold len. lia.
  - lia.
Qed.

(** ** The cache as a store *)

(** The analyzer after a call that computed: only the entry of the window
    has changed, and it holds the result, stamped with the time of the call. *)
Lemma analyze_computed_state (self : HotColdAnalyzer.t)
    (now_check now_done : Q) (records : list DoubleBallRecord)
    (window : option Z) (force_refresh : bool) :
  records ≠ [] →
  cache_lookup self now_check (default (short_term_window self) window)
    force_refresh = None →
  let call :=
    analyze self now_check now_done (Some records) window force_refresh in
  _cached_results call.2 =
    <[default (short_term_window self) window := call.1]>
      (_cached_results self) ∧
  _cache_time call.1 = now_done ∧
  _cache_ttl call.2 = _cache_ttl self ∧
  short_term_window call.2 = short_term_window self ∧
  HotColdAnalyzer.db call.2 = HotColdAnalyzer.db self.
Proof.
  intros Hne Hcache. unfold analyze. rewrite Hcache.
  destruct records as [|r records]; [done|].
  destruct (HotColdAnalyzer.db self); cbv beta iota zeta;
    cbn [fst snd _cached_results _cache_time _cache_ttl short_term_window
         HotColdAnalyzer.db]; auto.
Qed.

(** X14. After a call of [analyze] that computed a classification at time
    [now_done], every call for the same window without [force_refresh] whose
    clock is less than the TTL later returns that very result and leaves the
    analyzer unchanged, whatever draws it is given; a call whose clock is the
    TTL or more later finds no usable entry. *)
Theorem analyze_then_hit (self : HotColdAnalyzer.t) (now_check now_done : Q)
    (records : list DoubleBallRecord) (window : option Z)
    (force_refresh : bool) (later later_done : Q)
    (records' : option (list DoubleBallRecord)) :
  records ≠ [] →
  cache_lookup self now_check (default (short_term_window self) window)
    force_refresh = None →
  let call :=
    analyze self now_check now_done (Some records) window force_refresh in
  ((later - now_done < _cache_ttl self)%Q →
   analyze call.2 later later_done records' window false
     = (call.1, call.2)) ∧
  ((_cache_ttl self <= later - now_done)%Q →
   cache_lookup call.2 later (default (short_term_window self) window) false
     = None).
Proof.
  intros Hne Hcache call.
  destruct (analyze_computed_state self now_check now_done records window
              force_refresh Hne Hcache) as (Hentry & Htime & Httl & Hshort & _).
  fold call in Hentry, Htime, Httl, Hshort.
  generalize dependent call. intros [res self']. cbn [fst snd]. intros.
  assert (_cached_results self'
            !! default (short_term_window self) window = Some res) as Hres.
  { rewrite Hentry. apply lookup_insert_eq. }
  split.
  - intros Hfresh. unfold analyze.
    assert (cache_lookup self' later
              (default (short_term_window self') window) false = Some res)
      as ->; [|done].
    apply cache_lookup_Some. rewrite Hshort, Htime, Httl. by split_and!.
  - intros Hold.
    destruct (cache_lookup self' later _ false) as [c|] eqn:Hlook; [|done].
    apply cache_lookup_Some in Hlook as (_ & Hc & Hlt).
    rewrite Hres in Hc. injection Hc as <-.
    rewrite Htime, Httl in Hlt. lra.
Qed.

Lemma analyze_then_hit_witness :
  let call := analyze cold_analyzer 0 0 (Some sample_draws) None false in
  ((10 - 0 < _cache_ttl cold_analyzer)%Q →
   analyze call.2 10 11 (Some other_draws) None false = (call.1, call.2)) ∧
  ((_cache_ttl cold_analyzer <= 10 - 0)%Q →
   cache_lookup call.2 10 (default (short_term_window cold_analyzer) None)
     false = None).
Proof.
  apply (analyze_then_hit cold_analyzer 0 0 sample_draws None false 10 11
           (Some other_draws)).
  - discriminate.
  - reflexivity.
Defined.

(** X15. [clear_cache(window)] forgets the entry of that window and no
    other: afterwards the cache test fails for the window and answers as
    before for every other window; [clear_cache()] makes it fail for every
    window. *)
Theorem clear_cache_forgets (self : HotColdAnalyzer.t) (now_check : Q)
    (w w' : Z) (force_refresh : bool) :
  cache_lookup (clear_cache self (Some w)) now_check w' force_refresh =
    (if decide (w' = w) then None
     else cache_lookup self now_check w' force_refresh) ∧
  cache_lookup (clear_cache self None) now_check w' force_refresh = None.
Proof.
  split; [|apply cache_lookup_cleared].
  unfold cache_lookup, clear_cache.
  cbn [_cached_results _cache_ttl].
  destruct force_refresh; [by case_decide|].
  destruct (decide (w' = w)) as [->|Hne].
  - by rewrite lookup_delete_eq.
  - by rewrite lookup_delete_ne.
Qed.

(** ** The varying numbers of the consistency analysis *)

Lemma all_adjacent_lookup {A} (rel : A → A → bool) (l : list A) :
  all_adjacent rel l = true ↔
  ∀ i a b, l !! i = Some a → l !! S i = Some b → rel a b = true.
Proof.
  induction l as [|x [|y l] IH].
  - split; [|done]. intros _ i a b Hi. by rewrite lookup_nil in Hi.
  - split; [|done]. intros _ [|i] a b Hi Hj; by rewrite ?lookup_nil in *.
  - change (all_adjacent rel (x :: y :: l))
      with (rel x y && all_adjacent rel (y :: l)).
    rewrite andb_true_iff, IH. split.
    + intros [Hxy Hrest] [|i] a b Hi Hj.
      * injection Hi as <-. injection Hj as <-. done.
      * by apply (Hrest i).
    + intros Hall. split.
      * by apply (Hall 0%nat).
      * intros i a b Hi Hj. by apply (Hall (S i)).
Qed.

Lemma add_verdict_varying (c : consistency) (b : Z) (st : list heat)
    (v : varying_entry) :
  v ∈ varying (add_verdict c b st) ↔
  v ∈ varying c ∨
  (length (remove_dups st) ≠ 1%nat ∧
   v = {| ball := b; statuses := st; trend := _determine_heat_trend st |}).
Proof.
  unfold add_verdict. destruct (_ =? _)%nat eqn:Hlen.
  - apply Nat.eqb_eq in Hlen.
    destruct (head st) as [[]|]; cbn [varying]; naive_solver.
  - apply Nat.eqb_neq in Hlen. cbn [varying].
    rewrite elem_of_app, list_elem_of_singleton. naive_solver.
Qed.

Lemma verdicts_varying (stf : Z → list heat) (balls : list Z)
    (c : consistency) (v : varying_entry) :
  v ∈ varying (fold_left (λ c b, add_verdict c b (stf b)) balls c) ↔
  v ∈ varying c ∨
  ∃ b, b ∈ balls ∧ length (remove_dups (stf b)) ≠ 1%nat ∧
       v = {| ball := b; statuses := stf b;
              trend := _determine_heat_trend (stf b) |}.
Proof.
  revert c. induction balls as [|b balls IH]; intros c; cbn [fold_left].
  - split; [by left|]. intros [?|(b & Hb & _)]; [done|].
    by apply elem_of_nil in Hb.
  - rewrite IH, add_verdict_varying. split.
    + intros [[?|[? ?]]|(b' & ? & ? & ?)]; [by left|right..].
      * exists b. split; [by left|done].
      * exists b'. split; [by right|done].
    + intros [?|(b' & [->|?]%elem_of_cons & ? & ?)];
        [left; by left|left; by right|right; by exists b'].
Qed.

Lemma heat_values_adjacent (rel : Z → Z → bool) (st : list heat) :
  all_adjacent rel (map heat_value st) = true ↔
  ∀ i a b, st !! i = Some a → st !! S i = Some b →
           rel (heat_value a) (heat_value b) = true.
Proof.
  rewrite all_adjacent_lookup.
  change (map heat_value st) with (heat_value <$> st). split.
  - intros H i a b Hi Hj. apply (H i); by rewrite list_lookup_fmap, ?Hi, ?Hj.
  - intros H i a b Hi Hj. rewrite list_lookup_fmap in Hi, Hj.
    destruct (st !! i) as [a'|] eqn:Ha; [|done].
    destruct (st !! S i) as [b'|] eqn:Hb; [|done].
    injection Hi as <-. injection Hj as <-. by apply (H i).
Qed.

Lemma adjacent_equal_uniform (st : list heat) :
  st ≠ [] →
  (∀ i a b, st !! i = Some a → st !! S i = Some b → a = b) →
  length (remove_dups st) = 1%nat.
Proof.
  intros Hne Hadj. apply uniform_statuses.
  destruct st as [|s st]; [done|]. exists s. split; [done|].
  clear Hne. revert s Hadj. induction st as [|s' st IH]; intros s Hadj.
  - by constructor.
  - assert (s = s') as <- by by apply (Hadj 0%nat).
    constructor; [done|]. apply IH.
    intros i a b Hi Hj. by apply (Hadj (S i)).
Qed.

Lemma heat_value_inj (a b : heat) : heat_value a = heat_value b → a = b.
Proof. by destruct a, b. Qed.

Lemma heat_trend_of_varying (st : list heat) :
  (2 <= length st)%nat →
  length (remove_dups st) ≠ 1%nat →
  (_determine_heat_trend st = HeatingUp ↔
     ∀ i a b, st !! i = Some a → st !! S i = Some b →
              heat_value a <= heat_value b) ∧
  (_determine_heat_trend st = CoolingDown ↔
     ∀ i a b, st !! i = Some a → st !! S i = Some b →
              heat_value b <= heat_value a) ∧
  _determine_heat_trend st ≠ HeatInsufficient.
Proof.
  intros Hlen Hvar. unfold _determine_heat_trend.
  assert ((length st <? 2)%nat = false) as -> by (apply Nat.ltb_ge; lia).
  pose proof (heat_values_adjacent Z.leb st) as Hup.
  pose proof (heat_values_adjacent Z.geb st) as Hdown.
  assert (¬ ((∀ i a b, st !! i = Some a → st !! S i = Some b →
                       heat_value a <= heat_value b) ∧
             (∀ i a b, st !! i = Some a → st !! S i = Some b →
                       heat_value b <= heat_value a))) as Hboth.
  { intros [Hle Hge]. apply Hvar, adjacent_equal_uniform.
    - destruct st; [simpl in Hlen; lia|done].
    - intros i a b Hi Hj. apply heat_value_inj.
      pose proof (Hle i a b Hi Hj). pose proof (Hge i a b Hi Hj). lia. }
  assert ((∀ i a b, st !! i = Some a → st !! S i = Some b →
                    Z.leb (heat_value a) (heat_value b) = true) ↔
          (∀ i a b, st !! i = Some a → st !! S i = Some b →
                    heat_value a <= heat_value b)) as Hle.
  { by setoid_rewrite Z.leb_le. }
  assert ((∀ i a b, st !! i = Some a → st !! S i = Some b →
                    Z.geb (heat_value a) (heat_value b) = true) ↔
          (∀ i a b, st !! i = Some a → st !! S i = Some b →
                    heat_value b <= heat_value a)) as Hge.
  { by setoid_rewrite Z.geb_le. }
  rewrite Hle in Hup. rewrite Hge in Hdown.
  destruct (all_adjacent Z.leb (map heat_value st)),
           (all_adjacent Z.geb (map heat_value st));
    split_and!; try done; naive_solver.
Qed.

(** X16. Over at least two windows, every entry of the varying list is
    about a number of 1..33, carries the status each window gives that number,
    in the order of the windows, and these statuses are not all the same; its
    trend is never 'insufficient data': it is HeatingUp exactly when the heat
    never drops from one window to the next, CoolingDown exactly when it never
    rises, and fluctuating otherwise. *)
Theorem varying_entries_described (window_results : list window_data) :
  (2 <= length window_results)%nat →
  ∃ c, _analyze_cross_window_consistency window_results = Consistency c ∧
    ∀ v, v ∈ varying c →
      1 <= ball v <= 33 ∧
      statuses v = (λ wd, window_status wd (ball v)) <$> window_results ∧
      (∃ wd wd', wd ∈ window_results ∧ wd' ∈ window_results ∧
                 window_status wd (ball v) ≠ window_status wd' (ball v)) ∧
      (trend v = HeatingUp ↔
         ∀ i a b, statuses v !! i = Some a → statuses v !! S i = Some b →
                  heat_value a <= heat_value b) ∧
      (trend v = CoolingDown ↔
         ∀ i a b, statuses v !! i = Some a → statuses v !! S i = Some b →
                  heat_value b <= heat_value a) ∧
      trend v ≠ HeatInsufficient.
Proof.
  intros Hlen. unfold _analyze_cross_window_consistency.
  destruct (_ <? _)%nat eqn:Hlt; [apply Nat.ltb_lt in Hlt; lia|].
  eexists. split; [reflexivity|]. cbn [varying].
  intros v Hv. apply verdicts_varying in Hv as [Hv|(b & Hb & Hvar & ->)].
  { by apply elem_of_nil in Hv. }
  apply elem_of_py_range in Hb. cbn [ball statuses trend].
  rewrite collect_statuses_lookup in * by lia. cbn [default] in *.
  set (st := (λ wd, window_status wd b) <$> window_results) in *.
  assert (length st = length window_results) as Hst by apply length_fmap.
  assert (∃ wd wd', wd ∈ window_results ∧ wd' ∈ window_results ∧
                    window_status wd b ≠ window_status wd' b) as Hdiff.
  { destruct window_results as [|wd0 wrs]; [simpl in Hlen; lia|].
    destruct (decide (Forall (λ wd, window_status wd0 b = window_status wd b)
                        (wd0 :: wrs))) as [Hall|Hex].
    - exfalso. apply Hvar, uniform_statuses. exists (window_status wd0 b).
      split; [done|]. unfold st. by apply Forall_fmap.
    - apply not_Forall_Exists, Exists_exists in Hex as (wd' & Hwd' & Hne);
        [|apply _].
      exists wd0, wd'. split_and!; [by left|done|done]. }
  destruct (heat_trend_of_varying st) as (Hup & Hdown & Hins); [lia|done|].
  split; [lia|]. split; [done|]. split; [exact Hdiff|].
  split; [exact Hup|]. split; [exact Hdown|exact Hins].
Qed.

Lemma varying_entries_described_witness :
  ∃ c, _analyze_cross_window_consistency sample_windows = Consistency c ∧
    ∀ v, v ∈ varying c →
      1 <= ball v <= 33 ∧
      statuses v = (λ wd, window_status wd (ball v)) <$> sample_windows ∧
      (∃ wd wd', wd ∈ sample_windows ∧ wd' ∈ sample_windows ∧
                 window_status wd (ball v) ≠ window_status wd' (ball v)) ∧
      (trend v = HeatingUp ↔
         ∀ i a b, statuses v !! i = Some a → statuses v !! S i = Some b →
                  heat_value a <= heat_value b) ∧
      (trend v = CoolingDown ↔
         ∀ i a b, statuses v !! i = Some a → statuses v !! S i = Some b →
                  heat_value b <= heat_value a) ∧
      trend v ≠ HeatInsufficient.
Proof.
  apply (varying_entries_described sample_windows). simpl. lia.
Defined.

(** ** The trend of a repeat-count bucket across windows *)

(** X17. [_determine_trend_type] answers 'insufficient' for fewer than two
    probabilities and 'incomplete' unless exactly four of the ordered windows
    have one. With four values that are not NaN, [hi] the largest and [lo]
    the smallest, it answers Increasing exactly when they never decrease and
    [hi - lo] exceeds 0.02, Decreasing exactly when they never increase and
    [hi - lo] exceeds 0.02, Stable exactly when [hi - lo] is at most 0.02, and
    Oscillating in every other case. The difference and the comparisons are
    those of binary64, and 0.02 is the float that the literal denotes. *)
Theorem repeat_trend_type_described (probabilities : gmap string float)
    (window_order : list string) :
  let values := ordered_values probabilities window_order in
  let trend := _determine_trend_type probabilities window_order in
  ((size probabilities < 2)%nat → trend = TrendInsufficient) ∧
  ((2 <= size probabilities)%nat → length values ≠ 4%nat →
   trend = TrendIncomplete) ∧
  ((2 <= size probabilities)%nat → length values = 4%nat →
   Forall not_nan values →
   ∃ hi lo,
     hi ∈ values ∧ lo ∈ values ∧
     (∀ x, x ∈ values →
           (lo <=? x)%float = true ∧ (x <=? hi)%float = true) ∧
     (trend = TrendIncreasing ↔
        nondecreasing values ∧ (0.02 <? hi - lo)%float = true) ∧
     (trend = TrendDecreasing ↔
        nonincreasing values ∧ (0.02 <? hi - lo)%float = true) ∧
     (trend = TrendStable ↔ (hi - lo <=? 0.02)%float = true) ∧
     (trend = TrendOscillating ↔
        (hi - lo <=? 0.02)%float = false ∧
        ¬ ((nondecreasing values ∨ nonincreasing values) ∧
           (0.02 <? hi - lo)%float = true))).
Proof.
  intros values trend. subst trend. unfold _determine_trend_type.
  fold values. split; [|split].
  - intros Hsize. by apply Nat.ltb_lt in Hsize as ->.
  - intros Hsize Hlen. apply Nat.ltb_ge in Hsize as ->.
    by apply Nat.eqb_neq in Hlen as ->.
  - intros Hsize Hlen Hnan. apply Nat.ltb_ge in Hsize as ->.
    rewrite (proj2 (Nat.eqb_eq _ _) Hlen).
    destruct values as [|p ps]; [done|].
    destruct (spread_facts p ps 0.02 Hnan eq_refl)
      as (Hhi & Hlo & Hbounds & Hinc & Hdec & Hconst).
    exists (py_max p ps), (py_min p ps).
    split_and!; [done|done|done|..];
      set (d := (py_max p ps - py_min p ps)%float) in *;
      pose proof (threshold_gap d 0.02 0.02 eq_refl) as Hgap;
      destruct (all_adjacent PrimFloat.leb (p :: ps)),
               (all_adjacent (λ a b, PrimFloat.leb b a) (p :: ps)),
               (0.02 <? d)%float, (d <=? 0.02)%float; simpl;
      split; try discriminate; intuition (discriminate || auto).
Qed.

(** At the threshold the comparison is that of binary64: the floats 0.52
    and 0.5 differ by more than the float 0.02. *)
Example repeat_trend_at_the_threshold :
  _determine_trend_type
    (<["short_term" := 0.5%float]> (<["medium_term" := 0.5%float]>
       (<["long_term" := 0.5%float]> (<["all_history" := 0.52%float]> ∅))))
    ["short_term"; "medium_term"; "long_term"; "all_history"]
  = TrendIncreasing.
Proof. vm_compute. reflexivity. Qed.

(** ** More on the repeat statistics of a window *)

Lemma Qfrac_bounds (a n : Z) :
  0 <= a <= n → 0 < n →
  (0 <= inject_Z a / inject_Z n)%Q ∧ (inject_Z a / inject_Z n <= 1)%Q.
Proof.
  intros Ha Hn.
  assert (0 < inject_Z n)%Q as Hn'.
  { change 0%Q with (inject_Z 0). by rewrite <- Zlt_Qlt. }
  split.
  - apply Qle_shift_div_l; [done|]. rewrite Qmult_0_l.
    change 0%Q with (inject_Z 0). rewrite <- Zle_Qle. lia.
  - apply Qle_shift_div_r; [done|]. rewrite Qmult_1_l.
    rewrite <- Zle_Qle. lia.
Qed.

Lemma blue_repeats_sum (pairs : list (DoubleBallRecord * DoubleBallRecord)) :
  py_sum (map (λ p, blue_repeat p.1 p.2) pairs) =
  Z.of_nat (length (filter (λ p, blue p.1 = blue p.2) pairs)).
Proof.
  induction pairs as [|[a b] pairs IH]; [done|].
  cbn [map]. rewrite py_sum_cons, IH, filter_cons. unfold blue_repeat.
  cbn [fst snd]. destruct (Z.eqb_spec (blue a) (blue b)); case_decide;
    try done; cbn [length]; lia.
Qed.

(** The fields of the statistics of a window of at least two draws. *)
Lemma repeat_stats_fields (self : ProbabilityAnalyzer.t) (window_name : string)
    (current_record : DoubleBallRecord) (period_data : list DoubleBallRecord) :
  (2 <= length period_data)%nat →
  is_Some (window_config self !! window_name) →
  let n := Z.of_nat (length period_data) - 1 in
  ∃ stats,
    _calculate_window_repeat_stats self window_name current_record period_data
      = Ok stats ∧
    ProbabilityAnalyzer.window_name stats = window_name ∧
    effective_periods stats = Z.of_nat (length period_data) ∧
    total_pairs stats = n ∧
    period_limit stats = mjoin (window_config self !! window_name) ∧
    blue_repeat_probability stats =
      (inject_Z (pairs_same_blue period_data) / inject_Z n)%Q ∧
    ∀ k, repeat_distribution stats !! k =
         if decide (0 <= k <= 6)
         then Some (inject_Z (pairs_sharing k period_data) / inject_Z n)%Q
         else None.
Proof.
  intros Hlen [limit Hcfg] n.
  unfold _calculate_window_repeat_stats. fold n.
  set (rc := map (λ p, repeat_count p.1 p.2) (adjacent_pairs period_data)).
  assert (0 < n) as Hn by (unfold n; lia).
  assert ((0 <? n) = true) as -> by (by apply Z.ltb_lt).
  rewrite distribution_loop_ok, py_truediv_ok by done.
  destruct (current_predictions_ok current_record period_data) as [p ->].
  unfold config_item. rewrite Hcfg. cbn [mbind py_bind mret py_ret].
  eexists. split; [reflexivity|].
  cbn [ProbabilityAnalyzer.window_name effective_periods total_pairs
       period_limit blue_repeat_probability repeat_distribution mjoin
       option_join].
  split; [done|]. split; [done|]. split; [done|]. split; [done|]. split.
  - by rewrite pairs_same_blue_model, blue_repeats_sum.
  - intros k.
    rewrite (fill_lookup (λ c, (inject_Z (counter_get c (Counter rc)) /
                                inject_Z n)%Q)).
    destruct (decide (0 <= k <= 6)) as [Hk|Hk].
    + rewrite decide_True by (apply elem_of_py_range; lia).
      rewrite pairs_sharing_model. unfold rc.
      by rewrite Counter_get, (filter_fmap_length (λ p, repeat_count p.1 p.2)).
    + rewrite decide_False by (rewrite elem_of_py_range; lia). done.
Qed.

(** X19. On a window of at least two draws, the bonus repeat probability
    is the number of adjacent pairs with the same bonus number divided by the
    number of pairs; it and every probability of the distribution lie between
    0 and 1. *)
Theorem repeat_probabilities_bounded (self : ProbabilityAnalyzer.t)
    (window_name : string) (current_record : DoubleBallRecord)
    (period_data : list DoubleBallRecord) :
  (2 <= length period_data)%nat →
  is_Some (window_config self !! window_name) →
  ∃ stats,
    _calculate_window_repeat_stats self window_name current_record period_data
      = Ok stats ∧
    blue_repeat_probability stats =
      (inject_Z (pairs_same_blue period_data) /
       inject_Z (Z.of_nat (length period_data) - 1))%Q ∧
    (0 <= blue_repeat_probability stats)%Q ∧
    (blue_repeat_probability stats <= 1)%Q ∧
    ∀ k p, repeat_distribution stats !! k = Some p →
           (0 <= p)%Q ∧ (p <= 1)%Q.
Proof.
  intros Hlen Hcfg.
  destruct (repeat_stats_fields self window_name current_record period_data
              Hlen Hcfg) as (stats & Hok & _ & _ & _ & _ & Hblue & Hdist).
  exists stats. split; [done|]. split; [done|].
  assert (0 < Z.of_nat (length period_data) - 1) as Hn by lia.
  assert (∀ P : DoubleBallRecord * DoubleBallRecord → Prop,
            ∀ Hdec : ∀ p, Decision (P p),
            0 <= Z.of_nat (length (filter P (adjacent_pairs period_data)))
              <= Z.of_nat (length period_data) - 1) as Hfilter.
  { intros P Hdec.
    pose proof (length_filter P (adjacent_pairs period_data)) as Hle.
    rewrite length_adjacent_pairs in Hle. lia. }
  rewrite Hblue.
  destruct (Qfrac_bounds (pairs_same_blue period_data)
              (Z.of_nat (length period_data) - 1)) as [H0 H1];
    [rewrite pairs_same_blue_model; apply Hfilter|done|].
  split; [done|]. split; [done|].
  intros k p Hp. rewrite Hdist in Hp. case_decide; [|done].
  injection Hp as <-.
  apply Qfrac_bounds; [rewrite pairs_sharing_model; apply Hfilter|done].
Qed.

Lemma repeat_probabilities_bounded_witness :
  ∃ stats,
    _calculate_window_repeat_stats sample_probability_analyzer "short_term"
      (draw 3 1 2 3 4 5 6 1) sample_draws = Ok stats ∧
    blue_repeat_probability stats =
      (inject_Z (pairs_same_blue sample_draws) /
       inject_Z (Z.of_nat (length sample_draws) - 1))%Q ∧
    (0 <= blue_repeat_probability stats)%Q ∧
    (blue_repeat_probability stats <= 1)%Q ∧
    ∀ k p, repeat_distribution stats !! k = Some p →
           (0 <= p)%Q ∧ (p <= 1)%Q.
Proof.
  apply (repeat_probabilities_bounded sample_probability_analyzer
           "short_term" (draw 3 1 2 3 4 5 6 1) sample_draws).
  - simpl. lia.
  - exists (Some 30). reflexivity.
Defined.

(** ** The windows the repeat analysis reports *)

Lemma length_window_period_data (limit : option Z) (window_name : string)
    (all_records : list DoubleBallRecord) (total_records : Z) :
  (length (window_period_data limit window_name all_records total_records)
   <= length all_records)%nat.
Proof.
  unfold window_period_data. destruct limit as [l|]; [|done].
  destruct (String.eqb window_name "all_history"); [done|].
  unfold py_slice_from. rewrite length_drop. lia.
Qed.

(** X20. A combined result of [analyze_current_period_probability] echoes
    the current draw and the number of stored draws (at least two), and
    reports nothing it was not asked for: every entry of 'window_analysis'
    belongs to a window of the group that the analyzer has a configuration
    for, carries that window's name and configured size, and was computed
    from at least two and at most all of the stored draws, with one pair
    fewer than draws. *)
Theorem reported_windows_are_requested (self : ProbabilityAnalyzer.t)
    (current_record : DoubleBallRecord) (window_group : option (list string))
    (c : combined) :
  analyze_current_period_probability self (Some current_record) window_group
    = Ok (Combined c) →
  current_period c = issue current_record ∧
  current_reds c = reds current_record ∧
  current_blue c = blue current_record ∧
  total_records c =
    Z.of_nat (length (DoubleBallDatabase.get_all_records (db self) None)) ∧
  2 <= total_records c ∧
  ∀ name stats,
    window_analysis c !! name = Some stats →
    name ∈ default default_window_group window_group ∧
    window_config self !! name = Some (period_limit stats) ∧
    ProbabilityAnalyzer.window_name stats = name ∧
    2 <= effective_periods stats <= total_records c ∧
    total_pairs stats = effective_periods stats - 1.
Proof.
  unfold analyze_current_period_probability.
  set (all_records := DoubleBallDatabase.get_all_records (db self) None).
  set (total := Z.of_nat (length all_records)).
  destruct (total <? 2) eqn:Htotal; [done|].
  apply Z.ltb_ge in Htotal.
  rewrite window_loop. cbn [mbind py_bind mret py_ret].
  intros [= <-].
  cbn [current_period current_reds current_blue total_records
       window_analysis].
  split_and!; try done.
  intros name stats. rewrite window_results_lookup, lookup_empty.
  case_decide as Hname; [|done].
  unfold window_outcome.
  destruct (window_config self !! name) as [limit|] eqn:Hcfg; [|done].
  set (period_data := window_period_data limit name all_records total).
  pose proof (length_window_period_data limit name all_records total) as Hle.
  fold period_data in Hle.
  destruct (length period_data <? 2)%nat eqn:Hlen; [done|].
  apply Nat.ltb_ge in Hlen.
  destruct (repeat_stats_fields self name current_record period_data Hlen)
    as (stats' & Hok & Hname' & Heff & Hpairs & Hlimit & _); [by eexists|].
  rewrite Hok. intros [= <-].
  split; [done|]. split; [by rewrite Hlimit, Hcfg|].
  split; [done|]. rewrite Hpairs, Heff. unfold total. lia.
Qed.

Lemma reported_windows_are_requested_witness :
  ∃ c,
    analyze_current_period_probability one_draw_window_analyzer
      (Some (draw 3 1 2 3 4 5 6 1)) None = Ok (Combined c) ∧
    total_records c = 3 ∧
    ∀ name stats,
      window_analysis c !! name = Some stats →
      name ∈ default_window_group ∧
      2 <= effective_periods stats <= total_records c.
Proof.
  eexists. split; [vm_compute; reflexivity|].
  edestruct (reported_windows_are_requested one_draw_window_analyzer
               (draw 3 1 2 3 4 5 6 1) None)
    as (_ & _ & _ & Htotal & _ & Hwindows); [vm_compute; reflexivity|].
  split; [exact Htotal|].
  intros name stats Hstats.
  destruct (Hwindows name stats Hstats) as (Hname & _ & _ & Heff & _).
  split; [exact Hname|exact Heff].
Defined.

(** ** Frequencies of the main numbers *)

Lemma mapM_py_map {A B} (f : A → py B) (g : A → B) (l : list A) :
  (∀ x, f x = Ok (g x)) → mapM f l = Ok (map g l).
Proof.
  intros Hf. induction l as [|x l IH]; [done|].
  cbn [mapM map]. by rewrite Hf, IH.
Qed.

Lemma Qsum_acc (l : list Q) (acc : Q) :
  (fold_left Qplus l acc == acc + fold_left Qplus l 0)%Q.
Proof.
  revert acc. induction l as [|x l IH]; intros acc; cbn [fold_left].
  - ring.
  - rewrite (IH (acc + x)%Q), (IH (0 + x)%Q). ring.
Qed.

Lemma Qsum_scaled (d : Q) (l : list Z) :
  (fold_left Qplus (map (λ c, inject_Z c / d) l) 0 ==
   inject_Z (py_sum l) / d)%Q.
Proof.
  induction l as [|x l IH]; cbn [map fold_left].
  - change (inject_Z (py_sum [])) with 0%Q. unfold Qdiv. ring.
  - rewrite Qsum_acc, IH, py_sum_cons, inject_Z_plus. unfold Qdiv. ring.
Qed.

Lemma Qsum_foldr (l : list Q) :
  (foldr Qplus 0 l == fold_left Qplus l 0)%Q.
Proof.
  induction l as [|x l IH]; cbn [foldr fold_left]; [done|].
  rewrite Qsum_acc, IH. ring.
Qed.

Lemma frequencies_mapM (counts : list (Z * Z)) (n : Z) :
  mapM (λ '(ball, count),
          if 0 <? n then
            p ← py_truediv (inject_Z count) (inject_Z n);
            mret (ball, binary64_nearest p)
          else mret (ball, 0%Q))
       counts =
  Ok (map (λ e, (e.1, if 0 <? n
                      then binary64_nearest (inject_Z e.2 / inject_Z n)
                      else 0%Q))
          counts).
Proof.
  apply mapM_py_map. intros [ball count]. cbn [fst snd].
  destruct (Z.ltb_spec 0 n) as [Hpos|Hzero]; [|done].
  by rewrite py_truediv_ok.
Qed.

Lemma occurrences_range (ball : Z) (records : list DoubleBallRecord) :
  0 <= occurrences ball records <= 6 * Z.of_nat (length records).
Proof.
  unfold occurrences.
  pose proof (length_filter (λ b, b = ball) (records ≫= reds)) as Hle.
  rewrite length_all_reds in Hle. lia.
Qed.

(** X21. [_count_red_balls_with_frequency] never divides by zero. It
    returns the table of [_count_red_balls] and, in the same order, one
    frequency for each of its numbers: the float nearest to the number's
    occurrences divided by the number of draws, or 0 when there is no draw.
    Over at least one draw, the draws being valid, the frequencies add up to
    6, the count of main numbers of a draw, within 1e-9, whether the floats
    are added exactly or from left to right with every addition rounded. *)
Theorem frequencies_follow_counts (records : list DoubleBallRecord) :
  ∃ red_frequencies,
    _count_red_balls_with_frequency records =
      Ok (_count_red_balls records, red_frequencies) ∧
    red_frequencies.*1 = (_count_red_balls records).*1 ∧
    (∀ ball f, (ball, f) ∈ red_frequencies →
       f = if decide (records = []) then 0%Q
           else binary64_nearest
                  (inject_Z (occurrences ball records) /
                   inject_Z (Z.of_nat (length records)))) ∧
    (records ≠ [] → Forall valid_reds records →
     (Qabs (foldr Qplus 0 red_frequencies.*2 - 6) <= 1 # 1000000000)%Q ∧
     (Qabs (float_sum red_frequencies.*2 - 6) <= 1 # 1000000000)%Q).
Proof.
  unfold _count_red_balls_with_frequency.
  rewrite frequencies_mapM. cbn [mbind py_bind mret py_ret].
  assert (records ≠ [] → 0 < Z.of_nat (length records)) as Hpos.
  { clear. intros Hne. destruct records; [by destruct Hne|].
    cbn [length]. lia. }
  assert (records = [] → Z.of_nat (length records) = 0) as Hzero.
  { clear. by intros ->. }
  pose proof (count_red_balls_NoDup records) as Hnd.
  pose proof (count_red_balls_get records) as Hget.
  assert (py_sum (_count_red_balls records).*2 =
          6 * Z.of_nat (length records)) as Hsum.
  { clear. unfold _count_red_balls, zero_fill.
    rewrite fill_sum, count_records_flat, count_balls_sum, length_all_reds.
    cbn. lia. }
  assert (Forall valid_reds records →
          length (_count_red_balls records) = 33%nat) as Hlen.
  { clear. intros Hvalid.
    rewrite <- (length_fmap fst),
      (Permutation_length (count_red_balls_keys_valid records Hvalid)).
    reflexivity. }
  pose proof (λ ball, occurrences_range ball records) as Hocc.
  generalize dependent (_count_red_balls records).
  intros counts Hnd Hget Hsum Hlen.
  generalize dependent (Z.of_nat (length records)).
  intros n Hpos Hzero Hocc Hsum.
  eexists. split; [reflexivity|]. split; [|split].
  - clear. induction counts as [|[ball count] counts IH]; [done|].
    cbn [map fmap list_fmap fst]. f_equal. exact IH.
  - intros ball f Hin.
    apply list_elem_of_fmap in Hin as ([b count] & [= -> ->] & Hin).
    cbn [fst snd].
    rewrite <- (Hget b), (counter_get_elem _ b count Hnd Hin).
    case_decide as Hempty.
    + by rewrite (Hzero Hempty).
    + by apply Hpos, Z.ltb_lt in Hempty as ->.
  - intros Hne Hvalid. specialize (Hpos Hne). specialize (Hlen Hvalid).
    assert (¬ (inject_Z n == 0)%Q) as Hn0.
    { change 0%Q with (inject_Z 0). rewrite inject_Z_injective. lia. }
    assert ((map (λ e : Z * Z,
                    (e.1, if 0 <? n
                          then binary64_nearest (inject_Z e.2 / inject_Z n)
                          else 0%Q)) counts).*2 =
            binary64_nearest <$>
              map (λ c, (inject_Z c / inject_Z n)%Q) counts.*2) as ->.
    { apply Z.ltb_lt in Hpos as ->. clear.
      induction counts as [|[ball count] counts IH]; [done|].
      cbn [map fmap list_fmap snd]. f_equal. exact IH. }
    apply probabilities_sum_in_floats.
    + rewrite length_map, length_fmap, Hlen. lia.
    + rewrite Forall_forall. intros p Hp.
      apply list_elem_of_fmap in Hp as (c & -> & Hc).
      apply list_elem_of_fmap in Hc as ([b count] & -> & Hin).
      cbn [snd].
      pose proof (Hocc b) as Hb.
      rewrite <- (Hget b), (counter_get_elem _ b count Hnd Hin) in Hb.
      assert (0 < inject_Z n)%Q as Hnq.
      { change 0%Q with (inject_Z 0). rewrite <- Zlt_Qlt. lia. }
      split.
      * apply Qle_shift_div_l; [done|]. rewrite Qmult_0_l.
        change 0%Q with (inject_Z 0). rewrite <- Zle_Qle. lia.
      * apply Qle_shift_div_r; [done|].
        change 6%Q with (inject_Z 6). rewrite <- inject_Z_mult, <- Zle_Qle. lia.
    + rewrite Qsum_foldr, Qsum_scaled, Hsum, inject_Z_mult.
      change (inject_Z 6) with 6%Q. by field.
Qed.

(** ** The predictions for the current draw *)

Lemma similar_test (current_reds : list Z) (record : DoubleBallRecord) :
  (0 <? size (list_to_set current_reds ∩ list_to_set (reds record) : gset Z))%nat
  = bool_decide (Exists (λ x, x ∈ reds record) current_reds).
Proof.
  destruct (Nat.ltb_spec 0
    (size (list_to_set current_reds ∩ list_to_set (reds record) : gset Z)))
    as [Hpos|Hzero]; symmetry.
  - apply bool_decide_eq_true, Exists_exists.
    apply size_pos_elem_of in Hpos as [x Hx]. exists x. set_solver.
  - apply bool_decide_eq_false. rewrite Exists_exists. intros (x & Hx & Hx').
    assert (x ∈ (list_to_set current_reds ∩ list_to_set (reds record)
                 : gset Z)) as Hin by set_solver.
    apply Nat.le_0_r, size_empty_iff in Hzero. set_solver.
Qed.

Lemma prediction_counts (current_reds : list Z) (repeat_reds : gset Z)
    (m : gmap Z Z) (k : Z) :
  NoDup current_reds →
  fold_left (λ m red,
               if decide (red ∈ repeat_reds) then alter Z.succ red m else m)
            current_reds m !! k =
  if decide (k ∈ current_reds ∧ k ∈ repeat_reds) then Z.succ <$> m !! k
  else m !! k.
Proof.
  intros Hnd. revert m.
  induction Hnd as [|r rs Hr Hnd IH]; intros m; cbn [fold_left].
  - rewrite decide_False; [done|]. rewrite elem_of_nil. tauto.
  - rewrite IH. destruct (decide (k = r)) as [->|Hne].
    + rewrite (decide_False (P := r ∈ rs ∧ _)) by tauto.
      destruct (decide (r ∈ repeat_reds)) as [Hin|Hout].
      * rewrite lookup_alter_eq, decide_True; [done|]. split; [by left|done].
      * rewrite decide_False; [done|]. tauto.
    + assert ((if decide (r ∈ repeat_reds) then alter Z.succ r m else m) !! k
              = m !! k) as ->.
      { destruct (decide (r ∈ repeat_reds)); [|done].
        by rewrite lookup_alter_ne by congruence. }
      destruct (decide (k ∈ rs ∧ k ∈ repeat_reds)) as [[H1 H2]|Hn].
      * rewrite decide_True; [done|]. split; [by right|done].
      * rewrite decide_False; [done|]. rewrite elem_of_cons. tauto.
Qed.

Lemma compare_pair_similar (current_reds : list Z) (s : similar)
    (record next_record : DoubleBallRecord) :
  Exists (λ x, x ∈ reds record) current_reds →
  compare_pair current_reds s (record, next_record) =
  {| similar_repeat_counts :=
       similar_repeat_counts s ++ [repeat_count record next_record];
     similar_blue_repeats :=
       similar_blue_repeats s ++ [blue_repeat record next_record];
     red_repeat_predictions :=
       fold_left
         (λ m red,
            if decide (red ∈ repeat_reds record next_record)
            then alter Z.succ red m else m)
         current_reds (red_repeat_predictions s);
     total_comparisons := total_comparisons s + 1 |}.
Proof.
  intros Hsim. unfold compare_pair.
  by rewrite similar_test, bool_decide_eq_true_2.
Qed.

Lemma compare_pair_other (current_reds : list Z) (s : similar)
    (record next_record : DoubleBallRecord) :
  ¬ Exists (λ x, x ∈ reds record) current_reds →
  compare_pair current_reds s (record, next_record) = s.
Proof.
  intros Hsim. unfold compare_pair.
  by rewrite similar_test, bool_decide_eq_false_2.
Qed.

Lemma compare_loop_lists (current_reds : list Z)
    (pairs : list (DoubleBallRecord * DoubleBallRecord)) (s : similar) :
  let sim := filter (λ p, Exists (λ x, x ∈ reds p.1) current_reds) pairs in
  let s' := fold_left (compare_pair current_reds) pairs s in
  total_comparisons s' = total_comparisons s + Z.of_nat (length sim) ∧
  similar_repeat_counts s' =
    similar_repeat_counts s ++ map (λ p, repeat_count p.1 p.2) sim ∧
  similar_blue_repeats s' =
    similar_blue_repeats s ++ map (λ p, blue_repeat p.1 p.2) sim.
Proof.
  revert s. induction pairs as [|[record next_record] pairs IH]; intros s.
  - cbn [fold_left]. rewrite filter_nil. cbn [map length].
    rewrite !app_nil_r. split_and!; try done; lia.
  - cbn [fold_left]. cbv zeta in IH |- *.
    destruct (IH (compare_pair current_reds s (record, next_record)))
      as (-> & -> & ->).
    destruct (decide (Exists (λ x, x ∈ reds record) current_reds)) as [Hs|Hs].
    + rewrite filter_cons_True by done.
      rewrite compare_pair_similar by done.
      cbn [total_comparisons similar_repeat_counts similar_blue_repeats
           map length fst snd].
      rewrite <- !app_assoc. cbn [app]. split_and!; try done; lia.
    + rewrite filter_cons_False by done.
      by rewrite compare_pair_other by done.
Qed.

Lemma compare_loop_predictions (current_reds : list Z)
    (pairs : list (DoubleBallRecord * DoubleBallRecord)) (s : similar)
    (k : Z) :
  NoDup current_reds →
  let sim := filter (λ p, Exists (λ x, x ∈ reds p.1) current_reds) pairs in
  red_repeat_predictions (fold_left (compare_pair current_reds) pairs s) !! k
  = if decide (k ∈ current_reds) then
      (λ v, v + Z.of_nat (length (filter (λ p, k ∈ repeat_reds p.1 p.2) sim)))
        <$> red_repeat_predictions s !! k
    else red_repeat_predictions s !! k.
Proof.
  intros Hnd. revert s.
  induction pairs as [|[record next_record] pairs IH]; intros s.
  - cbn [fold_left]. rewrite !filter_nil. cbn [length].
    case_decide; [|done]. destruct (_ !! k) as [v|]; [|done].
    cbn. f_equal. lia.
  - cbn [fold_left]. cbv zeta in IH |- *. rewrite IH.
    destruct (decide (Exists (λ x, x ∈ reds record) current_reds)) as [Hs|Hs].
    + rewrite (filter_cons_True (λ p, Exists _ current_reds)) by done.
      rewrite compare_pair_similar by done. cbn [red_repeat_predictions].
      rewrite prediction_counts by done.
      destruct (decide (k ∈ current_reds)) as [Hk|Hk];
        [|by rewrite decide_False by tauto].
      destruct (decide (k ∈ repeat_reds record next_record)) as [Hin|Hout].
      * rewrite filter_cons_True by done. rewrite decide_True by done.
        destruct (_ !! k) as [v|]; [|done]. cbn. f_equal. lia.
      * rewrite filter_cons_False by done. rewrite decide_False by tauto.
        done.
    + rewrite (filter_cons_False (λ p, Exists _ current_reds)) by done.
      by rewrite compare_pair_other by done.
Qed.

Lemma fill_constant_lookup {V} (v : V) (keys : list Z) (m : gmap Z V) (k : Z) :
  fold_left (λ m key, <[key := v]> m) keys m !! k =
  if decide (k ∈ keys) then Some v else m !! k.
Proof.
  revert m. induction keys as [|x keys IH]; intros m; cbn [fold_left].
  - by rewrite decide_False by apply not_elem_of_nil.
  - rewrite IH. destruct (decide (k ∈ keys)) as [Hin|Hout].
    + by rewrite decide_True by (by right).
    + destruct (decide (k = x)) as [->|Hne].
      * rewrite lookup_insert_eq. by rewrite decide_True by (by left).
      * rewrite lookup_insert_ne by congruence.
        rewrite decide_False; [done|]. rewrite elem_of_cons. tauto.
Qed.

Lemma mean_of_nonempty (l : list Z) (n : Z) :
  l ≠ [] → 0 < n →
  match l with
  | [] => Ok 0%Q
  | z :: l0 => py_truediv (inject_Z (py_sum (z :: l0))) (inject_Z n)
  end = Ok (inject_Z (py_sum l) / inject_Z n)%Q.
Proof. intros Hl Hn. destruct l; [done|]. by apply py_truediv_ok. Qed.

Lemma probabilities_of_counts (m : gmap Z Z) (n : Z) :
  0 < n →
  ∃ probs,
    mapM (λ '(red, count),
            p ← py_truediv (inject_Z count) (inject_Z n); mret (red, p))
         (map_to_list m) = Ok probs ∧
    (list_to_map probs : gmap Z Q) =
      (λ count, (inject_Z count / inject_Z n)%Q) <$> m.
Proof.
  intros Hn. eexists. split.
  - apply (mapM_py_map _
             (prod_map id (λ count, (inject_Z count / inject_Z n)%Q))).
    intros [red count]. by rewrite py_truediv_ok.
  - change (map ?f ?l) with (f <$> l).
    by rewrite list_to_map_fmap, list_to_map_to_list.
Qed.

(** What the loop of [_calculate_current_predictions] computes, in terms of
    the pairs it visits and of the sets it intersects. *)
Lemma current_predictions_computed (current_record : DoubleBallRecord)
    (period_data : list DoubleBallRecord) :
  let sim :=
    filter (λ p, Exists (λ x, x ∈ reds p.1) (reds current_record))
           (adjacent_pairs period_data) in
  let n := Z.of_nat (length sim) in
  ∃ p,
    _calculate_current_predictions current_record period_data = Ok p ∧
    based_on_comparisons p = n ∧
    avg_repeat_count p =
      (if decide (n = 0%Z) then 0
       else inject_Z (py_sum (map (λ q, repeat_count q.1 q.2) sim)) /
            inject_Z n)%Q ∧
    similar_blue_repeat_probability p =
      (if decide (n = 0%Z) then 0
       else inject_Z (Z.of_nat (length
                        (filter (λ q, blue q.1 = blue q.2) sim))) /
            inject_Z n)%Q ∧
    (NoDup (reds current_record) →
     ∀ red,
       red_probabilities p !! red =
       if decide (red ∈ reds current_record) then
         Some (if decide (n = 0%Z) then 0
               else inject_Z (Z.of_nat (length
                      (filter (λ q, red ∈ repeat_reds q.1 q.2) sim))) /
                    inject_Z n)%Q
       else None).
Proof.
  intros sim n. unfold _calculate_current_predictions. cbv zeta.
  set (s0 := {| similar_repeat_counts := []; similar_blue_repeats := [];
                red_repeat_predictions := _; total_comparisons := 0 |}).
  destruct (compare_loop_lists (reds current_record)
              (adjacent_pairs period_data) s0) as (Htotal & Hcounts & Hblues).
  pose proof (λ k Hnd, compare_loop_predictions (reds current_record)
                (adjacent_pairs period_data) s0 k Hnd) as Hpreds.
  cbv zeta in Hpreds.
  fold sim in Htotal, Hcounts, Hblues, Hpreds.
  cbn [total_comparisons similar_repeat_counts similar_blue_repeats
       red_repeat_predictions s0 app] in Htotal, Hcounts, Hblues, Hpreds.
  rewrite Z.add_0_l in Htotal. fold n in Htotal.
  set (s := fold_left _ _ s0) in *. clearbody s. clear s0.
  rewrite Htotal, Hcounts, Hblues.
  destruct (decide (n = 0)) as [Hzero|Hpos].
  - rewrite Hzero. cbn [Z.ltb Z.compare mret py_ret].
    eexists. split; [reflexivity|].
    cbn [based_on_comparisons avg_repeat_count
         similar_blue_repeat_probability red_probabilities].
    split_and!; try done.
    intros _ red. by rewrite fill_constant_lookup, lookup_empty.
  - assert (0 < n) as Hn by (unfold n in *; lia).
    assert (sim ≠ []) as Hne.
    { intros Heq. apply Hpos. unfold n. by rewrite Heq. }
    rewrite (proj2 (Z.ltb_lt 0 n) Hn).
    rewrite !mean_of_nonempty by (done || by destruct sim).
    destruct (probabilities_of_counts (red_repeat_predictions s) n Hn)
      as (probs & -> & Hprobs).
    cbn [mbind py_bind mret py_ret]. eexists. split; [reflexivity|].
    cbn [based_on_comparisons avg_repeat_count
         similar_blue_repeat_probability red_probabilities].
    split_and!; try done.
    + by rewrite blue_repeats_sum.
    + intros Hnd red. rewrite Hprobs, lookup_fmap, Hpreds by done.
      rewrite fill_constant_lookup, lookup_empty.
      case_decide; [|done]. cbn. by rewrite Z.add_0_l.
Qed.

(** X22. [_calculate_current_predictions] never divides by zero. It
    compares the current draw with the pairs of a draw of the window and the
    next one whose first draw has a main number in common with it:
    'based_on_comparisons' is their number [n]. When there is none, every
    prediction is 0. Otherwise the average is the mean, over those pairs, of
    how many main numbers the two draws of the pair have in common, and the
    bonus probability is the share of those pairs with the same bonus number,
    between 0 and 1. When the main numbers of the current draw are distinct,
    the table has an entry exactly for each of them: the share of those pairs
    in which both draws carry that number, between 0 and 1. *)
Theorem current_predictions_described (current_record : DoubleBallRecord)
    (period_data : list DoubleBallRecord) :
  let sim := similar_pairs current_record period_data in
  let n := Z.of_nat (length sim) in
  ∃ p,
    _calculate_current_predictions current_record period_data = Ok p ∧
    based_on_comparisons p = n ∧
    avg_repeat_count p =
      (if decide (n = 0%Z) then 0
       else inject_Z (py_sum (map (λ q, Z.of_nat (length
                                          (shared_numbers q.1 q.2))) sim)) /
            inject_Z n)%Q ∧
    similar_blue_repeat_probability p =
      (if decide (n = 0%Z) then 0
       else inject_Z (Z.of_nat (length
                        (filter (λ q, blue q.1 = blue q.2) sim))) /
            inject_Z n)%Q ∧
    (0 <= similar_blue_repeat_probability p)%Q ∧
    (similar_blue_repeat_probability p <= 1)%Q ∧
    (NoDup (reds current_record) →
     ∀ red q, red_probabilities p !! red = Some q →
              (0 <= q)%Q ∧ (q <= 1)%Q) ∧
    (NoDup (reds current_record) →
     ∀ red,
       red_probabilities p !! red =
       if decide (red ∈ reds current_record) then
         Some (if decide (n = 0%Z) then 0
               else inject_Z (Z.of_nat (length
                      (filter (λ q, red ∈ reds q.1 ∧ red ∈ reds q.2) sim))) /
                    inject_Z n)%Q
       else None).
Proof.
  intros sim n.
  destruct (current_predictions_computed current_record period_data)
    as (p & Hok & Hbased & Havg & Hblue & Hreds).
  cbv zeta in Hbased, Havg, Hblue, Hreds.
  rewrite <- similar_pairs_model in Hbased, Havg, Hblue, Hreds.
  fold sim in Hbased, Havg, Hblue, Hreds. fold n in Hbased, Havg, Hblue, Hreds.
  assert (map (λ q, repeat_count q.1 q.2) sim =
          map (λ q, Z.of_nat (length (shared_numbers q.1 q.2))) sim) as Hshared.
  { apply map_ext. intros [a b]. apply repeat_count_shared. }
  assert (∀ red,
            filter (λ q, red ∈ repeat_reds q.1 q.2) sim =
            filter (λ q, red ∈ reds q.1 ∧ red ∈ reds q.2) sim) as Hboth.
  { intros red. apply list_filter_iff. intros [a b]. apply repeat_reds_elem. }
  rewrite Hshared in Havg.
  assert (∀ P : DoubleBallRecord * DoubleBallRecord → Prop,
            ∀ Hdec : ∀ q, Decision (P q),
            0 <= Z.of_nat (length (filter P sim)) <= n) as Hfilter.
  { intros P Hdec. pose proof (length_filter P sim). unfold n. lia. }
  assert (∀ P : DoubleBallRecord * DoubleBallRecord → Prop,
            ∀ Hdec : ∀ q, Decision (P q),
            (0 <= (if decide (n = 0%Z) then 0
                   else inject_Z (Z.of_nat (length (filter P sim))) /
                        inject_Z n) <= 1)%Q) as Hshare.
  { intros P Hdec. case_decide; [split; by apply Qle_bool_imp_le|].
    apply Qfrac_bounds; [apply Hfilter|unfold n in *; lia]. }
  exists p. split_and!; try done.
  - rewrite Hblue. apply Hshare.
  - rewrite Hblue. apply Hshare.
  - intros Hnd red q. rewrite (Hreds Hnd red).
    destruct (decide (red ∈ reds current_record)); [|done].
    intros [= <-]. apply Hshare.
  - intros Hnd red. rewrite (Hreds Hnd red), Hboth. done.
Qed.

(** A main number that the current draw carries twice is counted twice in
    each comparison, so its entry exceeds 1. *)
Example repeated_number_counted_twice :
  (λ p, red_probabilities p !! 1) <$>
    (match _calculate_current_predictions (draw 3 1 1 2 3 4 5 1)
             [draw 2 1 2 3 4 5 6 1; draw 1 1 2 3 4 5 6 2] with
     | Ok p => Some p
     | Raise _ => None
     end) = Some (Some (2 # 1)%Q).
Proof. vm_compute. reflexivity. Qed.

(** ** The similarity of two lists of numbers *)

Lemma Qfrac_one (a n : Z) :
  0 < n → (inject_Z a / inject_Z n == 1)%Q ↔ a = n.
Proof.
  intros Hn. unfold Qeq, Qdiv, Qmult, Qinv, inject_Z. simpl.
  destruct n as [|n|n]; try lia. simpl. lia.
Qed.

Lemma Qfrac_zero (a n : Z) :
  0 < n → (inject_Z a / inject_Z n == 0)%Q ↔ a = 0.
Proof.
  intros Hn. unfold Qeq, Qdiv, Qmult, Qinv, inject_Z. simpl.
  destruct n as [|n|n]; try lia. simpl. lia.
Qed.

(** X23. [_calculate_similarity] never divides by zero and does not depend
    on the order of its two lists. Its result lies between 0 and 1; it is 1
    exactly when the lists are not empty and hold the same numbers, and 0
    exactly when they have no number in common (two empty lists included). *)
Theorem similarity_described (list1 list2 : list Z) :
  ∃ r,
    _calculate_similarity list1 list2 = Ok r ∧
    _calculate_similarity list2 list1 = Ok r ∧
    (0 <= r)%Q ∧ (r <= 1)%Q ∧
    ((r == 1)%Q ↔ list1 ≠ [] ∧ ∀ x, x ∈ list1 ↔ x ∈ list2) ∧
    ((r == 0)%Q ↔ ∀ x, x ∈ list1 → x ∉ list2).
Proof.
  unfold _calculate_similarity. cbv zeta.
  set (set1 := list_to_set list1 : gset Z).
  set (set2 := list_to_set list2 : gset Z).
  assert (∀ x, x ∈ set1 ↔ x ∈ list1) as H1 by (intros; apply elem_of_list_to_set).
  assert (∀ x, x ∈ set2 ↔ x ∈ list2) as H2 by (intros; apply elem_of_list_to_set).
  assert (list1 ≠ [] ↔ ∃ x, x ∈ list1) as Hne.
  { destruct list1 as [|x l]; split; try done.
    - by intros [x Hx%elem_of_nil].
    - intros _. exists x. by left. }
  setoid_rewrite Hne. setoid_rewrite <- H1. setoid_rewrite <- H2.
  clearbody set1 set2. clear H1 H2 Hne.
  rewrite (comm_L (∪) set2 set1), (comm_L (∩) set2 set1).
  pose proof (subseteq_size (set1 ∩ set2) (set1 ∪ set2)) as Hle.
  destruct (Nat.ltb_spec 0 (size (set1 ∪ set2))) as [Hpos|Hzero].
  - rewrite py_truediv_ok by lia. eexists. split_and!; try done.
    + apply Qfrac_bounds; [|lia]. split; [lia|]. apply inj_le, Hle. set_solver.
    + apply Qfrac_bounds; [|lia]. split; [lia|]. apply inj_le, Hle. set_solver.
    + rewrite Qfrac_one by lia. rewrite Nat2Z.inj_iff. split.
      * intros Heq.
        assert (set1 ∩ set2 = set1 ∪ set2) as Hsets.
        { apply set_subseteq_size_eq; [set_solver|lia]. }
        split; [|set_solver].
        apply size_pos_elem_of in Hpos as [x Hx]. exists x. set_solver.
      * intros [_ Hsame]. f_equal. apply leibniz_equiv. set_solver.
    + rewrite Qfrac_zero by lia.
      change 0 with (Z.of_nat 0). rewrite Nat2Z.inj_iff, size_empty_iff.
      set_solver.
  - apply Nat.le_0_r, size_empty_iff in Hzero.
    eexists. split_and!; try done.
    + split; [intros Heq; symmetry in Heq; by apply Q_apart_0_1 in Heq|].
      intros [[x Hx] _]. set_solver.
    + split; [|done]. intros _. set_solver.
Qed.

(** ** The trend classifier of the service *)

(** X24. The service's [_determine_ball_trend] answers 'insufficient' for
    fewer than two percentages. For two or more that are not NaN, with [hi]
    the largest and [lo] the smallest, it answers Increasing exactly when
    they never decrease and [hi - lo] exceeds 0.005, Decreasing exactly when
    they never increase and [hi - lo] exceeds 0.005, Stable exactly when
    [hi - lo] is at most 0.005, and Oscillating in every other case; it has
    no separate rule for fewer than four windows. On four or more
    percentages it agrees with the analyzer's classifier wherever that one
    sees a rise or a fall, and whatever it calls stable the analyzer calls
    stable too. The difference and the comparisons are those of binary64. *)
Theorem service_ball_trend_described (percentages : list float) :
  let trend := AnalysisService._determine_ball_trend percentages in
  ((length percentages < 2)%nat → trend = HotColdAnalyzer.TrendInsufficient) ∧
  ((2 <= length percentages)%nat → Forall not_nan percentages →
   ∃ hi lo,
     hi ∈ percentages ∧ lo ∈ percentages ∧
     (∀ x, x ∈ percentages →
           (lo <=? x)%float = true ∧ (x <=? hi)%float = true) ∧
     (trend = Increasing ↔
        nondecreasing percentages ∧ (0.005 <? hi - lo)%float = true) ∧
     (trend = Decreasing ↔
        nonincreasing percentages ∧ (0.005 <? hi - lo)%float = true) ∧
     (trend = Stable ↔ (hi - lo <=? 0.005)%float = true) ∧
     (trend = Oscillating ↔
        (hi - lo <=? 0.005)%float = false ∧
        ¬ ((nondecreasing percentages ∨ nonincreasing percentages) ∧
           (0.005 <? hi - lo)%float = true))) ∧
  ((4 <= length percentages)%nat →
   (_determine_ball_trend percentages = Increasing → trend = Increasing) ∧
   (_determine_ball_trend percentages = Decreasing → trend = Decreasing) ∧
   (trend = Stable → _determine_ball_trend percentages = Stable)).
Proof.
  intros trend. subst trend.
  unfold AnalysisService._determine_ball_trend, _determine_ball_trend.
  split; [|split].
  - intros Hlen. by apply Nat.ltb_lt in Hlen as ->.
  - intros Hlen Hnan. rewrite (proj2 (Nat.ltb_ge _ _) Hlen).
    destruct percentages as [|p ps]; [simpl in Hlen; lia|].
    destruct (spread_facts p ps 0.005 Hnan eq_refl)
      as (Hhi & Hlo & Hbounds & Hinc & Hdec & Hconst).
    exists (py_max p ps), (py_min p ps).
    split_and!; [done|done|done|..];
      set (d := (py_max p ps - py_min p ps)%float) in *;
      pose proof (threshold_gap d 0.005 0.005 eq_refl) as Hgap;
      destruct (all_adjacent PrimFloat.leb (p :: ps)),
               (all_adjacent (λ a b, PrimFloat.leb b a) (p :: ps)),
               (0.005 <? d)%float, (d <=? 0.005)%float; simpl;
      split; try discriminate; intuition (discriminate || auto).
  - intros Hlen.
    assert ((length percentages <? 2)%nat = false) as ->
      by (apply Nat.ltb_ge; lia).
    apply Nat.leb_le in Hlen as ->.
    destruct percentages as [|p ps].
    { cbn. split_and!; done. }
    set (d := (py_max p ps - py_min p ps)%float).
    assert ((0.05 <? d)%float = true → (0.005 <? d)%float = true) as H1.
    { intros Hlt. apply (float_leb_ltb_trans _ 0.05); [reflexivity|done]. }
    assert ((d <=? 0.005)%float = true → (d <=? 0.03)%float = true) as H2.
    { intros Hle. apply (float_leb_trans _ 0.005); [done|reflexivity]. }
    pose proof (threshold_gap d 0.005 0.05 eq_refl) as H3.
    pose proof (threshold_gap d 0.005 0.005 eq_refl) as H4.
    destruct (all_adjacent PrimFloat.leb (p :: ps)),
             (all_adjacent (λ a b, PrimFloat.leb b a) (p :: ps)),
             (0.005 <? d)%float, (d <=? 0.005)%float,
             (0.05 <? d)%float, (d <=? 0.03)%float; simpl;
      split_and!; try discriminate; try done;
      intuition (discriminate || auto).
Qed.

(** At the threshold the comparison is that of binary64: the floats 0.505
    and 0.5 differ by more than the float 0.005. *)
Example service_trend_at_the_threshold :
  AnalysisService._determine_ball_trend [0.5; 0.505]%float = Increasing.
Proof. vm_compute. reflexivity. Qed.

(** ** The statistics of the sums *)

Import AnalysisService.

Lemma red_sum_of (record : DoubleBallRecord) :
  red_sum (sum_item_of record) = py_sum (reds record).
Proof. unfold sum_item_of, reds, py_sum. cbn. lia. Qed.

Lemma py_min_int_spec (x : Z) (l : list Z) :
  py_min_int x l ∈ x :: l ∧ ∀ v, v ∈ x :: l → py_min_int x l <= v.
Proof.
  unfold py_min_int. revert x. induction l as [|y l IH]; intros x; cbn.
  - split; [by left|]. intros v ->%list_elem_of_singleton. lia.
  - destruct (IH (Z.min x y)) as [Hin Hlb]. split.
    + apply elem_of_cons in Hin as [->|Hin]; [|by do 2 right].
      destruct (Z.min_spec x y) as [[_ ->]|[_ ->]]; [by left|right; by left].
    + intros v Hv. pose proof (Hlb (Z.min x y) ltac:(by left)) as Hm.
      apply elem_of_cons in Hv as [->|[->|Hv]%elem_of_cons]; [lia|lia|].
      apply Hlb. by right.
Qed.

Lemma py_max_int_spec (x : Z) (l : list Z) :
  py_max_int x l ∈ x :: l ∧ ∀ v, v ∈ x :: l → v <= py_max_int x l.
Proof.
  unfold py_max_int. revert x. induction l as [|y l IH]; intros x; cbn.
  - split; [by left|]. intros v ->%list_elem_of_singleton. lia.
  - destruct (IH (Z.max x y)) as [Hin Hub]. split.
    + apply elem_of_cons in Hin as [->|Hin]; [|by do 2 right].
      destruct (Z.max_spec x y) as [[_ ->]|[_ ->]]; [right; by left|by left].
    + intros v Hv. pose proof (Hub (Z.max x y) ltac:(by left)) as Hm.
      apply elem_of_cons in Hv as [->|[->|Hv]%elem_of_cons]; [lia|lia|].
      apply Hub. by right.
Qed.

Lemma py_sum_between (l : list Z) (lo hi : Z) :
  (∀ v, v ∈ l → lo <= v <= hi) →
  Z.of_nat (length l) * lo <= py_sum l <= Z.of_nat (length l) * hi.
Proof.
  induction l as [|x l IH]; intros Hl.
  - cbn. lia.
  - rewrite py_sum_cons. cbn [length].
    pose proof (Hl x ltac:(by left)).
    destruct IH as [? ?]; [intros v Hv; apply Hl; by right|]. nia.
Qed.

Lemma mean_between (s n lo hi : Z) :
  0 < n → n * lo <= s <= n * hi →
  (inject_Z lo <= inject_Z s / inject_Z n)%Q ∧
  (inject_Z s / inject_Z n <= inject_Z hi)%Q.
Proof.
  intros Hn [Hlo Hhi].
  assert (0 < inject_Z n)%Q as Hn'.
  { change 0%Q with (inject_Z 0). by rewrite <- Zlt_Qlt. }
  split.
  - apply Qle_shift_div_l; [done|].
    rewrite <- inject_Z_mult, <- Zle_Qle. lia.
  - apply Qle_shift_div_r; [done|].
    rewrite <- inject_Z_mult, <- Zle_Qle. lia.
Qed.

Lemma indexed_prefix (l : list Z) (n : Z) :
  map (λ i, default 0 (l !! Z.to_nat i))
      (py_range 0 (Z.min n (Z.of_nat (length l)))) =
  take (Z.to_nat n) l.
Proof.
  unfold py_range. rewrite Z.sub_0_r.
  apply list_eq. intros i.
  change (map ?f ?l) with (f <$> l).
  rewrite !list_lookup_fmap.
  destruct (decide (i < Z.to_nat (Z.min n (Z.of_nat (length l))))%nat)
    as [Hi|Hi].
  - rewrite lookup_seq_lt by done. cbn.
    rewrite lookup_take_lt by lia.
    replace (Z.to_nat (0 + Z.of_nat i)) with i by lia.
    destruct (lookup_lt_is_Some_2 l i) as [v ->]; [lia|]. done.
  - rewrite lookup_seq_ge by lia. cbn. symmetry.
    apply lookup_ge_None. rewrite length_take. lia.
Qed.

Lemma count_values (f : Z → string) (ranges : list (string * (Z * Z)))
    (values : list Z) (m : gmap string Z) (name : string) :
  (∀ v, v ∈ values →
     fst <$> find (λ r, (r.2.1 <=? v) && (v <=? r.2.2)) ranges = Some (f v)) →
  fold_left (count_value ranges) values m !! name =
  (λ c, c + Z.of_nat (length (filter (λ v, f v = name) values))) <$> m !! name.
Proof.
  revert m. induction values as [|v values IH]; intros m Hf.
  - cbn. destruct (m !! name); [|done]. cbn. f_equal. lia.
  - cbn [fold_left]. rewrite IH by (intros; apply Hf; by right).
    pose proof (Hf v ltac:(by left)) as Hv.
    unfold count_value.
    destruct (find _ ranges) as [[range_name bounds]|]; [|done].
    injection Hv as ->. rewrite filter_cons.
    destruct (decide (f v = name)) as [<-|Hne].
    + rewrite lookup_alter_eq. destruct (m !! f v); [|done].
      cbn. f_equal. lia.
    + rewrite lookup_alter_ne by done. done.
Qed.

Lemma sum_range_found (min_sum max_sum v : Z) :
  min_sum <= v <= max_sum →
  fst <$> find (λ r, (r.2.1 <=? v) && (v <=? r.2.2))
               (sum_ranges min_sum max_sum) =
  Some (if decide (v <= 80) then "low"
        else if decide (v <= 100) then "medium_low"
        else if decide (v <= 120) then "medium"
        else if decide (v <= 140) then "medium_high"
        else "high").
Proof.
  intros Hv. unfold sum_ranges. cbn [find fst snd].
  repeat case_decide;
    repeat match goal with
    | |- context [?a <=? ?b] =>
        destruct (Z.leb_spec a b); try lia; cbn [andb fmap option_fmap option_map fst]
    end; done.
Qed.

Lemma initial_range_counts (min_sum max_sum : Z) (name : string) :
  name ∈ ["low"; "medium_low"; "medium"; "medium_high"; "high"] →
  fold_left (λ (m : gmap string Z) r, <[r.1 := 0]> m)
            (sum_ranges min_sum max_sum) ∅ !! name = Some 0.
Proof.
  unfold sum_ranges. cbn [fold_left fst].
  rewrite !elem_of_cons, elem_of_nil.
  intros [->|[->|[->|[->|[->|[]]]]]]; by simplify_map_eq.
Qed.

Lemma filters_partition (values : list Z) :
  Z.of_nat (length (filter (λ v, v <= 80) values)) +
  Z.of_nat (length (filter (λ v, 81 <= v <= 100) values)) +
  Z.of_nat (length (filter (λ v, 101 <= v <= 120) values)) +
  Z.of_nat (length (filter (λ v, 121 <= v <= 140) values)) +
  Z.of_nat (length (filter (λ v, 141 <= v) values)) =
  Z.of_nat (length values).
Proof.
  induction values as [|v values IH]; [done|].
  rewrite !filter_cons. cbn [length].
  repeat case_decide; cbn [length]; lia.
Qed.

Lemma filter_sums (P : Z → Prop) `{∀ v, Decision (P v)}
    (records : list DoubleBallRecord) :
  Z.of_nat (length (filter P (map (λ r, py_sum (reds r)) records))) =
  sums_within P records.
Proof.
  unfold sums_within. f_equal.
  induction records as [|r records IH]; [done|].
  cbn [map]. rewrite !filter_cons. case_decide; cbn [length]; lia.
Qed.

Lemma filter_equiv_length (P Q : Z → Prop) `{∀ v, Decision (P v)}
    `{∀ v, Decision (Q v)} (l : list Z) :
  (∀ v, v ∈ l → P v ↔ Q v) →
  length (filter P l) = length (filter Q l).
Proof.
  induction l as [|x l IH]; intros HPQ; [done|].
  rewrite !filter_cons.
  pose proof (HPQ x ltac:(by left)) as Hx.
  assert (length (filter P l) = length (filter Q l)) as Hl
    by (apply IH; intros; apply HPQ; by right).
  repeat case_decide; cbn [length]; tauto || lia.
Qed.

(** X25. [get_sum_statistics] answers with the text of an OverflowError
    exactly when the window is 2^63 or more, and with no other exception.
    For a smaller window it answers 'no data' exactly when the window holds
    no recent draw. Otherwise its minimum and maximum are sums of main
    numbers of draws of the window and bound all of them, its average is
    their mean and lies between the two. Whatever the minimum and maximum
    are, the five ranges count the draws with a sum up to 80, within 81..100,
    101..120, 121..140 and from 141 on, so that every draw is counted exactly
    once. The recent trend holds the sums of the first five draws returned
    (the newest ones), and the direction is Downward exactly when the first
    of them exceeds the last, Upward exactly when it is smaller, Steady when
    they are equal. *)
Theorem sum_statistics_described (self : AnalysisService.t)
    (window : option Z) :
  let w := default (default_window self) window in
  let records := DoubleBallDatabase.get_recent_records (db self) w in
  let values := map (λ r, py_sum (reds r)) records in
  match get_sum_statistics self window with
  | SumError (Some e) => e = OverflowError ∧ 2 ^ 63 <= w
  | SumError None => w < 2 ^ 63 ∧ records = []
  | SumOk s =>
      let st := statistics_of s in
      w < 2 ^ 63 ∧ sum_window s = w ∧
      records ≠ [] ∧
      sum_total_records s = Z.of_nat (length records) ∧
      map red_sum (sums s) = values ∧
      minimum st ∈ values ∧ maximum st ∈ values ∧
      (∀ v, v ∈ values → minimum st <= v <= maximum st) ∧
      average st =
        (inject_Z (py_sum values) / inject_Z (Z.of_nat (length records)))%Q ∧
      (inject_Z (minimum st) <= average st)%Q ∧
      (average st <= inject_Z (maximum st))%Q ∧
      range_counts st !! "low" = Some (sums_within (λ v, v <= 80) records) ∧
      range_counts st !! "medium_low" =
        Some (sums_within (λ v, 81 <= v <= 100) records) ∧
      range_counts st !! "medium" =
        Some (sums_within (λ v, 101 <= v <= 120) records) ∧
      range_counts st !! "medium_high" =
        Some (sums_within (λ v, 121 <= v <= 140) records) ∧
      range_counts st !! "high" = Some (sums_within (λ v, 141 <= v) records) ∧
      sums_within (λ v, v <= 80) records +
      sums_within (λ v, 81 <= v <= 100) records +
      sums_within (λ v, 101 <= v <= 120) records +
      sums_within (λ v, 121 <= v <= 140) records +
      sums_within (λ v, 141 <= v) records = Z.of_nat (length records) ∧
      recent_trend st = take 5 values ∧
      (trend_direction st = Downward ↔
         List.last (take 5 values) 0 < hd 0 values) ∧
      (trend_direction st = Upward ↔
         hd 0 values < List.last (take 5 values) 0) ∧
      (trend_direction st = Steady ↔
         hd 0 values = List.last (take 5 values) 0)
  end.
Proof.
  intros w records values. unfold get_sum_statistics. fold w.
  destruct (recent_records_outcome (db self) w) as [[Hge ->]|[Hlt ->]];
    [done|].
  fold records.
  assert (map red_sum (map sum_item_of records) = values) as Hvalues.
  { unfold values. clear. induction records as [|r records IH]; [done|].
    cbn [map]. by rewrite red_sum_of, IH. }
  pose proof (filters_partition values) as Hpart.
  assert (∀ (P : Z → Prop) (Hdec : ∀ v, Decision (P v)),
            Z.of_nat (length (filter P values)) = sums_within P records)
    as Hsums by (intros; apply filter_sums).
  rewrite !Hsums in Hpart.
  assert (length values = length records) as Hlen
    by (unfold values; apply length_map).
  clearbody values records.
  destruct records as [|r records].
  { cbn [map]. by split. }
  cbn [map] in Hvalues |- *.
  destruct values as [|v values]; [discriminate Hvalues|].
  assert (red_sum (sum_item_of r) = v ∧
          map red_sum (map sum_item_of records) = values) as [Hv Hvs]
    by (by injection Hvalues).
  clear Hvalues. rename Hvs into Hvalues. rewrite Hv, Hvalues.
  set (n := Z.of_nat (length (v :: values))).
  assert (0 < n) as Hn by (unfold n; cbn [length]; lia).
  rewrite py_truediv_ok by done.
  destruct (py_min_int_spec v values) as [Hmin_in Hmin].
  destruct (py_max_int_spec v values) as [Hmax_in Hmax].
  set (min_sum := py_min_int v values) in *.
  set (max_sum := py_max_int v values) in *.
  clearbody min_sum max_sum.
  cbv zeta.
  cbn [statistics_of sum_total_records sums average minimum maximum
       range_counts recent_trend trend_direction sum_window].
  assert (∀ name P (Hdec : ∀ v, Decision (P v)),
            name ∈ ["low"; "medium_low"; "medium"; "medium_high"; "high"] →
            (∀ x, x ∈ v :: values →
               (if decide (x <= 80) then "low"
                else if decide (x <= 100) then "medium_low"
                else if decide (x <= 120) then "medium"
                else if decide (x <= 140) then "medium_high"
                else "high") = name ↔ P x) →
            fold_left (count_value (sum_ranges min_sum max_sum)) (v :: values)
              (fold_left (λ (m : gmap string Z) r, <[r.1 := 0]> m)
                         (sum_ranges min_sum max_sum) ∅) !! name =
            Some (sums_within P (r :: records))) as Hcount.
  { intros name P Hdec Hname HP.
    rewrite (count_values _ _ _ _ _
               (λ x Hx, sum_range_found min_sum max_sum x
                          (conj (Hmin x Hx) (Hmax x Hx)))).
    rewrite initial_range_counts by done. cbn [fmap option_fmap option_map].
    rewrite Z.add_0_l, <- Hsums. do 2 f_equal.
    by apply filter_equiv_length. }
  assert (length (r :: records) = length (map sum_item_of (r :: records)))
    as Hlen' by (by rewrite length_map).
  assert (map (λ i, default 0 (red_sum <$>
                 (sum_item_of r :: map sum_item_of records) !! Z.to_nat i))
              (py_range 0 (Z.min 5 (Z.of_nat (length
                 (sum_item_of r :: map sum_item_of records))))) =
          take 5 (v :: values)) as Hrecent.
  { change (take 5 (v :: values)) with (take (Z.to_nat 5) (v :: values)).
    rewrite <- (indexed_prefix (v :: values) 5).
    replace (length (sum_item_of r :: map sum_item_of records))
      with (length (v :: values)) by (cbn [length] in *; rewrite length_map; lia).
    apply map_ext. intros i.
    rewrite <- Hv, <- Hvalues.
    change (red_sum (sum_item_of r) :: map red_sum (map sum_item_of records))
      with (red_sum <$> (sum_item_of r :: map sum_item_of records)).
    by rewrite list_lookup_fmap. }
  rewrite Hrecent.
  split; [done|]. split; [done|]. split; [done|]. split; [done|].
  split; [cbn [map]; by rewrite Hv, Hvalues|].
  split; [done|]. split; [done|].
  split; [by split; [apply Hmin|apply Hmax]|].
  split; [by rewrite <- Hlen|].
  assert (n * min_sum <= py_sum (v :: values) <= n * max_sum) as Hbetween.
  { pose proof (py_sum_between (v :: values) min_sum max_sum) as Hb.
    fold n in Hb. apply Hb. intros x Hx. split; [by apply Hmin|by apply Hmax]. }
  destruct (mean_between (py_sum (v :: values)) n min_sum max_sum Hn Hbetween)
    as [Hlo Hhi].
  split; [done|]. split; [done|].
  split.
  { apply Hcount; [set_solver|]. intros x _. repeat case_decide; split;
      intros; try done; lia. }
  split.
  { apply Hcount; [set_solver|]. intros x _. repeat case_decide; split;
      intros; try done; lia. }
  split.
  { apply Hcount; [set_solver|]. intros x _. repeat case_decide; split;
      intros; try done; lia. }
  split.
  { apply Hcount; [set_solver|]. intros x _. repeat case_decide; split;
      intros; try done; lia. }
  split.
  { apply Hcount; [set_solver|]. intros x _. repeat case_decide; split;
      intros; try done; lia. }
  split; [by rewrite Hpart, Hlen|].
  split; [done|].
  set (recent := take 5 (v :: values)).
  assert (length recent = 1%nat → List.last recent 0 = hd 0 (v :: values))
    as Hone.
  { unfold recent. destruct values as [|w0 values]; [done|].
    cbn [take length]. lia. }
  assert (hd 0 recent = hd 0 (v :: values)) as -> by done.
  assert (1 <= length recent)%nat as Hpos by (unfold recent; cbn; lia).
  destruct (Nat.leb_spec 2 (length recent)) as [Htwo|Htwo].
  - destruct (Z.ltb_spec (List.last recent 0) (hd 0 (v :: values))),
             (Z.ltb_spec (hd 0 (v :: values)) (List.last recent 0));
      split_and!; split; intros; try done; lia.
  - rewrite Hone by lia. split_and!; split; intros; try done; lia.
Qed.

(** ** The window configuration under updates *)

Lemma set_window_config_consistent (cls : WindowConfigManager.state)
    (config : gmap string Z) :
  window_config_consistent cls →
  window_config_consistent (WindowConfigManager.set_window_config cls config).
Proof.
  intros (Hfinite & Hall & Hother & Htrend).
  unfold window_config_consistent, WindowConfigManager.set_window_config,
    WindowConfigManager.get_window_by_name,
    WindowConfigManager.get_trend_windows.
  cbn [WindowConfigManager._WINDOW_CONFIG WindowConfigManager._TREND_WINDOWS].
  destruct (Hfinite "short_term") as [s Hs]; [set_solver|].
  destruct (Hfinite "medium_term") as [m Hm]; [set_solver|].
  destruct (Hfinite "long_term") as [l Hl]; [set_solver|].
  split_and!; [| | |done].
  - intros name. rewrite !elem_of_cons, elem_of_nil.
    intros [->|[->|[->|[]]]];
      destruct (config !! "short_term"), (config !! "medium_term"),
               (config !! "long_term"); simplify_map_eq; by eexists.
  - destruct (config !! "short_term"), (config !! "medium_term"),
             (config !! "long_term"); by simplify_map_eq.
  - intros name Hname. specialize (Hother name Hname).
    rewrite !not_elem_of_cons in Hname. destruct Hname as (? & ? & ? & ? & _).
    destruct (config !! "short_term"), (config !! "medium_term"),
             (config !! "long_term"); by simplify_map_eq.
Qed.

(** X26. Whatever sequence of [set_window_config] and [update_from_config]
    calls follows the import of the module, the configuration stays
    consistent: the short, medium and long windows have a size, the
    all-history window has none, no other window appears, and the trend
    windows are the three configured sizes followed by [None]. After an
    update from a configuration object with an analysis section the three
    sizes are its attributes, an absent attribute giving 30, 50 or 100
    whatever the size was before. *)
Theorem window_config_stays_consistent (ops : list window_operation) :
  let cls := fold_left run_window_operation ops WindowConfigManager.initial in
  window_config_consistent cls ∧
  ∀ ops' a,
    ops = ops' ++ [UpdateFromConfig (Some a)] →
    WindowConfigManager.get_trend_windows cls =
      [Some (default 30 (WindowConfigManager.SHORT_TERM_WINDOW a));
       Some (default 50 (WindowConfigManager.MEDIUM_TERM_WINDOW a));
       Some (default 100 (WindowConfigManager.LONG_TERM_WINDOW a)); None].
Proof.
  intros cls. subst cls. split.
  - induction ops as [|op ops IH] using rev_ind.
    + cbn [fold_left]. unfold window_config_consistent.
      split_and!; try done.
      * intros name. rewrite !elem_of_cons, elem_of_nil.
        intros [->|[->|[->|[]]]]; by eexists.
      * intros name. rewrite !not_elem_of_cons. intros (? & ? & ? & ? & _).
        unfold WindowConfigManager.initial.
        cbn [WindowConfigManager._WINDOW_CONFIG]. by simplify_map_eq.
    + rewrite fold_left_app. cbn [fold_left].
      destruct op as [config|[a|]]; cbn [run_window_operation];
        [by apply set_window_config_consistent| |done].
      by apply set_window_config_consistent.
  - intros ops' a ->. rewrite fold_left_app. cbn [fold_left run_window_operation].
    unfold WindowConfigManager.update_from_config,
      WindowConfigManager.set_window_config,
      WindowConfigManager.get_trend_windows.
    cbn [WindowConfigManager._TREND_WINDOWS]. by simplify_map_eq.
Qed.
